(** * Multipart upload: Planner (browser) and Coordinator (server)

    A shallow embedding of the chunked-upload subsystem:
    - [JS]          the JavaScript primitives the handlers rely on
                    (truthiness of strings, [trim], [includes], [parseInt]);
    - [Coordinator] the [/api/multipart-upload] route: [POST], [PUT]
                    ([handleUploadPart]) and [DELETE];
    - [Upload]      the [/api/upload] route (single-shot upload);
    - [Planner]     the browser side: [uploadFileSimple] and
                    [uploadFileMultipart] with the per-part retry loop;
    - [Rename], [ListAssets]  the [/api/rename-asset] and
                    [/api/list-assets] routes;
    - [Keys], [Gallery], [Digits]  the keys, the file list and the
                    part numbers of the browser component.

    Asynchronous calls are modelled by explicit oracles for the
    collaborators (bucket binding, network) and by the trace of calls a
    handler performs. *)

From Stdlib Require Import ZArith Lia Ascii String.
From stdpp Require Import gmap strings list.

Local Open Scope Z_scope.

(* ===================================================================== *)
(** ** JavaScript primitives *)
(* ===================================================================== *)

Module JS.

(** Strings are sequences of code units below 256. *)

Definition code (c : ascii) : Z := Z.of_nat (nat_of_ascii c).

(** [!s] for [s : string | null]: [null] and the empty string are falsy. *)
Definition truthy (s : option string) : bool :=
  match s with
  | Some (String _ _) => true
  | _ => false
  end.

Definition nonEmpty (s : string) : bool :=
  match s with
  | EmptyString => false
  | String _ _ => true
  end.

(** [a || b] on [string | null]. *)
Definition orElse (a b : option string) : option string :=
  if truthy a then a else b.

(** WhiteSpace and LineTerminator code units below 256:
    TAB, LF, VT, FF, CR, SP, NBSP. *)
Definition isWhiteSpace (c : ascii) : bool :=
  let n := code c in
  (n =? 9) || (n =? 10) || (n =? 11) || (n =? 12) || (n =? 13)
  || (n =? 32) || (n =? 160).

Fixpoint trimStart (s : string) : string :=
  match s with
  | EmptyString => EmptyString
  | String c r => if isWhiteSpace c then trimStart r else s
  end.

Fixpoint rev_append (s acc : string) : string :=
  match s with
  | EmptyString => acc
  | String c r => rev_append r (String c acc)
  end.

Definition rev (s : string) : string := rev_append s EmptyString.

Definition trimEnd (s : string) : string := rev (trimStart (rev s)).

Definition trim (s : string) : string := trimEnd (trimStart s).

(** [s.startsWith(p)] *)
Fixpoint startsWith (p s : string) : bool :=
  match p, s with
  | EmptyString, _ => true
  | String a p', String b s' => if Ascii.eqb a b then startsWith p' s' else false
  | String _ _, EmptyString => false
  end.

(** [s.includes(p)] *)
Fixpoint includes (s p : string) : bool :=
  startsWith p s ||
  match s with
  | EmptyString => false
  | String _ r => includes r p
  end.

(** [s.split(sep).pop()] for a one-character separator: the text after
    the last occurrence of [sep] (all of [s] when there is none). *)
Fixpoint lastSegmentFrom (sep : ascii) (cur s : string) : string :=
  match s with
  | EmptyString => rev cur
  | String c r =>
      if Ascii.eqb c sep then lastSegmentFrom sep EmptyString r
      else lastSegmentFrom sep (String c cur) r
  end.

Definition splitPop (sep : ascii) (s : string) : string :=
  lastSegmentFrom sep EmptyString s.

Definition slash : ascii := "/"%char.
Definition dot : ascii := "."%char.

Fixpoint dropLeading (ch : ascii) (s : string) : string :=
  match s with
  | EmptyString => EmptyString
  | String c r => if Ascii.eqb c ch then dropLeading ch r else s
  end.

(** [s.replace(/^\/+|\/+$/g, "")] *)
Definition stripSlashes (s : string) : string :=
  rev (dropLeading slash (rev (dropLeading slash s))).

(** [s.replace(/\/+/g, "/")]: every run of slashes becomes one slash.
    [prev] tells whether the previous character was a slash. *)
Fixpoint collapseFrom (prev : bool) (s : string) : string :=
  match s with
  | EmptyString => EmptyString
  | String c r =>
      if Ascii.eqb c slash
      then (if prev then collapseFrom true r
            else String slash (collapseFrom true r))
      else String c (collapseFrom false r)
  end.

Definition collapseSlashes (s : string) : string := collapseFrom false s.

(** Value of a digit character in radixes up to 36. *)
Definition digitValue (c : ascii) : option Z :=
  let n := code c in
  if (48 <=? n) && (n <=? 57) then Some (n - 48)
  else if (97 <=? n) && (n <=? 122) then Some (n - 87)
  else if (65 <=? n) && (n <=? 90) then Some (n - 55)
  else None.

Definition radixDigit (R : Z) (c : ascii) : option Z :=
  match digitValue c with
  | Some d => if d <? R then Some d else None
  | None => None
  end.

(** The longest prefix of radix-[R] digits, as a mathematical integer;
    [None] when that prefix is empty. *)
Fixpoint parseDigits (R : Z) (acc : option Z) (s : string) : option Z :=
  match s with
  | EmptyString => acc
  | String c r =>
      match radixDigit R c with
      | Some d =>
          parseDigits R (Some (match acc with Some a => a * R + d | None => d end)) r
      | None => acc
      end
  end.

(** A number other than [NaN] that holds an integer: a double with an
    integral value, or an infinity.  The sign of zero is not kept; it
    shows in no comparison. *)
Inductive Number : Type :=
| Finite (z : Z)
| PosInfinity
| NegInfinity.

(** The double nearest to the integer [m], ties going to the even
    mantissa: [m] itself below 2^53, [m] rounded to 53 significant bits
    above, an infinity once the rounded value reaches 2^1024. *)
Definition toDouble (m : Z) : Number :=
  let a := Z.abs m in
  if a <? 9007199254740992 then Finite m
  else
    let e := Z.log2 a - 52 in
    let q := a / 2 ^ e in
    let r := a mod 2 ^ e in
    let half := 2 ^ (e - 1) in
    let q' := if (half <? r) || ((r =? half) && Z.odd q) then q + 1 else q in
    if 2 ^ 1024 <=? q' * 2 ^ e
    then (if m <? 0 then NegInfinity else PosInfinity)
    else Finite (Z.sgn m * (q' * 2 ^ e)).

(** [x < 1] *)
Definition lessThanOne (x : Number) : bool :=
  match x with
  | Finite z => z <? 1
  | PosInfinity => false
  | NegInfinity => true
  end.

(** [parseInt(s)] with no radix argument; [None] is [NaN].  The digits
    are read as a mathematical integer, which is then rounded to a
    double. *)
Definition parseInt (s : string) : option Number :=
  let s1 := trimStart s in
  let '(sign, s2) :=
    match s1 with
    | String "-"%char r => (-1, r)
    | String "+"%char r => (1, r)
    | _ => (1, s1)
    end in
  let '(R, s3) :=
    match s2 with
    | String "0"%char (String "x"%char r) => (16, r)
    | String "0"%char (String "X"%char r) => (16, r)
    | _ => (10, s2)
    end in
  match parseDigits R None s3 with
  | Some m => Some (toDouble (sign * m))
  | None => None
  end.

(** [Response.ok] *)
Definition statusOk (status : Z) : bool := (200 <=? status) && (status <=? 299).

(** [URLSearchParams.get] / [FormData.get]: first value under the name. *)
Fixpoint get {A : Type} (name : string) (l : list (string * A)) : option A :=
  match l with
  | [] => None
  | (k, v) :: r => if String.eqb k name then Some v else get name r
  end.

End JS.

Coercion JS.Finite : Z >-> JS.Number.

(* ===================================================================== *)
(** ** Multipart Session Coordinator: the [/api/multipart-upload] route *)
(* ===================================================================== *)

Module Coordinator.

Definition bytes : Type := list Byte.byte.

(** What an awaited collaborator call does: it returns a value or
    throws an error carrying [error.message]. *)
Inductive Outcome (A : Type) : Type :=
| Returns (a : A)
| Throws (message : string).
Arguments Returns {A} a.
Arguments Throws {A} message.

(** [R2UploadedPart] *)
Record UploadedPart : Type := { partNumber : Z; etag : string }.

(** The fields of [R2Object] the route reads. *)
Record R2Object : Type := { obj_key : string; httpEtag : string; size : Z }.

(** The bucket binding [CLOUD_FILES], a collaborator: one oracle per
    primitive.  [resumeMultipartUpload] only builds a handle for
    [(key, uploadId)]; the primitives of that handle take the pair. *)
Record Bucket : Type := {
  createMultipartUpload : string -> option string -> Outcome (string * string);
  uploadPart : string -> string -> JS.Number -> bytes -> Outcome UploadedPart;
  complete : string -> string -> list UploadedPart -> Outcome R2Object;
  abort : string -> string -> Outcome unit
}.

(** The calls a handler makes on the bucket binding, in order. *)
Inductive BucketCall : Type :=
| CallCreate (key : string) (contentType : option string)
| CallResume (key uploadId : string)
| CallUploadPart (key uploadId : string) (partNumber : JS.Number) (body : bytes)
| CallComplete (key uploadId : string) (parts : list UploadedPart)
| CallAbort (key uploadId : string).

(** The JSON body of a [POST], as [parseRequestData] hands it over:
    absent or [null] fields are [None]. *)
Record JsonBody : Type := {
  j_key : option string;
  j_contentType : option string;
  j_uploadId : option string;
  j_partNumber : option Z;
  j_parts : option (list UploadedPart)
}.

Record Request : Type := {
  method : string;
  (** [isAuthenticated(request, env)], the login collaborator *)
  authenticated : bool;
  (** [new URL(request.url).searchParams] *)
  searchParams : list (string * string);
  (** [request.headers.get("content-type")] *)
  contentType : option string;
  (** [request.json()]; [None] when it throws *)
  jsonBody : option JsonBody;
  (** [request.formData()], string fields; [None] when it throws *)
  formData : option (list (string * string));
  (** [request.body]; [None] is [null] *)
  body : option bytes
}.

(** [locals.runtime.env]: the bucket binding may be missing. *)
Record Env : Type := { CLOUD_FILES : option Bucket }.

Inductive Payload : Type :=
| Cors
| Error (message : string)
| Created (key uploadId : string)
| UploadUrl (uploadId key : string) (partNumber : Z)
| PartStored (partNumber : Z) (etag : string)
| Completed (key etag : string) (size : Z)
| Aborted (message : string).

Record Response : Type := { status : Z; payload : Payload }.

(** Modelled from the spec: the [API] helper ([utils/api]) is not among
    the sources.  [API.error(message, request, status)] answers with the
    status it is given and the message, [API.success(data, request)]
    answers 200 with the data, and [API.cors(request)] answers a
    preflight. *)
Definition error (message : string) (st : Z) : Response :=
  {| status := st; payload := Error message |}.
Definition success (p : Payload) : Response :=
  {| status := 200; payload := p |}.
Definition cors : Response := {| status := 204; payload := Cors |}.

(** [error.message || fallback] *)
Definition messageOr (message fallback : string) : string :=
  if JS.nonEmpty message then message else fallback.

Definition action (req : Request) : option string :=
  JS.get "action" (searchParams req).

(** The template [`Unknown action: ${action}`] *)
Definition unknownAction (a : option string) : string :=
  "Unknown action: " +:+ default "null" a.

Definition parseRequestData (req : Request) : Outcome JsonBody :=
  let contentType := default "" (contentType req) in
  if JS.includes contentType "application/json" then
    match jsonBody req with
    | Some data => Returns data
    | None => Throws "Unexpected token"
    end
  else Throws "Content-Type must be application/json".

(** A request body can be read once: [arrayBuffer()] after
    [formData()] rejects with a [TypeError]; this is the message the
    Workers runtime gives it. *)
Definition bodyUsedMessage : string :=
  "Body has already been used. It can only be used once. Use tee() first if you need to read it twice.".

(** Lines 222-251 of the route: the three parameters of upload-part,
    from the URL first, then from a [multipart/form-data] body for
    those the URL lacks.  The boolean tells whether [formData()] was
    called, which consumes the body. *)
Definition uploadPartParams (req : Request)
  : option string * option string * option string * bool :=
  let uploadId := JS.get "uploadId" (searchParams req) in
  let partNumberStr := JS.get "partNumber" (searchParams req) in
  let key := JS.get "key" (searchParams req) in
  if negb (JS.truthy uploadId) || negb (JS.truthy partNumberStr)
     || negb (JS.truthy key) then
    let contentType := default "" (contentType req) in
    if JS.includes contentType "application/json" then
      (uploadId, partNumberStr, key, false)
    else if JS.includes contentType "multipart/form-data" then
      match formData req with
      | Some form =>
          (JS.orElse uploadId (JS.get "uploadId" form),
           JS.orElse partNumberStr (JS.get "partNumber" form),
           JS.orElse key (JS.get "key" form),
           true)
      | None => (uploadId, partNumberStr, key, true)
      end
    else (uploadId, partNumberStr, key, false)
  else (uploadId, partNumberStr, key, false).

(** Shared handler of [PUT] and of [POST ?action=upload-part]. *)
Definition handleUploadPart (env : Env) (req : Request)
  : Response * list BucketCall :=
  if String.eqb (method req) "OPTIONS" then (cors, [])
  else if negb (authenticated req) then
    (error "Authentication required" 401, [])
  else
    match CLOUD_FILES env with
    | None => (error "Cloud storage not configured" 500, [])
    | Some bucket =>
        if negb (bool_decide (action req = Some "upload-part")) then
          (error (unknownAction (action req)) 400, [])
        else
          let '(uploadId, partNumberStr, key, bodyUsed) := uploadPartParams req in
          match uploadId, partNumberStr, key with
          | Some uploadId, Some partNumberStr, Some key =>
              if negb (JS.nonEmpty uploadId) || negb (JS.nonEmpty partNumberStr)
                 || negb (JS.nonEmpty key) then
                (error "Missing uploadId, partNumber, or key" 400, [])
              else
                match JS.parseInt partNumberStr with
                | None => (error "Invalid part number" 400, [])
                | Some partNumber =>
                    if JS.lessThanOne partNumber then
                      (error "Invalid part number" 400, [])
                    else
                      match body req with
                      | None => (error "Missing request body" 400, [])
                      | Some arrayBuffer =>
                          if bodyUsed then
                            (error (messageOr bodyUsedMessage "Failed to upload part") 400,
                             [CallResume key uploadId])
                          else
                            match uploadPart bucket key uploadId partNumber arrayBuffer with
                            | Returns uploadedPart =>
                                (success (PartStored (Coordinator.partNumber uploadedPart)
                                                     (etag uploadedPart)),
                                 [CallResume key uploadId;
                                  CallUploadPart key uploadId partNumber arrayBuffer])
                            | Throws message =>
                                (error (messageOr message "Failed to upload part") 400,
                                 [CallResume key uploadId;
                                  CallUploadPart key uploadId partNumber arrayBuffer])
                            end
                      end
                end
          | _, _, _ => (error "Missing uploadId, partNumber, or key" 400, [])
          end
    end.

Definition PUT (env : Env) (req : Request) : Response * list BucketCall :=
  handleUploadPart env req.

(** [!partNumber] for a JSON number *)
Definition truthyNumber (n : option Z) : bool :=
  match n with
  | Some v => negb (v =? 0)
  | None => false
  end.

(** Creates and completes a multipart session; also get-upload-url and
    upload-part by [POST]. *)
Definition POST (env : Env) (req : Request) : Response * list BucketCall :=
  if String.eqb (method req) "OPTIONS" then (cors, [])
  else if negb (authenticated req) then
    (error "Authentication required" 401, [])
  else
    match CLOUD_FILES env with
    | None => (error "Cloud storage not configured" 500, [])
    | Some bucket =>
        if negb (JS.truthy (action req)) then
          (error "Missing action parameter" 400, [])
        else if bool_decide (action req = Some "create") then
          match parseRequestData req with
          | Throws _ => (error "Multipart upload failed" 500, [])
          | Returns parsedData =>
              match j_key parsedData with
              | Some (String _ _ as key) =>
                  let contentType :=
                    if JS.truthy (j_contentType parsedData)
                    then j_contentType parsedData else None in
                  match createMultipartUpload bucket key contentType with
                  | Returns (k, uploadId) =>
                      (success (Created k uploadId), [CallCreate key contentType])
                  | Throws _ =>
                      (error "Failed to create multipart upload" 500,
                       [CallCreate key contentType])
                  end
              | _ => (error "Missing key parameter" 400, [])
              end
          end
        else if bool_decide (action req = Some "get-upload-url") then
          match parseRequestData req with
          | Throws _ => (error "Multipart upload failed" 500, [])
          | Returns parsedData =>
              match j_uploadId parsedData, j_key parsedData with
              | Some (String _ _ as uploadId), Some (String _ _ as key) =>
                  if negb (truthyNumber (j_partNumber parsedData)) then
                    (error "Missing uploadId, key, or partNumber" 400, [])
                  else
                    (success (UploadUrl uploadId key (default 0 (j_partNumber parsedData))),
                     [CallResume key uploadId])
              | _, _ => (error "Missing uploadId, key, or partNumber" 400, [])
              end
          end
        else if bool_decide (action req = Some "upload-part") then
          handleUploadPart env req
        else if bool_decide (action req = Some "complete") then
          match parseRequestData req with
          | Throws _ => (error "Multipart upload failed" 500, [])
          | Returns parsedData =>
              match j_uploadId parsedData, j_key parsedData, j_parts parsedData with
              | Some (String _ _ as uploadId), Some (String _ _ as key), Some parts =>
                  match complete bucket key uploadId parts with
                  | Returns object =>
                      (success (Completed (obj_key object) (httpEtag object) (size object)),
                       [CallResume key uploadId; CallComplete key uploadId parts])
                  | Throws message =>
                      (error (messageOr message "Failed to complete multipart upload") 400,
                       [CallResume key uploadId; CallComplete key uploadId parts])
                  end
              | _, _, _ => (error "Missing required parameters" 400, [])
              end
          end
        else (error (unknownAction (action req)) 400, [])
    end.

(** Aborts a multipart upload. *)
Definition DELETE (env : Env) (req : Request) : Response * list BucketCall :=
  if String.eqb (method req) "OPTIONS" then (cors, [])
  else
    match CLOUD_FILES env with
    | None => (error "Cloud storage not configured" 500, [])
    | Some bucket =>
        if negb (bool_decide (action req = Some "abort")) then
          (error (unknownAction (action req)) 400, [])
        else
          match JS.get "uploadId" (searchParams req), JS.get "key" (searchParams req) with
          | Some (String _ _ as uploadId), Some (String _ _ as key) =>
              match abort bucket key uploadId with
              | Returns _ =>
                  (success (Aborted "Multipart upload aborted successfully"),
                   [CallResume key uploadId; CallAbort key uploadId])
              | Throws message =>
                  (error (messageOr message "Failed to abort multipart upload") 400,
                   [CallResume key uploadId; CallAbort key uploadId])
              end
          | _, _ => (error "Missing uploadId or key" 400, [])
          end
    end.

Definition OPTIONS (env : Env) (req : Request) : Response * list BucketCall :=
  (cors, []).

End Coordinator.

(* ===================================================================== *)
(** ** Single-shot upload: the [/api/upload] route *)
(* ===================================================================== *)

Module Upload.

Definition bytes : Type := list Byte.byte.

Record File : Type := { name : string; type : string; size : Z; content : bytes }.

(** A [FormData] entry is a string or a [File]. *)
Inductive FormValue : Type :=
| Text (s : string)
| Blob (f : File).

Record Request : Type := {
  method : string;
  authenticated : bool;
  (** [request.formData()]; [None] when it throws *)
  formData : option (list (string * FormValue))
}.

(** What the bucket keeps under a key. *)
Record StoredObject : Type := { body : bytes; contentType : string }.

(** The field of the [R2Object] that [put] resolves to which the route
    reads. *)
Record R2Object : Type := { obj_key : string }.

(** The bucket binding [CLOUD_FILES], a collaborator: what it holds,
    and how its [put] answers.  [put objects key file contentType] is
    [bucket.put(key, file, { httpMetadata: { contentType } })] on a
    bucket holding [objects]: it resolves to an [R2Object] or to [null],
    or it throws, and it leaves the bucket holding the second
    component. *)
Record Bucket : Type := {
  objects : gmap string StoredObject;
  put : gmap string StoredObject -> string -> File -> string
        -> Coordinator.Outcome (option R2Object) * gmap string StoredObject
}.

(** [locals.runtime.env]: the bucket binding may be missing. *)
Record Env : Type := { CLOUD_FILES : option Bucket }.

Inductive BucketCall : Type :=
| CallPut (key : string) (file : File) (contentType : string).

Inductive Payload : Type :=
| Cors
| Error (message : string)
| Stored (filename key : string) (size : Z) (type : string).

Record Response : Type := { status : Z; payload : Payload }.

(** Modelled from the spec: the [API] helper ([utils/api]) is not among
    the sources; as in the multipart route, [API.error] answers with the
    status it is given and [API.success] answers 200. *)
Definition error (message : string) (st : Z) : Response :=
  {| status := st; payload := Error message |}.
Definition success (p : Payload) : Response :=
  {| status := 200; payload := p |}.
Definition cors : Response := {| status := 204; payload := Cors |}.

(** A form field read [as string | null]: [Some None] is [null],
    and [None] is a [File] entry, on which [.trim()] throws. *)
Definition stringField (form : list (string * FormValue)) (field : string)
  : option (option string) :=
  match JS.get field form with
  | None => Some None
  | Some (Text s) => Some (Some s)
  | Some (Blob _) => None
  end.

Definition hasExtension (customKeyTrimmed : string) : bool :=
  let customKeyExt := JS.splitPop JS.dot customKeyTrimmed in
  JS.includes customKeyTrimmed "."
  && (0 <? Z.of_nat (String.length customKeyExt))
  && (Z.of_nat (String.length customKeyExt) <? Z.of_nat (String.length customKeyTrimmed)).

(** Lines 38-75 of the route: the key the object is stored under. *)
Definition filename (file : File) (customKey : option string) (folderPath : string)
  : string :=
  let normalizedFolder :=
    JS.collapseSlashes (JS.stripSlashes (JS.trim folderPath)) in
  let folderPrefix :=
    if JS.nonEmpty normalizedFolder then normalizedFolder +:+ "/" else "" in
  let fileExtension := JS.splitPop JS.dot (name file) in
  if JS.truthy customKey && JS.nonEmpty (JS.trim (default "" customKey)) then
    let customKeyTrimmed := JS.trim (default "" customKey) in
    if JS.includes customKeyTrimmed "/" then customKeyTrimmed
    else if negb (hasExtension customKeyTrimmed) && JS.nonEmpty fileExtension then
      folderPrefix +:+ customKeyTrimmed +:+ "." +:+ fileExtension
    else folderPrefix +:+ customKeyTrimmed
  else folderPrefix +:+ name file.

(** Lines 84-100 of the route: the answer once [bucket.put] has been
    awaited. *)
Definition answer (filename : string) (file : File)
    (object : Coordinator.Outcome (option R2Object)) : Response :=
  match object with
  | Coordinator.Returns (Some object) =>
      success (Stored filename (obj_key object) (size file) (type file))
  | Coordinator.Returns None => error "Failed to upload file" 500
  | Coordinator.Throws _ => error "Upload failed" 500
  end.

(** The handler: the response, what the bucket holds afterwards and the
    calls made on the bucket. *)
Definition POST (env : Env) (req : Request)
  : Response * option (gmap string StoredObject) * list BucketCall :=
  if String.eqb (method req) "OPTIONS" then (cors, objects <$> CLOUD_FILES env, [])
  else if negb (authenticated req) then
    (error "Authentication required" 401, objects <$> CLOUD_FILES env, [])
  else
    match CLOUD_FILES env with
    | None => (error "Cloud storage not configured" 500, None, [])
    | Some bucket =>
        match formData req with
        | None => (error "Upload failed" 500, Some (objects bucket), [])
        | Some form =>
            match JS.get "file" form with
            | Some (Blob file) =>
                match stringField form "key", stringField form "folder" with
                | Some customKey, Some folder =>
                    let folderPath := default "" (JS.orElse folder (Some "")) in
                    let filename := filename file customKey folderPath in
                    let '(object, after) :=
                      put bucket (objects bucket) filename file (type file) in
                    (answer filename file object, Some after,
                     [CallPut filename file (type file)])
                | _, _ => (error "Upload failed" 500, Some (objects bucket), [])
                end
            | _ => (error "Missing or invalid file" 400, Some (objects bucket), [])
            end
        end
    end.

(** The contract of the platform for a [put] without a condition, as
    far as the route relies on it: when the call resolves to an object,
    the bucket holds the file under the key, with the content type it
    was given, and holds under every other key what it held. *)
Definition writesThrough (bucket : Bucket) : Prop :=
  forall objects key file contentType object after,
    put bucket objects key file contentType = (Coordinator.Returns (Some object), after) ->
    after !! key = Some {| body := content file; contentType := contentType |}
    /\ forall k, k <> key -> after !! k = objects !! k.

End Upload.

(* ===================================================================== *)
(** ** Chunk Planner/Uploader: the browser component *)
(* ===================================================================== *)

Module Planner.

(** 5MB - R2 minimum part size *)
Definition CHUNK_SIZE : Z := 5 * 1024 * 1024.
(** 1MB - above it [uploadFileSimple] hands over to multipart *)
Definition FILE_SIZE_THRESHOLD : Z := 1 * 1024 * 1024.

Record File : Type := { name : string; type : string; size : Z }.

(** [Math.ceil(a / b)] on integers [0 <= a], [0 < b].  For a file size
    (below 2^53) and [b = CHUNK_SIZE] the quotient in doubles is off by
    less than [1 / CHUNK_SIZE], so the rounding of the division never
    moves it across an integer and the ceiling is the exact one. *)
Definition ceilDiv (a b : Z) : Z :=
  if a mod b =? 0 then a / b else a / b + 1.

Definition totalParts (file : File) : Z := ceilDiv (size file) CHUNK_SIZE.

(** [Blob.slice] clamps both offsets into the blob. *)
Definition clampOffset (blobSize x : Z) : Z :=
  if x <? 0 then Z.max (blobSize + x) 0 else Z.min x blobSize.

(** [file.slice(start, end).size] *)
Definition sliceSize (file : File) (start_ end_ : Z) : Z :=
  Z.max (clampOffset (size file) end_ - clampOffset (size file) start_) 0.

(** The byte range of the part with index [i]. *)
Definition partStart (i : Z) : Z := CHUNK_SIZE * i.
Definition partEnd (file : File) (i : Z) : Z :=
  Z.min (size file) (partStart i + CHUNK_SIZE).

(** The fields read from JSON answers. *)
Record Json : Type := {
  uploadId : option string;
  etag : option string;
  exists_ : bool
}.

(** A [Response]; [json = None] when [response.json()] throws. *)
Record Response : Type := { status : Z; json : option Json }.

Definition ok (r : Response) : bool := JS.statusOk (status r).

(** An awaited [fetch]: rejected (network fault, timeout) or resolved. *)
Inductive Fetch : Type :=
| Rejects (message : string)
| Resolves (response : Response).

(** What is outside the component during one user action.  A call of
    [uploadFileSimple] or [uploadFileMultipart] is numbered by its
    [round] in the chain of hand-overs; it asks check-asset, the
    confirm dialog and [/api/upload] at most once each. *)
Record World : Type := {
  checkAsset : nat -> Fetch;
  confirm : nat -> bool;
  upload : nat -> Fetch;
  create : Fetch;
  (** part number, then the attempt (from 0) *)
  uploadPart : Z -> nat -> Fetch;
  completeUpload : Fetch;
  (** [uploadPartUrl.toString().length] for a part number *)
  urlLength : Z -> Z
}.

(** The component state an upload reads: the selected file, the key
    derived for the existence check ([finalKey], also the key field of
    the single-shot form), the key derived for the multipart session
    ([key]) and whether [replacingKey] is set. *)
Record Job : Type := {
  file : option File;
  finalKey : string;
  key : string;
  replacingKey : bool
}.

(** One entry of [partsData]. *)
Definition Part : Type := (Z * option string)%type.

Inductive Event : Type :=
| EvAlert (message : string)
| EvCheckAsset (key : string)
| EvConfirm
| EvUpload (key : string)
| EvCreate (key contentType : string)
| EvUploadPart (uploadId key : string) (partNumber start_ end_ : Z)
| EvSleep (ms : Z)
| EvProgress (done total : Z)
| EvComplete (uploadId : option string) (key : string) (parts : list Part).

Inductive Outcome : Type :=
| NoFile
| Cancelled
| Uploaded
| UploadFailed
| OutOfFuel.

(** The errors thrown inside [uploadFileMultipart]'s [try]. *)
Inductive UploadError : Type :=
| PartTooSmall (partNumber : Z)
| UrlTooLong (partNumber : Z)
| AfterRetries (partNumber : Z)
| PartFailed (partNumber : Z)
| BadJson.

Definition failedAlert : Event := EvAlert "Upload failed. Please try again.".
Definition successAlert : Event := EvAlert "File uploaded successfully!".

(** The existence check both upload functions start with: the events
    and whether the upload goes on. *)
Definition checkExisting (w : World) (job : Job) (round : nat)
  : list Event * bool :=
  if JS.nonEmpty (finalKey job) && negb (replacingKey job) then
    match checkAsset w round with
    | Rejects _ => ([EvCheckAsset (finalKey job)], true)
    | Resolves checkResponse =>
        if ok checkResponse then
          match json checkResponse with
          | None => ([EvCheckAsset (finalKey job)], true)
          | Some checkData =>
              if exists_ checkData then
                ([EvCheckAsset (finalKey job); EvConfirm], confirm w round)
              else ([EvCheckAsset (finalKey job)], true)
          end
        else ([EvCheckAsset (finalKey job)], true)
    end
  else ([], true).

(** How the [while (retries > 0)] loop is left. *)
Inductive LoopExit : Type :=
| Exited (uploadPartResponse : option Response)
| Raised (e : UploadError).

(** The retry loop of one part.  [send] is the event of one [fetch];
    [attempt] counts the fetches already made. *)
Fixpoint retryLoop (w : World) (send : Event) (partNumber : Z)
    (retries attempt : nat) (uploadPartResponse : option Response)
  : list Event * LoopExit :=
  match retries with
  | O => ([], Exited uploadPartResponse)
  | S r =>
      (* the [catch] block: [retries--], rethrow at 0, else wait and loop *)
      let catch (uploadPartResponse : option Response) :=
        if Z.of_nat r =? 0 then ([send], Raised (AfterRetries partNumber))
        else
          let '(t, x) := retryLoop w send partNumber r (S attempt) uploadPartResponse in
          (send :: EvSleep (1000 * (4 - Z.of_nat r)) :: t, x) in
      match uploadPart w partNumber attempt with
      | Rejects _ => catch uploadPartResponse
      | Resolves response =>
          if ok response then ([send], Exited (Some response))
          else if status response =? 413 then catch (Some response)
          else if negb (status response =? 408) && negb (status response =? 429)
                  && (status response <? 500) then catch (Some response)
          else
            (* retryable: [retries--], wait while [retries > 0] *)
            let '(t, x) := retryLoop w send partNumber r (S attempt) (Some response) in
            (send :: (if Z.of_nat r >? 0 then [EvSleep (1000 * (4 - Z.of_nat r))] else [])
               ++ t, x)
      end
  end.

(** [!isLastPart && blob.size < CHUNK_SIZE] *)
Definition partTooSmall (isLastPart : bool) (blobSize : Z) : bool :=
  negb isLastPart && (blobSize <? CHUNK_SIZE).

(** What one turn of the [for] loop yields. *)
Inductive PartResult : Type :=
| Pushed (eTag : option string)
| Threw (e : UploadError).

(** One turn of the [for] loop once [blob] is cut: size check, URL
    check, retry loop, reading of the etag. *)
Definition sendPart (w : World) (send : Event) (partNumber : Z)
    (isLastPart : bool) (blobSize : Z) : list Event * PartResult :=
  if partTooSmall isLastPart blobSize then ([], Threw (PartTooSmall partNumber))
  else if urlLength w partNumber >? 15000 then ([], Threw (UrlTooLong partNumber))
  else
    let '(t, x) := retryLoop w send partNumber 3 0 None in
    match x with
    | Raised e => (t, Threw e)
    | Exited None => (t, Threw (PartFailed partNumber))
    | Exited (Some uploadPartResponse) =>
        if negb (ok uploadPartResponse) then (t, Threw (PartFailed partNumber))
        else
          match json uploadPartResponse with
          | None => (t, Threw BadJson)
          | Some uploadPartJson => (t, Pushed (etag uploadPartJson))
          end
    end.

(** The [fetch] of part [i + 1]; an undefined [uploadId] is written
    into the URL as the text [undefined]. *)
Definition sendEvent (job : Job) (f : File) (uploadId : option string) (i : Z) : Event :=
  EvUploadPart (default "undefined" uploadId) (key job) (i + 1)
               (partStart i) (partEnd f i).

(** [blob.size] of the part with index [i] *)
Definition partSize (f : File) (i : Z) : Z :=
  sliceSize f (partStart i) (partEnd f i).

Definition uploadPartAt (w : World) (job : Job) (f : File)
    (uploadId : option string) (i : Z) : list Event * PartResult :=
  sendPart w (sendEvent job f uploadId i) (i + 1)
           (i =? totalParts f - 1)
           (partSize f i).

(** The [for (let i = 0; i < totalParts; i++)] loop from index [i] on,
    with [n] turns left. *)
Fixpoint uploadParts (w : World) (job : Job) (f : File)
    (uploadId : option string) (n : nat) (i : Z) (partsData : list Part)
  : list Event * (UploadError + list Part) :=
  match n with
  | O => ([], inr partsData)
  | S n' =>
      let '(t, r) := uploadPartAt w job f uploadId i in
      match r with
      | Threw e => (t, inl e)
      | Pushed eTag =>
          let '(t', r') :=
            uploadParts w job f uploadId n' (i + 1) (partsData ++ [(i + 1, eTag)]) in
          (t ++ EvProgress (i + 1) (totalParts f) :: t', r')
      end
  end.

(** Steps 1 to 3 of [uploadFileMultipart]: create, parts, complete. *)
Definition multipartSession (w : World) (job : Job) (f : File)
  : list Event * Outcome :=
  let createEv := EvCreate (key job) (type f) in
  match create w with
  | Rejects _ => ([createEv; failedAlert], UploadFailed)
  | Resolves createResponse =>
      match json createResponse with
      | None => ([createEv; failedAlert], UploadFailed)
      | Some createJson =>
          let uploadId := uploadId createJson in
          let '(t, r) :=
            uploadParts w job f uploadId (Z.to_nat (totalParts f)) 0 [] in
          match r with
          | inl _ => (createEv :: t ++ [failedAlert], UploadFailed)
          | inr partsData =>
              let completeEv := EvComplete uploadId (key job) partsData in
              match completeUpload w with
              | Rejects _ =>
                  (createEv :: t ++ [completeEv; failedAlert], UploadFailed)
              | Resolves completeResponse =>
                  if negb (ok completeResponse) then
                    (createEv :: t ++ [completeEv; failedAlert], UploadFailed)
                  else
                    match json completeResponse with
                    | None =>
                        (createEv :: t ++ [completeEv; failedAlert], UploadFailed)
                    | Some _ =>
                        (createEv :: t ++ [completeEv; successAlert], Uploaded)
                    end
              end
          end
      end
  end.

(** The two upload functions call each other; [fuel] bounds the chain
    of hand-overs and [round] numbers the calls.  A run that ends within
    the bound does not depend on it; [OutOfFuel] for every bound is a
    chain of hand-overs without end. *)
Fixpoint uploadFileSimple (w : World) (job : Job) (fuel round : nat) {struct fuel}
  : list Event * Outcome :=
  match fuel with
  | O => ([], OutOfFuel)
  | S fuel' =>
      match file job with
      | None => ([EvAlert "Please select a file first"], NoFile)
      | Some f =>
          if size f >? FILE_SIZE_THRESHOLD then
            uploadFileMultipart w job fuel' (S round)
          else
            let '(t, proceed) := checkExisting w job round in
            if negb proceed then (t, Cancelled)
            else
              match upload w round with
              | Rejects _ => (t ++ [EvUpload (finalKey job); failedAlert], UploadFailed)
              | Resolves response =>
                  if status response =? 413 then
                    let '(t', o) := uploadFileMultipart w job fuel' (S round) in
                    (t ++ EvUpload (finalKey job) :: t', o)
                  else if negb (ok response) then
                    (t ++ [EvUpload (finalKey job); failedAlert], UploadFailed)
                  else (t ++ [EvUpload (finalKey job); successAlert], Uploaded)
              end
      end
  end
with uploadFileMultipart (w : World) (job : Job) (fuel round : nat) {struct fuel}
  : list Event * Outcome :=
  match fuel with
  | O => ([], OutOfFuel)
  | S fuel' =>
      match file job with
      | None => ([EvAlert "Please select a file first"], NoFile)
      | Some f =>
          let '(t, proceed) := checkExisting w job round in
          if negb proceed then (t, Cancelled)
          else if size f <? CHUNK_SIZE then
            let '(t', o) := uploadFileSimple w job fuel' (S round) in
            (t ++ t', o)
          else
            let '(t', o) := multipartSession w job f in
            (t ++ t', o)
      end
  end.

(** *** Observations on a run *)

(** The byte ranges and the blob sizes of all parts, in loop order. *)
Definition chunkPlan (f : File) : list (Z * Z) :=
  (fun i => (partStart i, partEnd f i)) <$> seqZ 0 (totalParts f).

Definition partSizes (f : File) : list Z :=
  partSize f <$> seqZ 0 (totalParts f).

Definition sumZ (l : list Z) : Z := foldr Z.add 0 l.

(** The parts lists submitted to [?action=complete]. *)
Definition completions (t : list Event) : list (list Part) :=
  omap (fun e => match e with EvComplete _ _ parts => Some parts | _ => None end) t.

(** The part numbers of the [fetch]es of [?action=upload-part]. *)
Definition partFetches (t : list Event) : list Z :=
  omap (fun e => match e with EvUploadPart _ _ n _ _ => Some n | _ => None end) t.

(** The session ids those [fetch]es carry. *)
Definition partFetchIds (t : list Event) : list string :=
  omap (fun e => match e with EvUploadPart u _ _ _ _ => Some u | _ => None end) t.

(** The [setTimeout] waits, in milliseconds. *)
Definition sleeps (t : list Event) : list Z :=
  omap (fun e => match e with EvSleep ms => Some ms | _ => None end) t.

(** The session-opening and single-shot requests. *)
Definition isCreate (e : Event) : bool :=
  match e with EvCreate _ _ => true | _ => false end.
Definition isUpload (e : Event) : bool :=
  match e with EvUpload _ => true | _ => false end.
Definition isCheckAsset (e : Event) : bool :=
  match e with EvCheckAsset _ => true | _ => false end.

(** The part number and the byte range ([start], [end] of the slice) of
    each [fetch] of [?action=upload-part]. *)
Definition cuts (t : list Event) : list (Z * Z * Z) :=
  omap (fun e => match e with
                 | EvUploadPart _ _ n start_ end_ => Some (n, start_, end_)
                 | _ => None
                 end) t.

(** Part [i] of the chunk plan in the words of the specification: its
    number, and the byte range from [i * CHUNK_SIZE] to
    [min size ((i + 1) * CHUNK_SIZE)]. *)
Definition planned (f : File) (i : Z) : Z * Z * Z :=
  (i + 1, i * CHUNK_SIZE, Z.min (size f) ((i + 1) * CHUNK_SIZE)).

(** The parts of the plan from index [i] on, the first fetched
    [c1] times, the next [c2] times, and so on. *)
Fixpoint fetched (f : File) (i : Z) (cs : list nat) : list (Z * Z * Z) :=
  match cs with
  | [] => []
  | c :: rest => replicate c (planned f i) ++ fetched f (i + 1) rest
  end.

(** The [fetch]es of upload-part and the waits, the events of a run
    that the retry policy is about. *)
Definition isWire (e : Event) : bool :=
  match e with
  | EvUploadPart _ _ _ _ _ | EvSleep _ => true
  | _ => false
  end.

Definition wire (t : list Event) : list Event :=
  omap (fun e => if isWire e then Some e else None) t.

(** [c] attempts at the [fetch] [send], with a wait of 2 s before the
    second and of 3 s before the third. *)
Definition backoff (send : Event) (c : nat) : list Event :=
  match c with
  | O => []
  | S O => [send]
  | S (S O) => [send; EvSleep 2000; send]
  | S (S (S _)) => [send; EvSleep 2000; send; EvSleep 3000; send]
  end.

(** The fetches and waits of a part loop that makes [c1] attempts at
    the part with index [i], [c2] at the next, and so on. *)
Fixpoint attempts (job : Job) (f : File) (uploadId : option string)
    (i : Z) (cs : list nat) : list Event :=
  match cs with
  | [] => []
  | c :: rest =>
      backoff (sendEvent job f uploadId i) c ++ attempts job f uploadId (i + 1) rest
  end.

(** An event of the retry loop is the fetch [send] or a wait. *)
Definition loopEvent (send e : Event) : Prop :=
  e = send \/ exists ms, e = EvSleep ms.

(** A run that has not ended and has only asked check-asset. *)
Definition idle (run : list Event * Outcome) : Prop :=
  snd run = OutOfFuel /\ Forall (fun e => isCheckAsset e = true) (fst run).

(** An attempt that does not end in an ok response. *)
Definition failedAttempt (x : Fetch) : bool :=
  match x with
  | Rejects _ => true
  | Resolves r => negb (ok r)
  end.

(** An attempt the retry policy is written for: a rejected [fetch], or
    an answer 408, 429 or 5xx. *)
Definition retryableFailure (x : Fetch) : bool :=
  match x with
  | Rejects _ => true
  | Resolves r =>
      (status r =? 408) || (status r =? 429) || (500 <=? status r)
  end.

(** Part [n] gets stored with tag [e]: one of the three attempts is
    answered ok with [e], the attempts before it having failed. *)
Definition storedWith (w : World) (n : Z) (e : option string) : Prop :=
  exists (a : nat) (r : Response) (j : Json),
    (a < 3)%nat
    /\ (forall b, (b < a)%nat -> failedAttempt (uploadPart w n b) = true)
    /\ uploadPart w n a = Resolves r
    /\ ok r = true
    /\ json r = Some j
    /\ etag j = e.

(** Part [n] is given [c] attempts the way the retry loop gives them:
    one to three, every attempt before the last having failed, and
    fewer than three only because the last was answered ok. *)
Definition attempted (w : World) (n : Z) (c : nat) : Prop :=
  (1 <= c <= 3)%nat
  /\ (forall b, (S b < c)%nat -> failedAttempt (uploadPart w n b) = true)
  /\ ((c < 3)%nat ->
      exists r, uploadPart w n (pred c) = Resolves r /\ ok r = true).

(** All three attempts of part [n] fail. *)
Definition exhausted (w : World) (n : Z) : Prop :=
  forall a, (a < 3)%nat -> failedAttempt (uploadPart w n a) = true.

End Planner.

(* ===================================================================== *)
(** ** Concrete requests, files and worlds *)
(* ===================================================================== *)

Module Scenarios.

Definition MiB (n : Z) : Z := n * 1024 * 1024.

(** *** Coordinator *)

(** A bucket whose primitives all succeed. *)
Definition okBucket : Coordinator.Bucket :=
  {| Coordinator.createMultipartUpload := fun key _ => Coordinator.Returns (key, "session-1");
     Coordinator.uploadPart := fun _ _ n _ =>
       match n with
       | JS.Finite partNumber =>
           Coordinator.Returns {| Coordinator.partNumber := partNumber;
                                  Coordinator.etag := "etag" |}
       | _ => Coordinator.Throws "Part number must be an integer"
       end;
     Coordinator.complete := fun key _ _ =>
       Coordinator.Returns {| Coordinator.obj_key := key;
                              Coordinator.httpEtag := "etag";
                              Coordinator.size := 0 |};
     Coordinator.abort := fun _ _ => Coordinator.Returns tt |}.

Definition boundEnv : Coordinator.Env :=
  {| Coordinator.CLOUD_FILES := Some okBucket |}.

Definition chunk : Coordinator.bytes := [Byte.x78; Byte.x79].

(** [DELETE ?action=abort&uploadId=session-1&key=video.mp4] without a
    login. *)
Definition anonymousAbort : Coordinator.Request :=
  {| Coordinator.method := "DELETE";
     Coordinator.authenticated := false;
     Coordinator.searchParams :=
       [("action", "abort"); ("uploadId", "session-1"); ("key", "video.mp4")];
     Coordinator.contentType := None;
     Coordinator.jsonBody := None;
     Coordinator.formData := None;
     Coordinator.body := None |}.

(** The same call by [POST ?action=create] and [PUT ?action=upload-part]. *)
Definition anonymousCreate : Coordinator.Request :=
  {| Coordinator.method := "POST";
     Coordinator.authenticated := false;
     Coordinator.searchParams := [("action", "create")];
     Coordinator.contentType := Some "application/json";
     Coordinator.jsonBody :=
       Some {| Coordinator.j_key := Some "video.mp4";
               Coordinator.j_contentType := Some "video/mp4";
               Coordinator.j_uploadId := None;
               Coordinator.j_partNumber := None;
               Coordinator.j_parts := None |};
     Coordinator.formData := None;
     Coordinator.body := None |}.

(** [PUT ?action=upload-part&uploadId=session-1&key=video.mp4&partNumber=...]
    by a logged-in caller. *)
Definition putPart (partNumber : string) : Coordinator.Request :=
  {| Coordinator.method := "PUT";
     Coordinator.authenticated := true;
     Coordinator.searchParams :=
       [("action", "upload-part"); ("uploadId", "session-1");
        ("key", "video.mp4"); ("partNumber", partNumber)];
     Coordinator.contentType := None;
     Coordinator.jsonBody := None;
     Coordinator.formData := None;
     Coordinator.body := Some chunk |}.

(** An upload-part request that names session, key and part number both
    in the URL and in a form body, with different values. *)
Definition bothEncodings : Coordinator.Request :=
  {| Coordinator.method := "POST";
     Coordinator.authenticated := true;
     Coordinator.searchParams :=
       [("action", "upload-part"); ("uploadId", "url-session");
        ("key", "url-key"); ("partNumber", "1")];
     Coordinator.contentType := Some "multipart/form-data; boundary=b";
     Coordinator.jsonBody := None;
     Coordinator.formData :=
       Some [("uploadId", "body-session"); ("key", "body-key"); ("partNumber", "2")];
     Coordinator.body := Some chunk |}.

(** The same with the key left out of the URL, so that the body is read. *)
Definition keyInBodyOnly : Coordinator.Request :=
  {| Coordinator.method := "POST";
     Coordinator.authenticated := true;
     Coordinator.searchParams :=
       [("action", "upload-part"); ("uploadId", "url-session"); ("partNumber", "1")];
     Coordinator.contentType := Some "multipart/form-data; boundary=b";
     Coordinator.jsonBody := None;
     Coordinator.formData :=
       Some [("uploadId", "body-session"); ("key", "body-key"); ("partNumber", "2")];
     Coordinator.body := Some chunk |}.

(** *** Single-shot upload *)

Definition report (text : Upload.bytes) : Upload.File :=
  {| Upload.name := "report.pdf"; Upload.type := "application/pdf";
     Upload.size := Z.of_nat (length text); Upload.content := text |}.

Definition oldText : Upload.bytes := [Byte.x6f; Byte.x6c; Byte.x64].
Definition newText : Upload.bytes := [Byte.x6e; Byte.x65; Byte.x77; Byte.x21].

(** A bucket that stores what it is given and hands the stored object
    back. *)
Definition storing (objects : gmap string Upload.StoredObject) : Upload.Bucket :=
  {| Upload.objects := objects;
     Upload.put := fun objects key file contentType =>
       (Coordinator.Returns (Some {| Upload.obj_key := key |}),
        <[key := {| Upload.body := Upload.content file;
                    Upload.contentType := contentType |}]> objects) |}.

(** A bucket whose [put] throws and writes nothing. *)
Definition failing (objects : gmap string Upload.StoredObject) : Upload.Bucket :=
  {| Upload.objects := objects;
     Upload.put := fun objects _ _ _ => (Coordinator.Throws "Internal error", objects) |}.

(** A bucket that already holds [docs/report.pdf]. *)
Definition shelf : Upload.Bucket :=
  storing {[ "docs/report.pdf" :=
               {| Upload.body := oldText; Upload.contentType := "application/pdf" |} ]}.

(** [POST /api/upload] of a new [report.pdf] into the folder [/docs/]. *)
Definition postReport : Upload.Request :=
  {| Upload.method := "POST";
     Upload.authenticated := true;
     Upload.formData :=
       Some [("file", Upload.Blob (report newText)); ("folder", Upload.Text "/docs/")] |}.

(** *** Planner *)

(** The key is taken and the user declines to replace it. *)
Definition takenAnswer : Planner.Fetch :=
  Planner.Resolves
    {| Planner.status := 200;
       Planner.json := Some {| Planner.uploadId := None;
                               Planner.etag := None;
                               Planner.exists_ := true |} |}.

Definition video (size : Z) : Planner.File :=
  {| Planner.name := "video.mp4"; Planner.type := "video/mp4"; Planner.size := size |}.

Definition jobOf (size : Z) : Planner.Job :=
  {| Planner.file := Some (video size);
     Planner.finalKey := "video.mp4";
     Planner.key := "video.mp4";
     Planner.replacingKey := false |}.

Definition answer (status : Z) (etag : option string) : Planner.Fetch :=
  Planner.Resolves
    {| Planner.status := status;
       Planner.json := Some {| Planner.uploadId := Some "session-1";
                               Planner.etag := etag;
                               Planner.exists_ := false |} |}.

(** An error answer of the server: JSON without session id or etag. *)
Definition errorAnswer (status : Z) : Planner.Fetch :=
  Planner.Resolves
    {| Planner.status := status;
       Planner.json := Some {| Planner.uploadId := None;
                               Planner.etag := None;
                               Planner.exists_ := false |} |}.

Definition etagOf (partNumber : Z) : option string :=
  if partNumber =? 1 then Some "etag-1"
  else if partNumber =? 2 then Some "etag-2"
  else Some "etag-3".

(** Nothing is stored under the key yet and every request succeeds at
    once. *)
Definition calmWorld : Planner.World :=
  {| Planner.checkAsset := fun _ => answer 200 None;
     Planner.confirm := fun _ => true;
     Planner.upload := fun _ => answer 200 None;
     Planner.create := answer 200 None;
     Planner.uploadPart := fun n _ => answer 200 (etagOf n);
     Planner.completeUpload := answer 200 None;
     Planner.urlLength := fun _ => 120 |}.

(** Every upload-part request is answered by [status]. *)
Definition partsAnswer (status : Z) : Planner.World :=
  {| Planner.checkAsset := fun _ => answer 200 None;
     Planner.confirm := fun _ => true;
     Planner.upload := fun _ => answer 200 None;
     Planner.create := answer 200 None;
     Planner.uploadPart := fun _ _ => errorAnswer status;
     Planner.completeUpload := answer 200 None;
     Planner.urlLength := fun _ => 120 |}.

(** The create request is answered by 500 and an error body. *)
Definition createFails : Planner.World :=
  {| Planner.checkAsset := fun _ => answer 200 None;
     Planner.confirm := fun _ => true;
     Planner.upload := fun _ => answer 200 None;
     Planner.create := errorAnswer 500;
     Planner.uploadPart := fun _ _ => errorAnswer 400;
     Planner.completeUpload := answer 200 None;
     Planner.urlLength := fun _ => 120 |}.

(** Part 2 is answered by 503 twice, then stored; the other parts are
    stored at once. *)
Definition flakyWorld : Planner.World :=
  {| Planner.checkAsset := fun _ => answer 200 None;
     Planner.confirm := fun _ => true;
     Planner.upload := fun _ => answer 200 None;
     Planner.create := answer 200 None;
     Planner.uploadPart := fun n attempt =>
       if (n =? 2) && (attempt <? 2)%nat then errorAnswer 503
       else answer 200 (etagOf n);
     Planner.completeUpload := answer 200 None;
     Planner.urlLength := fun _ => 120 |}.

(** Part 2 is answered by 503 every time. *)
Definition outageWorld : Planner.World :=
  {| Planner.checkAsset := fun _ => answer 200 None;
     Planner.confirm := fun _ => true;
     Planner.upload := fun _ => answer 200 None;
     Planner.create := answer 200 None;
     Planner.uploadPart := fun n _ =>
       if n =? 2 then errorAnswer 503 else answer 200 (etagOf n);
     Planner.completeUpload := answer 200 None;
     Planner.urlLength := fun _ => 120 |}.

(** check-asset reports the key as taken and the user answers the
    dialog by [answer]. *)
Definition takenWorld (reply : bool) : Planner.World :=
  {| Planner.checkAsset := fun _ => takenAnswer;
     Planner.confirm := fun _ => reply;
     Planner.upload := fun _ => answer 200 None;
     Planner.create := answer 200 None;
     Planner.uploadPart := fun n _ => answer 200 (etagOf n);
     Planner.completeUpload := answer 200 None;
     Planner.urlLength := fun _ => 120 |}.

Definition send (i : Z) (size : Z) : Planner.Event :=
  Planner.sendEvent (jobOf size) (video size) (Some "session-1") i.

End Scenarios.

(* ===================================================================== *)
(** ** Renaming: the [/api/rename-asset] route *)
(* ===================================================================== *)

Module Rename.

Definition bytes : Type := list Byte.byte.

(** [R2HTTPMetadata]; every field may be undefined. *)
Record HttpMetadata : Type := {
  contentType : option string;
  contentLanguage : option string;
  contentDisposition : option string;
  contentEncoding : option string;
  cacheControl : option string;
  cacheExpiry : option Z
}.

(** An object of the bucket: the bytes, [httpMetadata] and
    [customMetadata], both possibly undefined. *)
Record Object : Type := {
  data : bytes;
  httpMetadata : option HttpMetadata;
  customMetadata : option (list (string * string))
}.

(** The fields [oldKey] and [newKey] of the JSON body, strings when
    present. *)
Record JsonBody : Type := { oldKey : option string; newKey : option string }.

Record Request : Type := {
  method : string;
  authenticated : bool;
  (** [request.json()]; [None] when it throws or yields no object *)
  json : option JsonBody
}.

(** What the route hands to [bucket.put]: the value and the options
    [{ httpMetadata: { contentType }, customMetadata }]. *)
Record PutArgs : Type := {
  value : bytes;
  putContentType : string;
  putCustomMetadata : list (string * string)
}.

(** The bucket binding [CLOUD_FILES], a collaborator: what it holds,
    and how its primitives answer on a bucket holding [objects].  Each
    may throw; [put] and [delete] leave the bucket holding the second
    component.  [arrayBuffer] is the method of the object that [get]
    resolved to. *)
Record Bucket : Type := {
  objects : gmap string Object;
  get : gmap string Object -> string -> Coordinator.Outcome (option Object);
  arrayBuffer : Object -> Coordinator.Outcome bytes;
  put : gmap string Object -> string -> PutArgs
        -> Coordinator.Outcome unit * gmap string Object;
  delete : gmap string Object -> string
           -> Coordinator.Outcome unit * gmap string Object
}.

(** [locals.runtime.env]: the bucket binding may be missing. *)
Record Env : Type := { CLOUD_FILES : option Bucket }.

Inductive BucketCall : Type :=
| CallGet (key : string)
| CallPut (key : string) (args : PutArgs)
| CallDelete (key : string).

Inductive Payload : Type :=
| Cors
| Error (message : string)
| Renamed (oldKey newKey : string).

Record Response : Type := { status : Z; payload : Payload }.

(** Modelled from the spec: the [API] helper ([utils/api]) is not among
    the sources; [API.error] answers with the status it is given and
    [API.success] answers 200. *)
Definition error (message : string) (st : Z) : Response :=
  {| status := st; payload := Error message |}.
Definition success (p : Payload) : Response :=
  {| status := 200; payload := p |}.
Definition cors : Response := {| status := 204; payload := Cors |}.

(** What is put under the new key: the bytes read from the old object,
    its content type ([?.] and [??] give the empty string when there is
    none) and its custom metadata ([||] the empty object). *)
Definition copyOf (oldObject : Object) (data : bytes) : PutArgs :=
  {| value := data;
     putContentType := default "" (httpMetadata oldObject ≫= contentType);
     putCustomMetadata := default [] (customMetadata oldObject) |}.

(** The handler: the response, what the bucket holds afterwards and the
    calls made on the bucket.  Every throw inside the [try] is answered
    500 by its [catch]. *)
Definition POST (env : Env) (req : Request)
  : Response * option (gmap string Object) * list BucketCall :=
  if String.eqb (method req) "OPTIONS" then (cors, objects <$> CLOUD_FILES env, [])
  else if negb (authenticated req) then
    (error "Authentication required" 401, objects <$> CLOUD_FILES env, [])
  else
    match CLOUD_FILES env with
    | None => (error "Cloud storage not configured" 500, None, [])
    | Some bucket =>
        let held := objects bucket in
        let failed := error "Failed to rename file" 500 in
        match json req with
        | None => (failed, Some held, [])
        | Some body =>
            match oldKey body, newKey body with
            | Some (String _ _ as oldKey), Some (String _ _ as newKey) =>
                if String.eqb oldKey newKey then
                  (error "Old key and new key cannot be the same" 400, Some held, [])
                else
                  match get bucket held oldKey with
                  | Coordinator.Throws _ => (failed, Some held, [CallGet oldKey])
                  | Coordinator.Returns None =>
                      (error "File not found" 404, Some held, [CallGet oldKey])
                  | Coordinator.Returns (Some oldObject) =>
                      match get bucket held newKey with
                      | Coordinator.Throws _ =>
                          (failed, Some held, [CallGet oldKey; CallGet newKey])
                      | Coordinator.Returns (Some _) =>
                          (error "A file with the new name already exists" 409,
                           Some held, [CallGet oldKey; CallGet newKey])
                      | Coordinator.Returns None =>
                          match arrayBuffer bucket oldObject with
                          | Coordinator.Throws _ =>
                              (failed, Some held, [CallGet oldKey; CallGet newKey])
                          | Coordinator.Returns data =>
                              let args := copyOf oldObject data in
                              let '(written, held1) := put bucket held newKey args in
                              match written with
                              | Coordinator.Throws _ =>
                                  (failed, Some held1,
                                   [CallGet oldKey; CallGet newKey; CallPut newKey args])
                              | Coordinator.Returns _ =>
                                  let '(deleted, held2) := delete bucket held1 oldKey in
                                  match deleted with
                                  | Coordinator.Throws _ =>
                                      (failed, Some held2,
                                       [CallGet oldKey; CallGet newKey;
                                        CallPut newKey args; CallDelete oldKey])
                                  | Coordinator.Returns _ =>
                                      (success (Renamed oldKey newKey), Some held2,
                                       [CallGet oldKey; CallGet newKey;
                                        CallPut newKey args; CallDelete oldKey])
                                  end
                              end
                          end
                      end
                  end
            | _, _ => (error "Missing oldKey or newKey parameter" 400, Some held, [])
            end
        end
    end.

(** The object a [put] with these arguments leaves under its key: the
    value, the content type as the only HTTP metadata, the custom
    metadata. *)
Definition written (args : PutArgs) : Object :=
  {| data := value args;
     httpMetadata :=
       Some {| contentType := Some (putContentType args);
               contentLanguage := None;
               contentDisposition := None;
               contentEncoding := None;
               cacheControl := None;
               cacheExpiry := None |};
     customMetadata := Some (putCustomMetadata args) |}.

(** The contract of the platform, as far as the properties of the route
    need it.  A primitive touches its own key only; [get] and
    [arrayBuffer], when they return, return what is held; a [put] or
    [delete] that returns has taken effect, one that throws has taken
    effect or has changed nothing. *)
Record keyValue (bucket : Bucket) : Prop := {
  get_reads : forall held key found,
    get bucket held key = Coordinator.Returns found -> found = held !! key;
  arrayBuffer_reads : forall object content,
    arrayBuffer bucket object = Coordinator.Returns content -> content = data object;
  put_frame : forall held key args outcome after,
    put bucket held key args = (outcome, after) ->
    forall k, k <> key -> after !! k = held !! k;
  put_writes : forall held key args outcome after,
    put bucket held key args = (outcome, after) ->
    after !! key = Some (written args)
    \/ ((exists message, outcome = Coordinator.Throws message)
        /\ after !! key = held !! key);
  delete_frame : forall held key outcome after,
    delete bucket held key = (outcome, after) ->
    forall k, k <> key -> after !! k = held !! k;
  delete_removes : forall held key outcome after,
    delete bucket held key = (outcome, after) ->
    after !! key = None
    \/ ((exists message, outcome = Coordinator.Throws message)
        /\ after !! key = held !! key)
}.

(** No primitive of the bucket throws, whatever it holds. *)
Definition reliable (bucket : Bucket) : Prop :=
  (forall held key, exists found, get bucket held key = Coordinator.Returns found)
  /\ (forall object, exists content,
        arrayBuffer bucket object = Coordinator.Returns content)
  /\ (forall held key args, fst (put bucket held key args) = Coordinator.Returns tt)
  /\ (forall held key, fst (delete bucket held key) = Coordinator.Returns tt).

(** The same bucket at a later time, holding [held]. *)
Definition holding (bucket : Bucket) (held : gmap string Object) : Bucket :=
  {| objects := held;
     get := get bucket;
     arrayBuffer := arrayBuffer bucket;
     put := put bucket;
     delete := delete bucket |}.

(** [renameFile(oldKey, newKey)] of the browser component: the request
    it sends, if any. *)
Definition renameFile (oldKey newKey : string) : option JsonBody :=
  if negb (JS.nonEmpty (JS.trim newKey)) then None
  else if String.eqb oldKey (JS.trim newKey) then None
  else Some {| Rename.oldKey := Some oldKey; Rename.newKey := Some (JS.trim newKey) |}.

End Rename.

(* ===================================================================== *)
(** ** Listing: the [/api/list-assets] route *)
(* ===================================================================== *)

Module ListAssets.

(** The fields of a listed object that the gallery reads. *)
Record R2Object : Type := { key : string; uploaded : string }.

(** One answer of [bucket.list]. *)
Record Page : Type := {
  objects : list R2Object;
  delimitedPrefixes : list string;
  truncated : bool;
  cursor : option string
}.

Record Options : Type := {
  limit : Z;
  prefix : option string;
  delimiter : option string
}.

(** [bucket.list(options)] with the cursor passed along, an oracle. *)
Definition Bucket : Type :=
  Options -> option string -> Coordinator.Outcome Page.

Record Request : Type := {
  method : string;
  authenticated : bool;
  searchParams : list (string * string)
}.

Record Env : Type := { CLOUD_FILES : option Bucket }.

Inductive Payload : Type :=
| Cors
| Error (message : string)
| Listed (objects : list R2Object) (folders : list string) (currentFolder : string).

Record Response : Type := { status : Z; payload : Payload }.

(** Modelled from the spec: the [API] helper ([utils/api]) is not among
    the sources; [API.error] answers with the status it is given and
    [API.success] answers 200. *)
Definition error (message : string) (st : Z) : Response :=
  {| status := st; payload := Error message |}.
Definition success (p : Payload) : Response :=
  {| status := 200; payload := p |}.
Definition cors : Response := {| status := 204; payload := Cors |}.

(** [folderPath.trim().replace(/^\/+|\/+$/g, "").replace(/\/+/g, "/")] *)
Definition normalizedFolder (folderPath : string) : string :=
  JS.collapseSlashes (JS.stripSlashes (JS.trim folderPath)).

Definition prefixOf (folderPath : string) : string :=
  if JS.nonEmpty (normalizedFolder folderPath)
  then normalizedFolder folderPath +:+ "/" else "".

(** The [while (truncated)] loop: [fuel] bounds the number of further
    pages asked for; [None] when the bucket still reports more. *)
Fixpoint paging (listNext : option string -> Coordinator.Outcome Page)
    (showFolders : bool) (fuel : nat)
    (objects : list R2Object) (folders : list string)
    (truncated : bool) (cursor : option string)
  : option (Coordinator.Outcome (list R2Object * list string)) :=
  if negb truncated then Some (Coordinator.Returns (objects, folders))
  else
    match fuel with
    | O => None
    | S fuel' =>
        match listNext cursor with
        | Coordinator.Throws message => Some (Coordinator.Throws message)
        | Coordinator.Returns next =>
            paging listNext showFolders fuel'
                   (objects ++ ListAssets.objects next)
                   (if showFolders then folders ++ delimitedPrefixes next else folders)
                   (ListAssets.truncated next) (ListAssets.cursor next)
        end
    end.

Definition GET (env : Env) (req : Request) (fuel : nat) : option Response :=
  if String.eqb (method req) "OPTIONS" then Some cors
  else if negb (authenticated req) then Some (error "Unauthorized" 401)
  else
    match CLOUD_FILES env with
    | None => Some (error "Cloud storage not configured" 500)
    | Some bucket =>
        let folderPath :=
          default "" (JS.orElse (JS.get "folder" (searchParams req)) (Some "")) in
        let showFolders :=
          bool_decide (JS.get "showFolders" (searchParams req) = Some "true") in
        let options :=
          {| limit := 1000;
             prefix := if JS.nonEmpty (prefixOf folderPath)
                       then Some (prefixOf folderPath) else None;
             delimiter := if showFolders then Some "/" else None |} in
        match bucket options None with
        | Coordinator.Throws _ => Some (error "Failed to list assets" 500)
        | Coordinator.Returns listed =>
            match paging (bucket options) showFolders fuel
                         (objects listed) (delimitedPrefixes listed)
                         (truncated listed)
                         (if truncated listed then cursor listed else None) with
            | None => None
            | Some (Coordinator.Throws _) => Some (error "Failed to list assets" 500)
            | Some (Coordinator.Returns (objects, folders)) =>
                Some (success (Listed objects folders (normalizedFolder folderPath)))
            end
        end
    end.

(** The bucket answers [pages] one after the other, each but the last
    truncated and naming the cursor of the next request. *)
Fixpoint answers (listNext : option string -> Coordinator.Outcome Page)
    (cursor : option string) (pages : list Page) : Prop :=
  match pages with
  | [] => False
  | page :: rest =>
      listNext cursor = Coordinator.Returns page
      /\ match rest with
         | [] => truncated page = false
         | _ :: _ => truncated page = true
                     /\ answers listNext (ListAssets.cursor page) rest
         end
  end.

End ListAssets.

(* ===================================================================== *)
(** ** The browser component: keys, file list, numbers *)
(* ===================================================================== *)

Module Keys.

(** The inputs of the upload form that the keys are derived from. *)
Record Form : Type := {
  fileName : string;
  customKey : string;
  folderPath : string;
  currentFolder : string;
  replacingKey : option string
}.

(** [customKeyTrimmed.includes(".") && customKeyExt.length > 0 &&
    customKeyExt.length < customKeyTrimmed.length] *)
Definition hasExtension (customKeyTrimmed : string) : bool :=
  let customKeyExt := JS.splitPop JS.dot customKeyTrimmed in
  JS.includes customKeyTrimmed "."
  && (0 <? Z.of_nat (String.length customKeyExt))
  && (Z.of_nat (String.length customKeyExt) <? Z.of_nat (String.length customKeyTrimmed)).

(** [folderPath.trim() || currentFolder] *)
Definition targetFolder (ui : Form) : string :=
  if JS.nonEmpty (JS.trim (folderPath ui)) then JS.trim (folderPath ui)
  else currentFolder ui.

(** The custom key with the extension of the file added when it has
    none. *)
Definition keyWithExt (ui : Form) : string :=
  let customKeyTrimmed := JS.trim (customKey ui) in
  let fileExtension := JS.splitPop JS.dot (fileName ui) in
  if negb (hasExtension customKeyTrimmed) && JS.nonEmpty fileExtension
  then customKeyTrimmed +:+ "." +:+ fileExtension
  else customKeyTrimmed.

(** [finalKey], the key both upload functions ask check-asset about. *)
Definition finalKey (ui : Form) : string :=
  if JS.truthy (replacingKey ui) then default "" (replacingKey ui)
  else if JS.nonEmpty (JS.trim (customKey ui)) then
    if JS.nonEmpty (targetFolder ui)
    then targetFolder ui +:+ "/" +:+ keyWithExt ui
    else keyWithExt ui
  else
    if JS.nonEmpty (targetFolder ui)
    then targetFolder ui +:+ "/" +:+ fileName ui
    else fileName ui.

(** [keyToUse], the key field [uploadFileSimple] puts into the form. *)
Definition keyToUse (ui : Form) : string :=
  if JS.truthy (replacingKey ui) then default "" (replacingKey ui)
  else if JS.nonEmpty (JS.trim (customKey ui)) then
    let keyToUse := keyWithExt ui in
    if JS.nonEmpty (targetFolder ui)
    then targetFolder ui +:+ "/" +:+ keyToUse
    else keyToUse
  else
    if JS.nonEmpty (targetFolder ui)
    then targetFolder ui +:+ "/" +:+ fileName ui
    else fileName ui.

(** The form data [uploadFileSimple] posts to [/api/upload]. *)
Definition simpleForm (ui : Form) (file : Upload.File)
  : list (string * Upload.FormValue) :=
  [("file", Upload.Blob file)]
  ++ (if JS.nonEmpty (keyToUse ui) then [("key", Upload.Text (keyToUse ui))] else [])
  ++ (if JS.nonEmpty (targetFolder ui)
      then [("folder", Upload.Text (targetFolder ui))] else []).

(** [generateRandomFilename(originalName)], given the text of
    [Date.now()] and the six characters drawn from [Math.random()]. *)
Definition generateRandomFilename (originalName timestamp random : string) : string :=
  let ext := JS.splitPop JS.dot originalName in
  if JS.nonEmpty ext
  then timestamp +:+ "-" +:+ random +:+ "." +:+ ext
  else timestamp +:+ "-" +:+ random.

(** [key], the key [uploadFileMultipart] opens the session for;
    [randomName] is the value of [generateRandomFilename(file.name)]. *)
Definition multipartKey (ui : Form) (randomName : string) : string :=
  if JS.truthy (replacingKey ui) then default "" (replacingKey ui)
  else if JS.nonEmpty (JS.trim (customKey ui)) then
    if JS.nonEmpty (targetFolder ui) && negb (JS.includes (keyWithExt ui) "/")
    then targetFolder ui +:+ "/" +:+ keyWithExt ui
    else keyWithExt ui
  else
    let fileName :=
      if JS.nonEmpty (JS.trim (folderPath ui)) then randomName else fileName ui in
    if JS.nonEmpty (targetFolder ui)
    then targetFolder ui +:+ "/" +:+ fileName
    else fileName.

(** The job an upload function works on, for a selected file. *)
Definition jobOf (ui : Form) (size : Z) (type randomName : string) : Planner.Job :=
  {| Planner.file :=
       Some {| Planner.name := fileName ui; Planner.type := type; Planner.size := size |};
     Planner.finalKey := finalKey ui;
     Planner.key := multipartKey ui randomName;
     Planner.replacingKey := JS.truthy (replacingKey ui) |}.

(** Whether a character occurs in a string. *)
Fixpoint occurs (c : ascii) (s : string) : bool :=
  match s with
  | EmptyString => false
  | String b r => Ascii.eqb c b || occurs c r
  end.

(** The first and the last character of a string. *)
Definition firstChar (s : string) : option ascii :=
  match s with
  | EmptyString => None
  | String c _ => Some c
  end.

Fixpoint lastChar (s : string) : option ascii :=
  match s with
  | EmptyString => None
  | String c r =>
      match lastChar r with
      | Some d => Some d
      | None => Some c
      end
  end.

End Keys.

Module Gallery.

(** The fields of [FileData] that identify a file. *)
Record FileData : Type := { name : option string; key : option string }.

(** [file.key || file.name] *)
Definition fileKey (file : FileData) : option string :=
  JS.orElse (key file) (name file).

(** [self.findIndex(p)]; [None] is -1. *)
Fixpoint findIndex {A : Type} (p : A -> bool) (self : list A) : option nat :=
  match self with
  | [] => None
  | x :: rest => if p x then Some O else S <$> findIndex p rest
  end.

(** [self.filter((x, index) => p(index, x))], from position [index] on. *)
Fixpoint filterFrom {A : Type} (p : nat -> A -> bool) (index : nat) (l : list A)
  : list A :=
  match l with
  | [] => []
  | x :: rest =>
      if p index x then x :: filterFrom p (S index) rest
      else filterFrom p (S index) rest
  end.

(** The callback of the filter in [loadFiles]. *)
Definition isFirst (self : list FileData) (index : nat) (file : FileData) : bool :=
  JS.truthy (fileKey file)
  && bool_decide
       (findIndex (fun f => bool_decide (fileKey f = fileKey file)) self = Some index).

(** [uniqueFiles]: duplicates by key or name removed. *)
Definition uniqueFiles (objects : list FileData) : list FileData :=
  filterFrom (isFirst objects) 0 objects.

End Gallery.

Module Digits.

(** The character of a decimal digit. *)
Definition digitChar (d : Z) : ascii := ascii_of_nat (Z.to_nat (48 + d)).

(** The decimal digits of [n], most significant first, put before
    [acc]. *)
Fixpoint digitsFrom (fuel : nat) (n : Z) (acc : string) : string :=
  match fuel with
  | O => acc
  | S fuel' =>
      let acc' := String (digitChar (n mod 10)) acc in
      if n / 10 =? 0 then acc' else digitsFrom fuel' (n / 10) acc'
  end.

(** [n.toString()] for a safe integer [n], below 2^53 in magnitude,
    where it is the decimal numeral of [n].  Beyond, where the digits
    are those of the shortest numeral of the nearest double and the
    notation turns exponential from 1e21 on, it is left out: [None]. *)
Definition toString (n : Z) : option string :=
  if 9007199254740992 <=? Z.abs n then None
  else if n <? 0 then Some (String "-"%char (digitsFrom (S (Z.to_nat (- n))) (- n) ""))
  else Some (digitsFrom (S (Z.to_nat n)) n "").

(** Whether a string consists of decimal digits only. *)
Fixpoint isDigits (s : string) : bool :=
  match s with
  | EmptyString => true
  | String c r =>
      (48 <=? JS.code c) && (JS.code c <=? 57) && isDigits r
  end.

(** The value read so far by [JS.parseDigits] once the digits of [n]
    have been read after [a]. *)
Fixpoint valueAfter (fuel : nat) (n a : Z) : Z :=
  match fuel with
  | O => a
  | S fuel' =>
      if n / 10 =? 0 then a * 10 + n mod 10
      else valueAfter fuel' (n / 10) a * 10 + n mod 10
  end.

End Digits.

Module Observe.

(** The [setProgress] reports of the part loop: parts done, parts in
    all. *)
Definition progresses (t : list Planner.Event) : list (Z * Z) :=
  omap (fun e => match e with
                 | Planner.EvProgress d n => Some (d, n)
                 | _ => None
                 end) t.

(** The calls a handler of the multipart route may make: none, one
    create, or a resume followed by at most one primitive of the same
    session. *)
Definition sessionCall (key uploadId : string) (c : Coordinator.BucketCall) : Prop :=
  match c with
  | Coordinator.CallUploadPart k u n _ =>
      k = key /\ u = uploadId /\ JS.lessThanOne n = false
  | Coordinator.CallComplete k u _ => k = key /\ u = uploadId
  | Coordinator.CallAbort k u => k = key /\ u = uploadId
  | _ => False
  end.

(** The phase of an upload an event belongs to: the existence check (0),
    create (1), the part loop (2), complete (3), the final alert (4). *)
Definition phase (e : Planner.Event) : nat :=
  match e with
  | Planner.EvCheckAsset _ | Planner.EvConfirm => 0
  | Planner.EvCreate _ _ => 1
  | Planner.EvUploadPart _ _ _ _ _ | Planner.EvSleep _ | Planner.EvProgress _ _ => 2
  | Planner.EvComplete _ _ _ => 3
  | Planner.EvAlert _ | Planner.EvUpload _ => 4
  end.

Definition phases (t : list Planner.Event) : list nat := phase <$> t.


Definition protocol (calls : list Coordinator.BucketCall) : Prop :=
  calls = []
  \/ (exists key contentType,
        key <> "" /\ calls = [Coordinator.CallCreate key contentType])
  \/ (exists key uploadId,
        key <> "" /\ uploadId <> ""
        /\ (calls = [Coordinator.CallResume key uploadId]
            \/ exists c, sessionCall key uploadId c
                         /\ calls = [Coordinator.CallResume key uploadId; c])).

End Observe.

(* ===================================================================== *)
(** ** More concrete requests and buckets *)
(* ===================================================================== *)

Module Cases.

(** *** Coordinator *)

(** A bucket whose complete primitive reports a missing part. *)
Definition strictBucket : Coordinator.Bucket :=
  {| Coordinator.createMultipartUpload := fun key _ => Coordinator.Returns (key, "session-1");
     Coordinator.uploadPart := fun _ _ n _ =>
       match n with
       | JS.Finite partNumber =>
           Coordinator.Returns {| Coordinator.partNumber := partNumber;
                                  Coordinator.etag := "etag" |}
       | _ => Coordinator.Throws "Part number must be an integer"
       end;
     Coordinator.complete := fun _ _ _ => Coordinator.Throws "Part 2 is missing";
     Coordinator.abort := fun _ _ => Coordinator.Returns tt |}.

Definition strictEnv : Coordinator.Env :=
  {| Coordinator.CLOUD_FILES := Some strictBucket |}.

Definition onePart : list Coordinator.UploadedPart :=
  [{| Coordinator.partNumber := 1; Coordinator.etag := "etag-1" |}].

(** [POST ?action=complete] naming one part only. *)
Definition completeRequest : Coordinator.Request :=
  {| Coordinator.method := "POST";
     Coordinator.authenticated := true;
     Coordinator.searchParams := [("action", "complete")];
     Coordinator.contentType := Some "application/json";
     Coordinator.jsonBody :=
       Some {| Coordinator.j_key := Some "video.mp4";
               Coordinator.j_contentType := None;
               Coordinator.j_uploadId := Some "session-1";
               Coordinator.j_partNumber := None;
               Coordinator.j_parts := Some onePart |};
     Coordinator.formData := None;
     Coordinator.body := None |}.

(** *** Renaming *)

Definition textPlain : Rename.HttpMetadata :=
  {| Rename.contentType := Some "text/plain";
     Rename.contentLanguage := None;
     Rename.contentDisposition := None;
     Rename.contentEncoding := None;
     Rename.cacheControl := None;
     Rename.cacheExpiry := None |}.

Definition note : Rename.Object :=
  {| Rename.data := [Byte.x68; Byte.x69];
     Rename.httpMetadata := Some textPlain;
     Rename.customMetadata := Some [] |}.

(** A bucket that keeps its objects in memory and never throws. *)
Definition keeping (objects : gmap string Rename.Object) : Rename.Bucket :=
  {| Rename.objects := objects;
     Rename.get := fun held key => Coordinator.Returns (held !! key);
     Rename.arrayBuffer := fun object => Coordinator.Returns (Rename.data object);
     Rename.put := fun held key args =>
       (Coordinator.Returns tt, <[key := Rename.written args]> held);
     Rename.delete := fun held key => (Coordinator.Returns tt, delete key held) |}.

(** The same bucket with a [delete] that throws and removes nothing. *)
Definition sticky (objects : gmap string Rename.Object) : Rename.Bucket :=
  {| Rename.objects := objects;
     Rename.get := fun held key => Coordinator.Returns (held !! key);
     Rename.arrayBuffer := fun object => Coordinator.Returns (Rename.data object);
     Rename.put := fun held key args =>
       (Coordinator.Returns tt, <[key := Rename.written args]> held);
     Rename.delete := fun held _ => (Coordinator.Throws "Internal error", held) |}.

Definition drawer : Rename.Bucket := keeping {[ "a.txt" := note ]}.

Definition renameRequest (old new : string) : Rename.Request :=
  {| Rename.method := "POST";
     Rename.authenticated := true;
     Rename.json := Some {| Rename.oldKey := Some old; Rename.newKey := Some new |} |}.

(** *** Listing *)

Definition pageOne : ListAssets.Page :=
  {| ListAssets.objects :=
       [{| ListAssets.key := "docs/a.txt"; ListAssets.uploaded := "2024-01-01" |}];
     ListAssets.delimitedPrefixes := ["docs/old/"];
     ListAssets.truncated := true;
     ListAssets.cursor := Some "cursor-1" |}.

Definition pageTwo : ListAssets.Page :=
  {| ListAssets.objects :=
       [{| ListAssets.key := "docs/b.txt"; ListAssets.uploaded := "2024-01-02" |}];
     ListAssets.delimitedPrefixes := ["docs/new/"];
     ListAssets.truncated := false;
     ListAssets.cursor := None |}.

(** A bucket that lists in two pages. *)
Definition pagedBucket : ListAssets.Bucket :=
  fun _ cursor =>
    match cursor with
    | None => Coordinator.Returns pageOne
    | Some _ => Coordinator.Returns pageTwo
    end.

(** [GET /api/list-assets?folder=/docs/&showFolders=true] *)
Definition listRequest : ListAssets.Request :=
  {| ListAssets.method := "GET";
     ListAssets.authenticated := true;
     ListAssets.searchParams := [("folder", "/docs/"); ("showFolders", "true")] |}.

(** *** Upload forms *)


(** [README] chosen, nothing typed in. *)
Definition plainForm : Keys.Form :=
  {| Keys.fileName := "README";
     Keys.customKey := "";
     Keys.folderPath := "";
     Keys.currentFolder := "";
     Keys.replacingKey := None |}.

Definition readme : Upload.File :=
  {| Upload.name := "README"; Upload.type := "text/plain";
     Upload.size := 3; Upload.content := Scenarios.oldText |}.

(** The [POST /api/upload] that [uploadFileSimple] sends for a form. *)
Definition simpleRequest (ui : Keys.Form) (file : Upload.File) : Upload.Request :=
  {| Upload.method := "POST";
     Upload.authenticated := true;
     Upload.formData := Some (Keys.simpleForm ui file) |}.

End Cases.

(* ===================================================================== *)
(** ** The chunk plan *)
(* ===================================================================== *)

Section ChunkPlan.
Import Planner.

Variable f : File.
Hypothesis size_ge : CHUNK_SIZE <= size f.

Lemma chunk_size_value : CHUNK_SIZE = 5242880.
Proof. reflexivity. Qed.

(** [totalParts] is the ceiling of [size / CHUNK_SIZE]. *)
Lemma totalParts_ceiling :
  (totalParts f - 1) * CHUNK_SIZE < size f <= totalParts f * CHUNK_SIZE.
Proof.
  unfold totalParts, ceilDiv. rewrite chunk_size_value in *.
  pose proof (Z.div_mod (size f) 5242880 ltac:(lia)) as Hdm.
  pose proof (Z.mod_pos_bound (size f) 5242880 ltac:(lia)) as Hb.
  destruct (Z.eqb_spec (size f mod 5242880) 0); lia.
Qed.

Lemma totalParts_pos : 1 <= totalParts f.
Proof.
  pose proof totalParts_ceiling as H. rewrite chunk_size_value in *.
  destruct (Z_lt_le_dec (totalParts f) 1); [|assumption]. nia.
Qed.

Lemma partSize_range i :
  0 <= i < totalParts f ->
  partSize f i = partEnd f i - partStart i.
Proof.
  intros Hi. pose proof totalParts_ceiling as H.
  unfold partSize, sliceSize, clampOffset, partEnd, partStart.
  rewrite chunk_size_value in *.
  repeat match goal with
         | |- context [?a <? ?b] => destruct (Z.ltb_spec a b)
         end; nia.
Qed.

Lemma partSize_inner i :
  0 <= i < totalParts f - 1 -> partSize f i = CHUNK_SIZE.
Proof.
  intros Hi. rewrite partSize_range by lia.
  pose proof totalParts_ceiling as H.
  unfold partEnd, partStart. rewrite chunk_size_value in *. nia.
Qed.

Lemma partSize_last :
  partSize f (totalParts f - 1) = size f - (totalParts f - 1) * CHUNK_SIZE.
Proof.
  pose proof totalParts_pos as Hp. rewrite partSize_range by lia.
  pose proof totalParts_ceiling as H.
  unfold partEnd, partStart. rewrite chunk_size_value in *. nia.
Qed.

Lemma sum_inner (m : nat) :
  Z.of_nat m <= totalParts f - 1 ->
  sumZ (partSize f <$> seqZ 0 (Z.of_nat m)) = Z.of_nat m * CHUNK_SIZE.
Proof.
  induction m as [|m IH]; intros Hm; [reflexivity|].
  replace (Z.of_nat (S m)) with (Z.of_nat m + 1) by lia.
  rewrite seqZ_app by lia. rewrite fmap_app. unfold sumZ in *.
  rewrite foldr_app. cbn [seqZ]. change (seqZ (0 + Z.of_nat m) 1) with
    ((fun x => x) (seqZ (0 + Z.of_nat m) 1)).
  rewrite (seqZ_cons (0 + Z.of_nat m) 1) by lia. cbn.
  rewrite Z.add_0_l. rewrite partSize_inner by lia.
  replace (Z.pred 1) with 0 by lia. cbn.
  rewrite Z.add_0_r.
  assert (Hgen : forall l a, foldr Z.add a l = foldr Z.add 0 l + a).
  { clear. induction l as [|x l IHl]; intros a; cbn; [lia|]. rewrite IHl. lia. }
  rewrite Hgen. rewrite IH by lia. lia.
Qed.

End ChunkPlan.

(** The 12 MiB example of the specification: three parts of 5, 5 and 2 MiB. *)
Example plan_12MiB :
  Planner.chunkPlan (Scenarios.video (Scenarios.MiB 12))
  = [(0, Scenarios.MiB 5); (Scenarios.MiB 5, Scenarios.MiB 10);
     (Scenarios.MiB 10, Scenarios.MiB 12)]
  /\ Planner.partSizes (Scenarios.video (Scenarios.MiB 12))
     = [Scenarios.MiB 5; Scenarios.MiB 5; Scenarios.MiB 2].
Proof. split; reflexivity. Qed.

(* ===================================================================== *)
(** ** The retry loop of one part *)
(* ===================================================================== *)

Section RetryLoop.
Import Planner.

Variable w : World.
Variable send : Event.
Variable pn : Z.

Lemma snd_let {A B C : Type} (p : A * B) (g : A -> C) :
  snd (let '(t, x) := p in (g t, x)) = snd p.
Proof. destruct p; reflexivity. Qed.

Lemma fst_let {A B C : Type} (p : A * B) (g : A -> C) :
  fst (let '(t, x) := p in (g t, x)) = g (fst p).
Proof. destruct p; reflexivity. Qed.

Lemma retryLoop_events retries :
  forall attempt last,
    Forall (loopEvent send) (fst (retryLoop w send pn retries attempt last)).
Proof.
  assert (Hsend : loopEvent send send) by (left; reflexivity).
  assert (Hsleep : forall ms, loopEvent send (EvSleep ms)) by (intros; right; eauto).
  induction retries as [|r IH]; intros attempt last; cbn [retryLoop].
  - constructor.
  - assert (Hcatch : forall resp,
      Forall (loopEvent send)
        (fst (if Z.of_nat r =? 0 then ([send], Raised (AfterRetries pn))
              else let '(t, x) := retryLoop w send pn r (S attempt) resp in
                   (send :: EvSleep (1000 * (4 - Z.of_nat r)) :: t, x)))).
    { intros resp. destruct (Z.of_nat r =? 0).
      + cbn. constructor; [exact Hsend|constructor].
      + rewrite fst_let. constructor; [exact Hsend|].
        constructor; [apply Hsleep|apply IH]. }
    destruct (uploadPart w pn attempt) as [msg|response]; [apply Hcatch|].
    destruct (ok response); [cbn; constructor; [exact Hsend|constructor]|].
    destruct (status response =? 413); [apply Hcatch|].
    destruct (negb (status response =? 408) && negb (status response =? 429)
              && (status response <? 500)); [apply Hcatch|].
    rewrite fst_let. constructor; [exact Hsend|].
    apply Forall_app. split; [|apply IH].
    destruct (Z.of_nat r >? 0); [constructor; [apply Hsleep|constructor]|constructor].
Qed.

(** When the first [a] attempts fail and the next one is answered ok,
    the loop is left by [break] with that answer. *)
Lemma retryLoop_success (r : Response) :
  forall (a retries attempt : nat) last,
    (a < retries)%nat ->
    (forall b, (b < a)%nat -> failedAttempt (uploadPart w pn (attempt + b)) = true) ->
    uploadPart w pn (attempt + a) = Resolves r ->
    ok r = true ->
    snd (retryLoop w send pn retries attempt last) = Exited (Some r).
Proof.
  induction a as [|a IH]; intros retries attempt last Hlt Hfail Hres Hok;
    (destruct retries as [|n]; [lia|]); cbn [retryLoop].
  - rewrite Nat.add_0_r in Hres. rewrite Hres, Hok. reflexivity.
  - assert (Hn : (Z.of_nat n =? 0) = false) by (apply Z.eqb_neq; lia).
    assert (Hrec : forall resp,
              snd (retryLoop w send pn n (S attempt) resp) = Exited (Some r)).
    { intros resp. apply IH; [lia| | |exact Hok].
      + intros b Hb. replace (S attempt + b)%nat with (attempt + S b)%nat by lia.
        apply Hfail. lia.
      + replace (S attempt + a)%nat with (attempt + S a)%nat by lia. exact Hres. }
    pose proof (Hfail 0%nat ltac:(lia)) as H0. rewrite Nat.add_0_r in H0.
    rewrite Hn.
    destruct (uploadPart w pn attempt) as [msg|response].
    + rewrite snd_let. apply Hrec.
    + cbn in H0. apply negb_true_iff in H0. rewrite H0.
      destruct (status response =? 413); [rewrite snd_let; apply Hrec|].
      destruct (negb (status response =? 408) && negb (status response =? 429)
                && (status response <? 500)); rewrite snd_let; apply Hrec.
Qed.

(** When every attempt fails, the loop ends without an ok answer. *)
Lemma retryLoop_exhausted :
  forall (retries attempt : nat) last,
    (forall b, (b < retries)%nat ->
               failedAttempt (uploadPart w pn (attempt + b)) = true) ->
    match last with Some r => ok r = false | None => True end ->
    match snd (retryLoop w send pn retries attempt last) with
    | Raised _ => True
    | Exited None => True
    | Exited (Some r) => ok r = false
    end.
Proof.
  induction retries as [|n IH]; intros attempt last Hfail Hlast; cbn [retryLoop].
  - cbn. destruct last; assumption.
  - assert (Hrec : forall resp,
              match resp with Some r => ok r = false | None => True end ->
              match snd (retryLoop w send pn n (S attempt) resp) with
              | Raised _ => True
              | Exited None => True
              | Exited (Some r) => ok r = false
              end).
    { intros resp Hresp. apply IH; [|exact Hresp].
      intros b Hb. replace (S attempt + b)%nat with (attempt + S b)%nat by lia.
      apply Hfail. lia. }
    pose proof (Hfail 0%nat ltac:(lia)) as H0. rewrite Nat.add_0_r in H0.
    destruct (uploadPart w pn attempt) as [msg|response].
    + destruct (Z.of_nat n =? 0); [exact I|]. rewrite snd_let. apply Hrec, Hlast.
    + cbn in H0. apply negb_true_iff in H0. rewrite H0.
      destruct (status response =? 413).
      { destruct (Z.of_nat n =? 0); [exact I|]. rewrite snd_let. apply Hrec, H0. }
      destruct (negb (status response =? 408) && negb (status response =? 429)
                && (status response <? 500)).
      { destruct (Z.of_nat n =? 0); [exact I|]. rewrite snd_let. apply Hrec, H0. }
      rewrite snd_let. apply Hrec, H0.
Qed.

(** The loop of one part: at most three fetches, with a wait of 2 s
    before the second and of 3 s before the third. *)
Lemma retryLoop_shape :
  let t := fst (retryLoop w send pn 3 0 None) in
  t = [send]
  \/ t = [send; EvSleep 2000; send]
  \/ t = [send; EvSleep 2000; send; EvSleep 3000; send].
Proof.
  cbn [retryLoop].
  change (Z.of_nat 2 =? 0) with false. change (Z.of_nat 1 =? 0) with false.
  change (Z.of_nat 0 =? 0) with true.
  change (Z.of_nat 2 >? 0) with true. change (Z.of_nat 1 >? 0) with true.
  change (Z.of_nat 0 >? 0) with false.
  change (1000 * (4 - Z.of_nat 2)) with 2000.
  change (1000 * (4 - Z.of_nat 1)) with 3000.
  cbn.
  repeat match goal with
         | |- context [match uploadPart w pn ?a with _ => _ end] =>
             destruct (uploadPart w pn a) as [?|?]
         | |- context [if ?b then _ else _] => destruct b
         end; cbn; auto.
Qed.

End RetryLoop.

(* ===================================================================== *)
(** ** The loop over the parts *)
(* ===================================================================== *)

Section PartsLoop.
Import Planner.

Lemma completions_app t1 t2 :
  completions (t1 ++ t2) = completions t1 ++ completions t2.
Proof. apply omap_app. Qed.

Lemma partFetches_app t1 t2 :
  partFetches (t1 ++ t2) = partFetches t1 ++ partFetches t2.
Proof. apply omap_app. Qed.

Lemma loop_no_completion send t :
  completions [send] = [] ->
  Forall (loopEvent send) t -> completions t = [].
Proof.
  intros Hsend. induction 1 as [|e t He _ IH]; [reflexivity|].
  change (e :: t) with ([e] ++ t). rewrite completions_app, IH, app_nil_r.
  destruct He as [->|[ms ->]]; [exact Hsend|reflexivity].
Qed.

Lemma loop_fetches u k n s e t :
  Forall (loopEvent (EvUploadPart u k n s e)) t ->
  Forall (fun m => m = n) (partFetches t).
Proof.
  induction 1 as [|x t Hx _ IH]; [constructor|].
  destruct Hx as [->|[ms ->]]; cbn; [constructor; [reflexivity|exact IH]|exact IH].
Qed.

Variable w : World.
Variable job : Job.
Variable f : File.
Variable uploadId : option string.

Lemma sendPart_events send n isLast blob :
  Forall (loopEvent send) (fst (sendPart w send n isLast blob)).
Proof.
  unfold sendPart.
  destruct (partTooSmall isLast blob); [constructor|].
  destruct (urlLength w n >? 15000); [constructor|].
  pose proof (retryLoop_events w send n 3 0%nat None) as H.
  destruct (retryLoop w send n 3 0 None) as [t x]. cbn in H.
  destruct x as [[r|]|err]; [|exact H|exact H].
  destruct (negb (ok r)); [exact H|]. destruct (json r); exact H.
Qed.

Lemma sendPart_stored send n isLast blob e :
  partTooSmall isLast blob = false ->
  urlLength w n <= 15000 ->
  storedWith w n e ->
  snd (sendPart w send n isLast blob) = Pushed e.
Proof.
  intros Hsmall Hurl (a & r & j & Ha & Hfail & Hres & Hok & Hjson & He).
  unfold sendPart. rewrite Hsmall.
  destruct (Z.gtb_spec (urlLength w n) 15000) as [?|_]; [lia|].
  pose proof (retryLoop_success w send n r a 3 0 None Ha Hfail Hres Hok) as H.
  destruct (retryLoop w send n 3 0 None) as [t x]. cbn in H. subst x.
  rewrite Hok. cbn. rewrite Hjson, He. reflexivity.
Qed.

Lemma sendPart_exhausted send n isLast blob :
  exhausted w n ->
  exists err, snd (sendPart w send n isLast blob) = Threw err.
Proof.
  intros Hex. unfold sendPart.
  destruct (partTooSmall isLast blob); [eexists; reflexivity|].
  destruct (urlLength w n >? 15000); [eexists; reflexivity|].
  pose proof (retryLoop_exhausted w send n 3 0 None Hex I) as H.
  destruct (retryLoop w send n 3 0 None) as [t x]. cbn in H.
  destruct x as [[r|]|err]; [|eexists; reflexivity|eexists; reflexivity].
  rewrite H. cbn. eexists; reflexivity.
Qed.

Lemma uploadPartAt_no_completion i :
  completions (fst (uploadPartAt w job f uploadId i)) = [].
Proof.
  apply (loop_no_completion (sendEvent job f uploadId i)); [reflexivity|].
  apply sendPart_events.
Qed.

Lemma uploadPartAt_fetches i :
  Forall (fun m => m = i + 1) (partFetches (fst (uploadPartAt w job f uploadId i))).
Proof.
  eapply loop_fetches. unfold uploadPartAt, sendEvent. apply sendPart_events.
Qed.

(** When every remaining part gets stored, the loop pushes their
    entries in order. *)
Lemma uploadParts_all_stored (e : Z -> option string) :
  CHUNK_SIZE <= size f ->
  (forall k, 1 <= k <= totalParts f -> urlLength w k <= 15000 /\ storedWith w k (e k)) ->
  forall (n : nat) (i : Z) (partsData : list Part),
    0 <= i -> i + Z.of_nat n = totalParts f ->
    snd (uploadParts w job f uploadId n i partsData)
      = inr (partsData ++ ((fun k => (k, e k)) <$> seqZ (i + 1) (Z.of_nat n)))
    /\ completions (fst (uploadParts w job f uploadId n i partsData)) = [].
Proof.
  intros Hsize Hall. induction n as [|n IH]; intros i partsData Hi Hn.
  - cbn. rewrite app_nil_r. split; reflexivity.
  - cbn [uploadParts].
    pose proof (uploadPartAt_no_completion i) as Hnc.
    destruct (Hall (i + 1) ltac:(lia)) as [Hurl Hst].
    assert (Hsmall : partTooSmall (i =? totalParts f - 1) (partSize f i) = false).
    { unfold partTooSmall. destruct (Z.eqb_spec i (totalParts f - 1)); [reflexivity|].
      rewrite (partSize_inner f Hsize i) by lia. cbn. apply Z.ltb_irrefl. }
    pose proof (sendPart_stored (sendEvent job f uploadId i) (i + 1)
                  (i =? totalParts f - 1) (partSize f i) (e (i + 1))
                  Hsmall Hurl Hst) as Hp.
    fold (uploadPartAt w job f uploadId i) in Hp.
    destruct (uploadPartAt w job f uploadId i) as [t r]. cbn [fst snd] in Hp, Hnc. subst r.
    destruct (IH (i + 1) (partsData ++ [(i + 1, e (i + 1))]) ltac:(lia) ltac:(lia))
      as [IHr IHc].
    destruct (uploadParts w job f uploadId n (i + 1) (partsData ++ [(i + 1, e (i + 1))]))
      as [t' r']. cbn [fst snd] in IHr, IHc. cbn [fst snd]. split.
    + rewrite IHr. f_equal. rewrite <- app_assoc. f_equal.
      rewrite (seqZ_cons (i + 1) (Z.of_nat (S n))) by lia.
      replace (Z.succ (i + 1)) with (i + 1 + 1) by lia.
      replace (Z.pred (Z.of_nat (S n))) with (Z.of_nat n) by lia.
      reflexivity.
    + rewrite completions_app, Hnc. exact IHc.
Qed.

(** When part [k] fails three times, the loop throws at part [k] at the
    latest: nothing is fetched for a later part. *)
Lemma uploadParts_exhausted (k : Z) :
  exhausted w k ->
  forall (n : nat) (i : Z) (partsData : list Part),
    i < k <= i + Z.of_nat n ->
    (exists err, snd (uploadParts w job f uploadId n i partsData) = inl err)
    /\ completions (fst (uploadParts w job f uploadId n i partsData)) = []
    /\ Forall (fun m => m <= k) (partFetches (fst (uploadParts w job f uploadId n i partsData))).
Proof.
  intros Hex. induction n as [|n IH]; intros i partsData Hk; [lia|].
  cbn [uploadParts].
  pose proof (uploadPartAt_no_completion i) as Hnc.
  pose proof (uploadPartAt_fetches i) as Hfe.
  assert (Hle : Forall (fun m => m <= k) (partFetches (fst (uploadPartAt w job f uploadId i)))).
  { eapply Forall_impl; [exact Hfe|]. cbn. intros m ->. lia. }
  destruct (Z.eq_dec (i + 1) k) as [Heq|Hne].
  - destruct (sendPart_exhausted (sendEvent job f uploadId i) (i + 1)
                (i =? totalParts f - 1) (partSize f i)) as [err Herr];
      [rewrite Heq; exact Hex|].
    fold (uploadPartAt w job f uploadId i) in Herr.
    destruct (uploadPartAt w job f uploadId i) as [t r]. cbn [fst snd] in Herr, Hnc, Hle. subst r.
    cbn [fst snd]. eauto.
  - destruct (uploadPartAt w job f uploadId i) as [t r]. cbn [fst snd] in Hnc, Hle.
    destruct r as [eTag|err]; [|cbn [fst snd]; eauto].
    destruct (IH (i + 1) (partsData ++ [(i + 1, eTag)]) ltac:(lia)) as (IHr & IHc & IHf).
    destruct (uploadParts w job f uploadId n (i + 1) (partsData ++ [(i + 1, eTag)]))
      as [t' r']. cbn [fst snd] in IHr, IHc, IHf. cbn [fst snd].
    split; [exact IHr|]. split.
    + rewrite completions_app, Hnc. exact IHc.
    + rewrite partFetches_app. apply Forall_app. split; [exact Hle|]. exact IHf.
Qed.

End PartsLoop.

(* ===================================================================== *)
(** ** Whole runs of [uploadFileMultipart] *)
(* ===================================================================== *)

Section Runs.
Import Planner.

Lemma checkExisting_quiet w job round :
  completions (fst (checkExisting w job round)) = []
  /\ partFetches (fst (checkExisting w job round)) = [].
Proof.
  unfold checkExisting.
  destruct (JS.nonEmpty (finalKey job) && negb (replacingKey job)); [|split; reflexivity].
  destruct (checkAsset w round) as [msg|r]; [split; reflexivity|].
  destruct (ok r); [|split; reflexivity].
  destruct (json r) as [j|]; [|split; reflexivity].
  destruct (exists_ j); split; reflexivity.
Qed.

(** The run of the multipart branch proper. *)
Lemma uploadFileMultipart_session w job f fuel round :
  file job = Some f ->
  CHUNK_SIZE <= size f ->
  snd (checkExisting w job round) = true ->
  uploadFileMultipart w job (S fuel) round
    = (fst (checkExisting w job round) ++ fst (multipartSession w job f),
       snd (multipartSession w job f)).
Proof.
  intros Hfile Hsize Hgo. cbn [uploadFileMultipart]. rewrite Hfile.
  destruct (checkExisting w job round) as [t0 go]. cbn [fst snd] in *. subst go.
  cbn [negb]. destruct (Z.ltb_spec (size f) CHUNK_SIZE) as [?|_]; [lia|].
  destruct (multipartSession w job f) as [t o]. reflexivity.
Qed.

(** A run either stops at the existence check or is the multipart
    branch. *)
Lemma uploadFileMultipart_cases w job f fuel round :
  file job = Some f ->
  CHUNK_SIZE <= size f ->
  uploadFileMultipart w job (S fuel) round
    = (fst (checkExisting w job round), Cancelled)
  \/ uploadFileMultipart w job (S fuel) round
    = (fst (checkExisting w job round) ++ fst (multipartSession w job f),
       snd (multipartSession w job f)).
Proof.
  intros Hfile Hsize.
  destruct (snd (checkExisting w job round)) eqn:Hgo.
  - right. apply uploadFileMultipart_session; assumption.
  - left. cbn [uploadFileMultipart]. rewrite Hfile.
    destruct (checkExisting w job round) as [t0 go]. cbn [fst snd] in *. subst go.
    reflexivity.
Qed.

Lemma multipartSession_stored w job f (e : Z -> option string) :
  CHUNK_SIZE <= size f ->
  (exists r j, create w = Resolves r /\ json r = Some j) ->
  (forall k, 1 <= k <= totalParts f -> urlLength w k <= 15000 /\ storedWith w k (e k)) ->
  completions (fst (multipartSession w job f))
    = [(fun k => (k, e k)) <$> seqZ 1 (totalParts f)].
Proof.
  intros Hsize (r & j & Hcreate & Hjson) Hall.
  pose proof (totalParts_pos f Hsize) as Hpos.
  unfold multipartSession. rewrite Hcreate, Hjson.
  destruct (uploadParts_all_stored w job f (uploadId j) e Hsize Hall
              (Z.to_nat (totalParts f)) 0 [] ltac:(lia) ltac:(lia)) as [Hr Hc].
  destruct (uploadParts w job f (uploadId j) (Z.to_nat (totalParts f)) 0 [])
    as [t res]. cbn [fst snd] in Hr, Hc. subst res.
  rewrite Z2Nat.id by lia. cbn [app]. replace (0 + 1) with 1 by lia.
  assert (Hshape : forall alert,
    (forall u k p, alert <> EvComplete u k p) ->
    completions (EvCreate (key job) (type f)
                   :: t ++ [EvComplete (uploadId j) (key job)
                              ((fun k => (k, e k)) <$> seqZ 1 (totalParts f)); alert])
    = [(fun k => (k, e k)) <$> seqZ 1 (totalParts f)]).
  { intros alert Halert.
    change (EvCreate (key job) (type f) :: ?l) with ([EvCreate (key job) (type f)] ++ l).
    rewrite !completions_app, Hc. cbn.
    destruct alert; try reflexivity. exfalso. eapply Halert. reflexivity. }
  destruct (completeUpload w) as [msg|cr]; cbn [fst].
  - apply Hshape. discriminate.
  - destruct (negb (ok cr)); cbn [fst]; [apply Hshape; discriminate|].
    destruct (json cr); cbn [fst]; apply Hshape; discriminate.
Qed.

Lemma multipartSession_exhausted w job f k :
  CHUNK_SIZE <= size f ->
  1 <= k <= totalParts f ->
  exhausted w k ->
  snd (multipartSession w job f) = UploadFailed
  /\ completions (fst (multipartSession w job f)) = []
  /\ Forall (fun m => m <= k) (partFetches (fst (multipartSession w job f))).
Proof.
  intros Hsize Hk Hex. unfold multipartSession.
  destruct (create w) as [msg|r]; [cbn; auto|].
  destruct (json r) as [j|]; [|cbn; auto].
  destruct (uploadParts_exhausted w job f (uploadId j) k Hex
              (Z.to_nat (totalParts f)) 0 [] ltac:(lia)) as ([err Hr] & Hc & Hf).
  destruct (uploadParts w job f (uploadId j) (Z.to_nat (totalParts f)) 0 [])
    as [t res]. cbn [fst snd] in Hr, Hc, Hf. subst res. cbn [fst snd].
  split; [reflexivity|].
  change (EvCreate (key job) (type f) :: ?l) with ([EvCreate (key job) (type f)] ++ l).
  rewrite !completions_app, !partFetches_app, Hc. split; [reflexivity|].
  apply Forall_app. split; [constructor|].
  apply Forall_app. split; [exact Hf|constructor].
Qed.

End Runs.

(** C9. When every part upload succeeds, exactly one parts list is
    submitted at completion, and it is (1, e1), (2, e2), ...,
    (totalParts, eN): part numbers in increasing order without gap or
    duplicate, each with the tag the backend returned for that part. *)
Theorem completion_lists_parts_in_order
    (w : Planner.World) (job : Planner.Job) (f : Planner.File)
    (fuel round : nat) (e : Z -> option string) :
  Planner.file job = Some f ->
  Planner.CHUNK_SIZE <= Planner.size f ->
  snd (Planner.checkExisting w job round) = true ->
  (exists r j, Planner.create w = Planner.Resolves r /\ Planner.json r = Some j) ->
  (forall k, 1 <= k <= Planner.totalParts f ->
             Planner.urlLength w k <= 15000 /\ Planner.storedWith w k (e k)) ->
  Planner.completions (fst (Planner.uploadFileMultipart w job (S fuel) round))
    = [(fun k => (k, e k)) <$> seqZ 1 (Planner.totalParts f)].
Proof.
  intros Hfile Hsize Hgo Hcreate Hall.
  rewrite (uploadFileMultipart_session w job f fuel round Hfile Hsize Hgo).
  cbn [fst]. rewrite completions_app.
  rewrite (proj1 (checkExisting_quiet w job round)).
  apply multipartSession_stored; assumption.
Qed.

Lemma completion_lists_parts_in_order_witness :
  Planner.completions
    (fst (Planner.uploadFileMultipart Scenarios.flakyWorld
            (Scenarios.jobOf (Scenarios.MiB 12)) 1 0))
  = [[(1, Some "etag-1"); (2, Some "etag-2"); (3, Some "etag-3")]].
Proof.
  apply (completion_lists_parts_in_order Scenarios.flakyWorld
           (Scenarios.jobOf (Scenarios.MiB 12))
           (Scenarios.video (Scenarios.MiB 12)) 0 0 Scenarios.etagOf).
  - reflexivity.
  - vm_compute; discriminate.
  - reflexivity.
  - eexists; eexists; split; reflexivity.
  - intros k Hk.
    change (Planner.totalParts (Scenarios.video (Scenarios.MiB 12))) with 3 in Hk.
    assert (Hcases : k = 1 \/ k = 2 \/ k = 3) by lia.
    split; [vm_compute; discriminate|].
    destruct Hcases as [->|[->| ->]].
    + exists 0%nat; eexists; eexists.
      split; [lia|]. split; [intros b Hb; lia|].
      split; [reflexivity|]. split; [reflexivity|]. split; reflexivity.
    + exists 2%nat; eexists; eexists.
      split; [lia|]. split; [intros [|[|b]] Hb; [reflexivity|reflexivity|lia]|].
      split; [reflexivity|]. split; [reflexivity|]. split; reflexivity.
    + exists 0%nat; eexists; eexists.
      split; [lia|]. split; [intros b Hb; lia|].
      split; [reflexivity|]. split; [reflexivity|]. split; reflexivity.
Defined.

(** The retry scenario of the specification: part 2 fails twice with 503
    and is stored at the third attempt. *)
Example run_flaky_12MiB :
  Planner.partFetches
    (fst (Planner.uploadFileMultipart Scenarios.flakyWorld
            (Scenarios.jobOf (Scenarios.MiB 12)) 1 0))
  = [1; 2; 2; 2; 3]
  /\ snd (Planner.uploadFileMultipart Scenarios.flakyWorld
            (Scenarios.jobOf (Scenarios.MiB 12)) 1 0) = Planner.Uploaded.
Proof. split; reflexivity. Qed.

(* ===================================================================== *)
(** ** Attempts and byte ranges of the part loop *)
(* ===================================================================== *)

Section Attempts.
Import Planner.

Variable w : World.

Ltac unfold_loop :=
  cbn [retryLoop];
  change (Z.of_nat 2 =? 0) with false; change (Z.of_nat 1 =? 0) with false;
  change (Z.of_nat 0 =? 0) with true;
  change (Z.of_nat 2 >? 0) with true; change (Z.of_nat 1 >? 0) with true;
  change (Z.of_nat 0 >? 0) with false;
  change (1000 * (4 - Z.of_nat 2)) with 2000;
  change (1000 * (4 - Z.of_nat 1)) with 3000;
  cbn.

Ltac use_answers :=
  repeat match goal with
         | H : uploadPart _ _ _ = _ |- _ => rewrite H
         | H : ok _ = _ |- _ => rewrite H
         end.

Ltac given_attempts c :=
  exists c; split; [|reflexivity];
  split; [lia|]; split;
  [ intros [|[|b]] Hb; try lia; unfold failedAttempt; use_answers; reflexivity
  | intros Hc; first [exfalso; lia | eexists; split; [eassumption|assumption]] ].

(** The retry loop of one part makes one to three attempts, with the
    waits of [backoff] in between. *)
Lemma retryLoop_attempts send pn :
  exists c, attempted w pn c /\ fst (retryLoop w send pn 3 0 None) = backoff send c.
Proof.
  unfold_loop.
  repeat match goal with
         | |- context [match uploadPart w pn ?a with _ => _ end] =>
             destruct (uploadPart w pn a) as [?|?] eqn:?
         | |- context [if ok ?r then _ else _] => destruct (ok r) eqn:?
         | |- context [if ?b then _ else _] => destruct b
         end; cbn [fst];
    first [given_attempts 1%nat | given_attempts 2%nat | given_attempts 3%nat].
Qed.

(** One turn of the [for] loop throws before any fetch, or goes through
    the retry loop. *)
Lemma sendPart_attempts send n isLast blob :
  (fst (sendPart w send n isLast blob) = []
   /\ exists e, snd (sendPart w send n isLast blob) = Threw e)
  \/ exists c, attempted w n c /\ fst (sendPart w send n isLast blob) = backoff send c.
Proof.
  unfold sendPart.
  destruct (partTooSmall isLast blob); [left; split; [reflexivity|eauto]|].
  destruct (urlLength w n >? 15000); [left; split; [reflexivity|eauto]|].
  right. destruct (retryLoop_attempts send n) as (c & Hc & Ht). exists c.
  split; [exact Hc|].
  destruct (retryLoop w send n 3 0 None) as [t x]. cbn [fst] in Ht. subst t.
  destruct x as [[r|]|err]; try reflexivity.
  destruct (negb (ok r)); [reflexivity|]. destruct (json r); reflexivity.
Qed.

(** A turn whose part is long enough and whose URL is short enough
    does go through the retry loop. *)
Lemma sendPart_runs send n isLast blob :
  partTooSmall isLast blob = false ->
  urlLength w n <= 15000 ->
  exists c, attempted w n c /\ fst (sendPart w send n isLast blob) = backoff send c.
Proof.
  intros Hsmall Hurl. unfold sendPart. rewrite Hsmall.
  destruct (Z.gtb_spec (urlLength w n) 15000) as [?|_]; [lia|].
  destruct (retryLoop_attempts send n) as (c & Hc & Ht). exists c.
  split; [exact Hc|].
  destruct (retryLoop w send n 3 0 None) as [t x]. cbn [fst] in Ht. subst t.
  destruct x as [[r|]|err]; try reflexivity.
  destruct (negb (ok r)); [reflexivity|]. destruct (json r); reflexivity.
Qed.

Lemma wire_app t1 t2 : wire (t1 ++ t2) = wire t1 ++ wire t2.
Proof. apply omap_app. Qed.

Lemma wire_backoff u k n s e c :
  wire (backoff (EvUploadPart u k n s e) c) = backoff (EvUploadPart u k n s e) c.
Proof. destruct c as [|[|[|c]]]; reflexivity. Qed.

Lemma cuts_app t1 t2 : cuts (t1 ++ t2) = cuts t1 ++ cuts t2.
Proof. apply omap_app. Qed.

Lemma cuts_wire t : cuts (wire t) = cuts t.
Proof.
  induction t as [|e t IH]; [reflexivity|].
  destruct e; cbn; try exact IH; f_equal; exact IH.
Qed.

Lemma cuts_backoff u k n s e c :
  (c <= 3)%nat ->
  cuts (backoff (EvUploadPart u k n s e) c) = replicate c (n, s, e).
Proof. destruct c as [|[|[|[|c]]]]; intros Hc; try lia; reflexivity. Qed.

Variable job : Job.
Variable f : File.
Variable uploadId : option string.

(** The byte range the loop cuts for index [i] is the planned one. *)
Lemma sendEvent_planned i :
  sendEvent job f uploadId i
  = EvUploadPart (default "undefined" uploadId) (key job)
                 (fst (fst (planned f i))) (snd (fst (planned f i))) (snd (planned f i)).
Proof.
  unfold sendEvent, planned, partEnd, partStart. cbn [fst snd].
  replace (CHUNK_SIZE * i + CHUNK_SIZE) with ((i + 1) * CHUNK_SIZE) by lia.
  replace (CHUNK_SIZE * i) with (i * CHUNK_SIZE) by lia.
  reflexivity.
Qed.

Lemma cuts_attempts (cs : list nat) :
  forall i,
    Forall (fun c => (c <= 3)%nat) cs ->
    cuts (attempts job f uploadId i cs) = fetched f i cs.
Proof.
  induction cs as [|c cs IH]; intros i Hcs; [reflexivity|].
  cbn [attempts fetched]. rewrite cuts_app, sendEvent_planned.
  rewrite cuts_backoff by (inversion Hcs; assumption).
  rewrite IH by (inversion Hcs; assumption).
  destruct (planned f i) as [[n s] e]. reflexivity.
Qed.

(** The parts the loop cuts pass its size check. *)
Lemma part_not_too_small i :
  CHUNK_SIZE <= size f ->
  0 <= i < totalParts f ->
  partTooSmall (i =? totalParts f - 1) (partSize f i) = false.
Proof.
  intros Hsize Hi. unfold partTooSmall.
  destruct (Z.eqb_spec i (totalParts f - 1)); [reflexivity|].
  rewrite (partSize_inner f Hsize i) by lia. cbn. apply Z.ltb_irrefl.
Qed.

Lemma fetched_elem (cs : list nat) :
  forall i j c,
    cs !! j = Some c -> (1 <= c)%nat ->
    planned f (i + Z.of_nat j) ∈ fetched f i cs.
Proof.
  induction cs as [|c0 cs IH]; intros i j c Hj Hc; [discriminate Hj|].
  cbn [fetched]. apply elem_of_app. destruct j as [|j].
  - left. cbn in Hj. inversion Hj; subst c0.
    replace (i + Z.of_nat 0) with i by lia.
    destruct c as [|c]; [lia|]. cbn. apply list_elem_of_here.
  - right. replace (i + Z.of_nat (S j)) with (i + 1 + Z.of_nat j) by lia.
    eapply IH; [exact Hj|exact Hc].
Qed.

(** The part loop: the parts it reaches, from index [i] on, and the
    attempts it makes at each.  It reaches every part whose URL is
    short enough once the parts before it are stored. *)
Lemma uploadParts_attempts :
  forall (n : nat) (i : Z) (partsData : list Part),
    exists cs : list nat,
      (length cs <= n)%nat
      /\ wire (fst (uploadParts w job f uploadId n i partsData))
         = attempts job f uploadId i cs
      /\ (forall j c, cs !! j = Some c -> attempted w (i + 1 + Z.of_nat j) c)
      /\ (forall pd, snd (uploadParts w job f uploadId n i partsData) = inr pd ->
                     length cs = n)
      /\ (CHUNK_SIZE <= size f -> 0 <= i -> i + Z.of_nat n <= totalParts f ->
          forall m, (m < n)%nat ->
            (forall j, (j < m)%nat ->
               urlLength w (i + 1 + Z.of_nat j) <= 15000
               /\ exists e, storedWith w (i + 1 + Z.of_nat j) e) ->
            urlLength w (i + 1 + Z.of_nat m) <= 15000 ->
            is_Some (cs !! m)).
Proof.
  induction n as [|n IH]; intros i partsData; cbn [uploadParts].
  - exists []. split; [reflexivity|]. split; [reflexivity|].
    split; [intros j c Hj; discriminate Hj|]. split; [reflexivity|].
    intros _ _ _ m Hm. lia.
  - assert (Hfirst : CHUNK_SIZE <= size f -> 0 <= i -> i + Z.of_nat (S n) <= totalParts f ->
              forall m,
                (forall j, (j < m)%nat ->
                   urlLength w (i + 1 + Z.of_nat j) <= 15000
                   /\ exists e, storedWith w (i + 1 + Z.of_nat j) e) ->
                urlLength w (i + 1 + Z.of_nat m) <= 15000 ->
                partTooSmall (i =? totalParts f - 1) (partSize f i) = false
                /\ urlLength w (i + 1) <= 15000
                /\ ((0 < m)%nat -> exists e, storedWith w (i + 1) e)).
    { intros Hsize Hi Hn m Hbefore Hurl.
      split; [apply part_not_too_small; [exact Hsize|lia]|].
      destruct m as [|m].
      - replace (i + 1 + Z.of_nat 0) with (i + 1) in Hurl by lia.
        split; [exact Hurl|lia].
      - destruct (Hbefore 0%nat ltac:(lia)) as [H0 Hst].
        replace (i + 1 + Z.of_nat 0) with (i + 1) in H0, Hst by lia.
        split; [exact H0|intros _; exact Hst]. }
    destruct (sendPart_attempts (sendEvent job f uploadId i) (i + 1)
                (i =? totalParts f - 1) (partSize f i)) as [[Ht [e He]]|(c & Hc & Ht)];
      fold (uploadPartAt w job f uploadId i) in Ht |- *.
    + fold (uploadPartAt w job f uploadId i) in He.
      assert (Hruns : forall c',
                attempted w (i + 1) c' ->
                fst (uploadPartAt w job f uploadId i)
                = backoff (sendEvent job f uploadId i) c' -> False).
      { intros c' [Hc' _] Hb. rewrite Ht in Hb.
        destruct c' as [|[|[|c']]]; [lia|discriminate Hb..]. }
      destruct (uploadPartAt w job f uploadId i) as [t r] eqn:Hturn.
      cbn [fst snd] in Ht, He.
      subst t r. exists []. split; [cbn; lia|]. split; [reflexivity|].
      split; [intros j c Hj; discriminate Hj|].
      split; [intros pd Hpd; discriminate Hpd|].
      intros Hsize Hi Hn m Hm Hbefore Hurl. exfalso.
      destruct (Hfirst Hsize Hi Hn m Hbefore Hurl) as (Hsmall & Hurl1 & _).
      destruct (sendPart_runs (sendEvent job f uploadId i) (i + 1)
                  (i =? totalParts f - 1) (partSize f i) Hsmall Hurl1) as (c' & Hc' & Hb).
      fold (uploadPartAt w job f uploadId i) in Hb. rewrite Hturn in Hb.
      eapply Hruns; [exact Hc'|exact Hb].
    + assert (Hwire : wire (backoff (sendEvent job f uploadId i) c)
                      = backoff (sendEvent job f uploadId i) c)
        by apply wire_backoff.
      destruct (uploadPartAt w job f uploadId i) as [t r] eqn:Hturn. cbn [fst] in Ht. subst t.
      destruct r as [eTag|err].
      * destruct (IH (i + 1) (partsData ++ [(i + 1, eTag)]))
          as (cs & Hlen & Hcs & Hatt & Hall & Hreach).
        destruct (uploadParts w job f uploadId n (i + 1) (partsData ++ [(i + 1, eTag)]))
          as [t' r']. cbn [fst snd] in *.
        exists (c :: cs). split; [cbn; lia|]. split.
        { rewrite wire_app, Hwire. cbn [attempts]. f_equal. exact Hcs. }
        split.
        { intros [|j] c' Hj.
          - cbn in Hj. inversion Hj; subst c'.
            replace (i + 1 + Z.of_nat 0) with (i + 1) by lia. exact Hc.
          - cbn in Hj.
            replace (i + 1 + Z.of_nat (S j)) with (i + 1 + 1 + Z.of_nat j) by lia.
            apply Hatt. exact Hj. }
        split; [intros pd Hpd; cbn; f_equal; eapply Hall; exact Hpd|].
        intros Hsize Hi Hn [|m] Hm Hbefore Hurl; [cbn; eauto|].
        cbn [lookup list_lookup]. apply (Hreach Hsize ltac:(lia) ltac:(lia) m ltac:(lia)).
        { intros j Hj. specialize (Hbefore (S j) ltac:(lia)).
          replace (i + 1 + 1 + Z.of_nat j) with (i + 1 + Z.of_nat (S j)) by lia.
          exact Hbefore. }
        replace (i + 1 + 1 + Z.of_nat m) with (i + 1 + Z.of_nat (S m)) by lia.
        exact Hurl.
      * exists [c]. split; [cbn; lia|]. split.
        { cbn [fst attempts]. rewrite app_nil_r. exact Hwire. }
        split.
        { intros [|j] c' Hj; [|discriminate Hj].
          cbn in Hj. inversion Hj; subst c'.
          replace (i + 1 + Z.of_nat 0) with (i + 1) by lia. exact Hc. }
        split; [intros pd Hpd; discriminate Hpd|].
        intros Hsize Hi Hn [|m] Hm Hbefore Hurl; [cbn; eauto|]. exfalso.
        destruct (Hfirst Hsize Hi Hn (S m) Hbefore Hurl) as (Hsmall & Hurl1 & Hst).
        destruct (Hst ltac:(lia)) as [e He].
        pose proof (sendPart_stored w (sendEvent job f uploadId i) (i + 1)
                      (i =? totalParts f - 1) (partSize f i) e Hsmall Hurl1 He) as Hp.
        fold (uploadPartAt w job f uploadId i) in Hp. rewrite Hturn in Hp.
        discriminate Hp.
Qed.

(** The size check of the loop never fires on a part it has cut. *)
Lemma uploadPartAt_never_too_small i e :
  CHUNK_SIZE <= size f ->
  0 <= i < totalParts f ->
  snd (uploadPartAt w job f uploadId i) <> Threw (PartTooSmall e).
Proof.
  intros Hsize Hi. unfold uploadPartAt, sendPart.
  rewrite (part_not_too_small i Hsize Hi).
  destruct (urlLength w (i + 1) >? 15000); [discriminate|].
  assert (Hraise : forall t x,
            retryLoop w (sendEvent job f uploadId i) (i + 1) 3 0 None = (t, x) ->
            x <> Raised (PartTooSmall e)).
  { intros t x. unfold_loop.
    repeat match goal with
           | |- context [match uploadPart w ?p ?a with _ => _ end] =>
               destruct (uploadPart w p a) as [?|?]
           | |- context [if ?b then _ else _] => destruct b
           end; cbn; intros H; inversion H; discriminate. }
  destruct (retryLoop w (sendEvent job f uploadId i) (i + 1) 3 0 None) as [t x] eqn:Hloop.
  specialize (Hraise t x eq_refl).
  destruct x as [[r|]|err]; cbn [snd].
  - destruct (negb (ok r)); [discriminate|]. destruct (json r); discriminate.
  - discriminate.
  - intros H. apply Hraise. inversion H. reflexivity.
Qed.

End Attempts.

Section RunAttempts.
Import Planner.

Lemma checkExisting_wire w job round : wire (fst (checkExisting w job round)) = [].
Proof.
  unfold checkExisting.
  destruct (JS.nonEmpty (finalKey job) && negb (replacingKey job)); [|reflexivity].
  destruct (checkAsset w round) as [msg|r]; [reflexivity|].
  destruct (ok r); [|reflexivity].
  destruct (json r) as [j|]; [|reflexivity].
  destruct (exists_ j); reflexivity.
Qed.

(** A run of the multipart upload reaches the parts one after the other
    from part 1 on and makes one to three attempts at each; it reaches
    every part whose URL is short enough once create has been answered
    and the parts before it are stored. *)
Lemma run_attempts w job f fuel round :
  file job = Some f ->
  CHUNK_SIZE <= size f ->
  exists (uploadId : option string) (cs : list nat),
    Z.of_nat (length cs) <= totalParts f
    /\ wire (fst (uploadFileMultipart w job (S fuel) round))
       = attempts job f uploadId 0 cs
    /\ (forall j c, cs !! j = Some c -> attempted w (1 + Z.of_nat j) c)
    /\ (snd (uploadFileMultipart w job (S fuel) round) = Uploaded ->
        Z.of_nat (length cs) = totalParts f)
    /\ (snd (checkExisting w job round) = true ->
        (exists r j, create w = Resolves r /\ json r = Some j) ->
        forall k, 1 <= k <= totalParts f ->
          (forall j, 1 <= j < k ->
             urlLength w j <= 15000 /\ exists e, storedWith w j e) ->
          urlLength w k <= 15000 ->
          is_Some (cs !! Z.to_nat (k - 1))).
Proof.
  intros Hfile Hsize.
  pose proof (totalParts_pos f Hsize) as Hpos.
  destruct (snd (checkExisting w job round)) eqn:Hgo.
  2:{ assert (Hrun : uploadFileMultipart w job (S fuel) round
                     = (fst (checkExisting w job round), Cancelled)).
      { cbn [uploadFileMultipart]. rewrite Hfile.
        destruct (checkExisting w job round) as [t0 go]. cbn [fst snd] in *. subst go.
        reflexivity. }
      rewrite Hrun. cbn [fst snd]. exists None, [].
      split; [cbn; lia|]. split; [apply checkExisting_wire|].
      split; [intros j c Hj; discriminate Hj|].
      split; discriminate. }
  rewrite (uploadFileMultipart_session w job f fuel round Hfile Hsize Hgo).
  cbn [fst snd]. rewrite wire_app, checkExisting_wire. cbn [app].
  unfold multipartSession.
  assert (Hnone : forall t o,
            wire t = [] -> o = UploadFailed ->
            create w = Rejects "" \/ True ->
            (forall r j, create w = Resolves r -> json r = Some j -> False) ->
            exists (uploadId : option string) (cs : list nat),
              Z.of_nat (length cs) <= totalParts f
              /\ wire t = attempts job f uploadId 0 cs
              /\ (forall j c, cs !! j = Some c -> attempted w (1 + Z.of_nat j) c)
              /\ (o = Uploaded -> Z.of_nat (length cs) = totalParts f)
              /\ (true = true ->
                  (exists r j, create w = Resolves r /\ json r = Some j) ->
                  forall k, 1 <= k <= totalParts f ->
                    (forall j, 1 <= j < k ->
                       urlLength w j <= 15000 /\ exists e, storedWith w j e) ->
                    urlLength w k <= 15000 ->
                    is_Some (cs !! Z.to_nat (k - 1)))).
  { intros t o Ht Ho _ Hnocreate. exists None, []. split; [cbn; lia|]. split; [exact Ht|].
    split; [intros j c Hj; discriminate Hj|]. split; [subst o; discriminate|].
    intros _ (r & j & Hr & Hj). exfalso. eapply Hnocreate; eassumption. }
  destruct (create w) as [msg|cr] eqn:Hcreate;
    [apply Hnone; [reflexivity|reflexivity|auto|intros r j H; discriminate H]|].
  destruct (json cr) as [cj|] eqn:Hjson;
    [|apply Hnone; [reflexivity|reflexivity|auto|];
      intros r j H Hj; inversion H; subst; congruence].
  destruct (uploadParts_attempts w job f (uploadId cj)
              (Z.to_nat (totalParts f)) 0 []) as (cs & Hlen & Hwire & Hatt & Hall & Hreach).
  destruct (uploadParts w job f (uploadId cj) (Z.to_nat (totalParts f)) 0 [])
    as [t res]. cbn [fst snd] in Hwire, Hall.
  assert (Hframe : forall tail,
            wire tail = [] ->
            wire (EvCreate (key job) (type f) :: t ++ tail)
            = attempts job f (uploadId cj) 0 cs).
  { intros tail Htail.
    change (EvCreate (key job) (type f) :: t ++ tail)
      with ([EvCreate (key job) (type f)] ++ t ++ tail).
    rewrite !wire_app, Htail, app_nil_r. exact Hwire. }
  exists (uploadId cj), cs. split; [lia|].
  assert (Hparts : forall j c, cs !! j = Some c -> attempted w (1 + Z.of_nat j) c).
  { intros j c Hj. replace (1 + Z.of_nat j) with (0 + 1 + Z.of_nat j) by lia.
    apply Hatt. exact Hj. }
  assert (Hreached : forall P : Prop, true = true -> P ->
            forall k, 1 <= k <= totalParts f ->
              (forall j, 1 <= j < k ->
                 urlLength w j <= 15000 /\ exists e, storedWith w j e) ->
              urlLength w k <= 15000 ->
              is_Some (cs !! Z.to_nat (k - 1))).
  { intros P _ _ k Hk Hbefore Hurl.
    apply (Hreach Hsize ltac:(lia) ltac:(lia) (Z.to_nat (k - 1)) ltac:(lia)).
    - intros j Hj. apply Hbefore. lia.
    - replace (0 + 1 + Z.of_nat (Z.to_nat (k - 1))) with k by lia. exact Hurl. }
  destruct res as [err|pd].
  + cbn [fst snd]. split; [apply Hframe; reflexivity|].
    split; [exact Hparts|]. split; [discriminate|exact (Hreached _)].
  + assert (Hn : Z.of_nat (length cs) = totalParts f)
      by (rewrite (Hall pd eq_refl); lia).
    destruct (completeUpload w) as [msg|r]; cbn [fst snd];
      [split; [apply Hframe; reflexivity|]; split; [exact Hparts|];
       split; [intros _; exact Hn|exact (Hreached _)]|].
    destruct (negb (ok r)); cbn [fst snd];
      [split; [apply Hframe; reflexivity|]; split; [exact Hparts|];
       split; [intros _; exact Hn|exact (Hreached _)]|].
    destruct (json r); cbn [fst snd];
      (split; [apply Hframe; reflexivity|]; split; [exact Hparts|];
       split; [intros _; exact Hn|exact (Hreached _)]).
Qed.

End RunAttempts.

(** C8. For a file at least one chunk long, [totalParts] is the ceiling
    of [size / CHUNK_SIZE].  The part loop of every run cuts the file
    by the plan: the fetches of upload-part carry, in order, part 1
    with the bytes from 0 to [CHUNK_SIZE], part 2 with the next chunk,
    and so on, part [i + 1] with the bytes from [i * CHUNK_SIZE] to
    [min size ((i + 1) * CHUNK_SIZE)], each part as often as it is
    attempted; a run that ends as uploaded has fetched every one of the
    [totalParts] parts, and a part is fetched with its planned range as
    soon as create has been answered, the parts before it are stored
    and its URL is short enough.  The blob of a part is as long as its
    range,
    the lengths add up to the file size, and every part but the last is
    exactly one chunk long, so that the size check of the loop, which
    throws on a shorter non-final part before anything is sent, never
    fires. *)
Theorem chunk_plan_covers_file
    (w : Planner.World) (job : Planner.Job) (f : Planner.File) (fuel round : nat) :
  Planner.file job = Some f ->
  Planner.CHUNK_SIZE <= Planner.size f ->
  let run := Planner.uploadFileMultipart w job (S fuel) round in
  ((Planner.totalParts f - 1) * Planner.CHUNK_SIZE < Planner.size f
     <= Planner.totalParts f * Planner.CHUNK_SIZE)
  /\ (exists cs : list nat,
        Z.of_nat (length cs) <= Planner.totalParts f
        /\ Planner.cuts (fst run) = Planner.fetched f 0 cs
        /\ (snd run = Planner.Uploaded ->
            Z.of_nat (length cs) = Planner.totalParts f
            /\ Forall (fun c => (1 <= c)%nat) cs))
  /\ (snd (Planner.checkExisting w job round) = true ->
      (exists r j, Planner.create w = Planner.Resolves r /\ Planner.json r = Some j) ->
      forall i, 0 <= i < Planner.totalParts f ->
        (forall j, 1 <= j <= i ->
           Planner.urlLength w j <= 15000 /\ exists e, Planner.storedWith w j e) ->
        Planner.urlLength w (i + 1) <= 15000 ->
        Planner.planned f i ∈ Planner.cuts (fst run))
  /\ (forall i, 0 <= i < Planner.totalParts f ->
        Planner.partSize f i
        = Z.min (Planner.size f) ((i + 1) * Planner.CHUNK_SIZE) - i * Planner.CHUNK_SIZE)
  /\ Planner.sumZ (Planner.partSizes f) = Planner.size f
  /\ (forall i, 0 <= i < Planner.totalParts f - 1 ->
        Planner.partSize f i = Planner.CHUNK_SIZE)
  /\ (forall uploadId i e, 0 <= i < Planner.totalParts f ->
        snd (Planner.uploadPartAt w job f uploadId i)
        <> Planner.Threw (Planner.PartTooSmall e))
  /\ (forall send n blobSize,
        blobSize < Planner.CHUNK_SIZE ->
        Planner.sendPart w send n false blobSize
          = ([], Planner.Threw (Planner.PartTooSmall n))).
Proof.
  intros Hfile Hsize run.
  pose proof (totalParts_ceiling f Hsize) as Hceil.
  pose proof (totalParts_pos f Hsize) as Hpos.
  split; [exact Hceil|].
  destruct (run_attempts w job f fuel round Hfile Hsize)
    as (sessionId & cs & Hlen & Hwire & Hatt & Hdone & Hreach).
  assert (Hcs : Forall (fun c => (1 <= c <= 3)%nat) cs).
  { apply Forall_lookup. intros j c Hj. exact (proj1 (Hatt j c Hj)). }
  assert (Hcuts : Planner.cuts (fst run) = Planner.fetched f 0 cs).
  { subst run. rewrite <- cuts_wire, Hwire. apply cuts_attempts.
    eapply Forall_impl; [exact Hcs|]. cbn. intros c Hc. lia. }
  split.
  { exists cs. split; [exact Hlen|]. split; [exact Hcuts|].
    intros Hup. split; [exact (Hdone Hup)|].
    eapply Forall_impl; [exact Hcs|]. cbn. intros c Hc. lia. }
  split.
  { intros Hgo Hcreate i Hi Hbefore Hurl. rewrite Hcuts.
    destruct (Hreach Hgo Hcreate (i + 1) ltac:(lia)) as [c Hc].
    - intros j Hj. apply Hbefore. lia.
    - exact Hurl.
    - replace (i + 1 - 1) with i in Hc by lia.
      replace i with (0 + Z.of_nat (Z.to_nat i)) at 1 by lia.
      eapply fetched_elem; [exact Hc|].
      pose proof (proj1 (Hatt _ _ Hc)). lia. }
  split.
  { intros i Hi. rewrite (partSize_range f Hsize i Hi).
    unfold Planner.partEnd, Planner.partStart.
    replace (Planner.CHUNK_SIZE * i + Planner.CHUNK_SIZE)
      with ((i + 1) * Planner.CHUNK_SIZE) by lia.
    replace (Planner.CHUNK_SIZE * i) with (i * Planner.CHUNK_SIZE) by lia.
    reflexivity. }
  split.
  { unfold Planner.partSizes.
    replace (Planner.totalParts f) with (Z.of_nat (Z.to_nat (Planner.totalParts f - 1)) + 1) at 1 by lia.
    rewrite seqZ_app by lia. rewrite fmap_app. unfold Planner.sumZ.
    rewrite foldr_app.
    rewrite (seqZ_cons (0 + Z.of_nat (Z.to_nat (Planner.totalParts f - 1))) 1) by lia.
    replace (Z.pred 1) with 0 by lia. cbn.
    replace (0 + Z.of_nat (Z.to_nat (Planner.totalParts f - 1)))
      with (Planner.totalParts f - 1) by lia.
    rewrite (partSize_last f Hsize).
    assert (Hgen : forall l a, foldr Z.add a l = foldr Z.add 0 l + a).
    { clear. induction l as [|x l IHl]; intros a; cbn; [lia|]. rewrite IHl. lia. }
    rewrite Hgen.
    pose proof (sum_inner f Hsize (Z.to_nat (Planner.totalParts f - 1)) ltac:(lia)) as Hs.
    unfold Planner.sumZ in Hs. rewrite Hs.
    rewrite Z2Nat.id by lia. rewrite seqZ_nil by lia. cbn [fmap list_fmap foldr]. lia. }
  split; [intros i Hi; exact (partSize_inner f Hsize i Hi)|].
  split.
  { intros uploadId i e Hi. apply uploadPartAt_never_too_small; assumption. }
  { intros send n blobSize Hlt. unfold Planner.sendPart, Planner.partTooSmall.
    cbn. destruct (Z.ltb_spec blobSize Planner.CHUNK_SIZE); [reflexivity|lia]. }
Qed.

Lemma chunk_plan_covers_file_witness :
  let run := Planner.uploadFileMultipart Scenarios.flakyWorld
               (Scenarios.jobOf (Scenarios.MiB 12)) 1 0 in
  Planner.cuts (fst run)
  = [(1, 0, Scenarios.MiB 5);
     (2, Scenarios.MiB 5, Scenarios.MiB 10);
     (2, Scenarios.MiB 5, Scenarios.MiB 10);
     (2, Scenarios.MiB 5, Scenarios.MiB 10);
     (3, Scenarios.MiB 10, Scenarios.MiB 12)]
  /\ exists cs : list nat,
       Planner.cuts (fst run) = Planner.fetched (Scenarios.video (Scenarios.MiB 12)) 0 cs
       /\ Z.of_nat (length cs) = 3
       /\ Planner.sumZ (Planner.partSizes (Scenarios.video (Scenarios.MiB 12)))
          = Scenarios.MiB 12.
Proof.
  intros run. split; [reflexivity|].
  destruct (chunk_plan_covers_file Scenarios.flakyWorld
              (Scenarios.jobOf (Scenarios.MiB 12))
              (Scenarios.video (Scenarios.MiB 12)) 0 0 eq_refl
              ltac:(vm_compute; discriminate))
    as (_ & (cs & _ & Hcuts & Hdone) & _ & _ & Hsum & _).
  exists cs. split; [exact Hcuts|].
  split; [exact (proj1 (Hdone eq_refl))|exact Hsum].
Defined.

(* ===================================================================== *)
(** ** Retry budget and waits *)
(* ===================================================================== *)

Section RetryPolicy.
Import Planner.

Lemma retryable_tests (r : Response) :
  retryableFailure (Resolves r) = true ->
  ok r = false
  /\ (status r =? 413) = false
  /\ (negb (status r =? 408) && negb (status r =? 429) && (status r <? 500)) = false.
Proof.
  unfold retryableFailure, ok, JS.statusOk.
  destruct (Z.eqb_spec (status r) 408), (Z.eqb_spec (status r) 429),
    (Z.leb_spec 500 (status r)), (Z.eqb_spec (status r) 413),
    (Z.ltb_spec (status r) 500), (Z.leb_spec 200 (status r)),
    (Z.leb_spec (status r) 299); cbn; intros; try lia; auto.
Qed.

Ltac unfold_loop :=
  cbn [retryLoop];
  change (Z.of_nat 2 =? 0) with false; change (Z.of_nat 1 =? 0) with false;
  change (Z.of_nat 0 =? 0) with true;
  change (Z.of_nat 2 >? 0) with true; change (Z.of_nat 1 >? 0) with true;
  change (Z.of_nat 0 >? 0) with false;
  change (1000 * (4 - Z.of_nat 2)) with 2000;
  change (1000 * (4 - Z.of_nat 1)) with 3000;
  cbn.

Ltac split_loop w pn :=
  repeat match goal with
         | |- context [match uploadPart w pn ?a with _ => _ end] =>
             destruct (uploadPart w pn a) as [?|?]
         | |- context [if ?b then _ else _] => destruct b
         end; cbn; auto.

Variable w : World.
Variable send : Event.
Variable pn : Z.

(** After a retryable first failure a second attempt is made, 2 s later. *)
Lemma retry_after_first_failure :
  retryableFailure (uploadPart w pn 0) = true ->
  let t := fst (retryLoop w send pn 3 0 None) in
  t = [send; EvSleep 2000; send]
  \/ t = [send; EvSleep 2000; send; EvSleep 3000; send].
Proof.
  intros H0. unfold_loop.
  destruct (uploadPart w pn 0) as [m0|r0].
  - split_loop w pn.
  - destruct (retryable_tests r0 H0) as (-> & -> & ->). cbn. split_loop w pn.
Qed.

(** After two retryable failures a third attempt is made, 3 s after the
    second. *)
Lemma retry_after_second_failure :
  retryableFailure (uploadPart w pn 0) = true ->
  retryableFailure (uploadPart w pn 1) = true ->
  fst (retryLoop w send pn 3 0 None)
    = [send; EvSleep 2000; send; EvSleep 3000; send].
Proof.
  intros H0 H1. unfold_loop.
  destruct (uploadPart w pn 0) as [m0|r0], (uploadPart w pn 1) as [m1|r1];
    try (destruct (retryable_tests r0 H0) as (-> & -> & ->));
    try (destruct (retryable_tests r1 H1) as (-> & -> & ->));
    cbn; split_loop w pn.
Qed.

End RetryPolicy.

(** C6, as the code has it.  The fetches of upload-part and the waits
    of every run are those of a loop that gives part 1, part 2, ... one
    to three attempts each, with a wait of 2 s before the second
    attempt at a part and of 3 s before the third.  A part whose first
    attempt fails in a retryable way (rejected fetch, 408, 429, 5xx)
    gets a second attempt, and a third when the second fails so too;
    fewer than three attempts are made only when the last was answered
    ok.  A part is attempted as soon as create has been answered, the
    parts before it are stored and its URL is short enough.  When all
    three attempts of some part fail, the upload fails: nothing is
    submitted at completion and no later part is fetched. *)
Theorem retry_budget_and_backoff
    (w : Planner.World) (job : Planner.Job) (f : Planner.File) (fuel round : nat) :
  Planner.file job = Some f ->
  Planner.CHUNK_SIZE <= Planner.size f ->
  let run := Planner.uploadFileMultipart w job (S fuel) round in
  (exists (uploadId : option string) (cs : list nat),
      Z.of_nat (length cs) <= Planner.totalParts f
      /\ Forall (fun c => (1 <= c <= 3)%nat) cs
      /\ Planner.wire (fst run) = Planner.attempts job f uploadId 0 cs
      /\ (forall k c,
            1 <= k ->
            cs !! Z.to_nat (k - 1) = Some c ->
            (Planner.retryableFailure (Planner.uploadPart w k 0) = true -> (2 <= c)%nat)
            /\ (Planner.retryableFailure (Planner.uploadPart w k 0) = true ->
                Planner.retryableFailure (Planner.uploadPart w k 1) = true ->
                c = 3%nat)
            /\ ((c < 3)%nat ->
                exists r, Planner.uploadPart w k (pred c) = Planner.Resolves r
                          /\ Planner.ok r = true))
      /\ (snd (Planner.checkExisting w job round) = true ->
          (exists r j, Planner.create w = Planner.Resolves r /\ Planner.json r = Some j) ->
          forall k, 1 <= k <= Planner.totalParts f ->
            (forall j, 1 <= j < k ->
               Planner.urlLength w j <= 15000 /\ exists e, Planner.storedWith w j e) ->
            Planner.urlLength w k <= 15000 ->
            exists c, cs !! Z.to_nat (k - 1) = Some c))
  /\ (forall k,
        1 <= k <= Planner.totalParts f ->
        snd (Planner.checkExisting w job round) = true ->
        Planner.exhausted w k ->
        snd run = Planner.UploadFailed
        /\ Planner.completions (fst run) = []
        /\ Forall (fun m => m <= k) (Planner.partFetches (fst run))).
Proof.
  intros Hfile Hsize run. split.
  - destruct (run_attempts w job f fuel round Hfile Hsize)
      as (uploadId & cs & Hlen & Hwire & Hatt & _ & Hreach).
    exists uploadId, cs. split; [exact Hlen|]. split.
    { apply Forall_lookup. intros j c Hj. exact (proj1 (Hatt j c Hj)). }
    split; [exact Hwire|].
    split; [|exact Hreach].
    intros k c Hk Hc.
    pose proof (Hatt (Z.to_nat (k - 1)) c Hc) as (Hrange & Hfailed & Hlast).
    replace (1 + Z.of_nat (Z.to_nat (k - 1))) with k in * by lia.
    assert (Hclash : forall a r,
              Planner.retryableFailure (Planner.uploadPart w k a) = true ->
              Planner.uploadPart w k a = Planner.Resolves r ->
              Planner.ok r = true -> False).
    { intros a r Hretry Hres Hok. rewrite Hres in Hretry.
      destruct (retryable_tests r Hretry) as (Hno & _). congruence. }
    split; [|split; [|exact Hlast]].
    + intros H0. destruct c as [|[|c]]; [lia| |lia].
      destruct (Hlast ltac:(lia)) as (r & Hres & Hok). exfalso. eauto.
    + intros H0 H1. destruct c as [|[|[|c]]]; [lia| | |lia].
      * destruct (Hlast ltac:(lia)) as (r & Hres & Hok). exfalso. eauto.
      * destruct (Hlast ltac:(lia)) as (r & Hres & Hok). exfalso. eauto.
  - intros k Hk Hgo Hex. subst run.
    rewrite (uploadFileMultipart_session w job f fuel round Hfile Hsize Hgo).
    destruct (multipartSession_exhausted w job f k Hsize Hk Hex) as (Ho & Hc & Hf).
    destruct (checkExisting_quiet w job round) as [Hc0 Hf0].
    cbn [fst snd]. split; [exact Ho|].
    rewrite completions_app, partFetches_app, Hc0, Hf0, Hc. split; [reflexivity|exact Hf].
Qed.

Lemma retry_budget_and_backoff_witness :
  let run := Planner.uploadFileMultipart Scenarios.outageWorld
               (Scenarios.jobOf (Scenarios.MiB 12)) 1 0 in
  Planner.wire (fst run)
  = [Scenarios.send 0 (Scenarios.MiB 12);
     Scenarios.send 1 (Scenarios.MiB 12); Planner.EvSleep 2000;
     Scenarios.send 1 (Scenarios.MiB 12); Planner.EvSleep 3000;
     Scenarios.send 1 (Scenarios.MiB 12)]
  /\ (exists (uploadId : option string) (cs : list nat),
        Planner.wire (fst run)
        = Planner.attempts (Scenarios.jobOf (Scenarios.MiB 12))
            (Scenarios.video (Scenarios.MiB 12)) uploadId 0 cs
        /\ (forall c, cs !! 1%nat = Some c -> c = 3%nat)
        /\ exists c, cs !! 1%nat = Some c)
  /\ snd run = Planner.UploadFailed
  /\ Planner.completions (fst run) = []
  /\ Forall (fun m => m <= 2) (Planner.partFetches (fst run)).
Proof.
  intros run. split; [reflexivity|].
  destruct (retry_budget_and_backoff Scenarios.outageWorld
              (Scenarios.jobOf (Scenarios.MiB 12))
              (Scenarios.video (Scenarios.MiB 12)) 0 0 eq_refl
              ltac:(vm_compute; discriminate))
    as [(uploadId & cs & _ & _ & Hwire & Hparts & Hreach) Hexhausted].
  split.
  - exists uploadId, cs. split; [exact Hwire|].
    split.
    + intros c Hc.
      destruct (Hparts 2 c ltac:(lia) Hc) as (_ & Hthree & _).
      apply Hthree; reflexivity.
    + apply (Hreach eq_refl ltac:(eexists; eexists; split; reflexivity) 2).
      * vm_compute. split; discriminate.
      * intros j Hj. assert (j = 1) as -> by lia.
        split; [vm_compute; discriminate|].
        exists (Some "etag-1"), 0%nat. eexists; eexists.
        split; [lia|]. split; [intros b Hb; lia|].
        split; [reflexivity|]. split; [reflexivity|]. split; reflexivity.
      * vm_compute. discriminate.
  - apply (Hexhausted 2).
    + vm_compute. split; discriminate.
    + reflexivity.
    + intros a Ha. reflexivity.
Defined.

(** C6 as written fails: after a 503 the waits are 2 s and 3 s, not 1 s
    and 2 s. *)
Lemma backoff_waits_are_2s_3s :
  let run := Planner.uploadFileMultipart (Scenarios.partsAnswer 503)
               (Scenarios.jobOf (Scenarios.MiB 5)) 1 0 in
  Planner.partFetches (fst run) = [1; 1; 1]
  /\ Planner.sleeps (fst run) = [2000; 3000]
  /\ Planner.sleeps (fst run) <> [1000; 2000].
Proof. split; [reflexivity|]. split; [reflexivity|discriminate]. Qed.

(** C2, evaluated: a part answered 400 is fetched three times, with the
    waits of the retry loop in between, before the upload fails. *)
Theorem terminal_status_is_retried :
  let run := Planner.uploadFileMultipart (Scenarios.partsAnswer 400)
               (Scenarios.jobOf (Scenarios.MiB 10)) 1 0 in
  fst run
  = [ Planner.EvCheckAsset "video.mp4";
      Planner.EvCreate "video.mp4" "video/mp4";
      Scenarios.send 0 (Scenarios.MiB 10); Planner.EvSleep 2000;
      Scenarios.send 0 (Scenarios.MiB 10); Planner.EvSleep 3000;
      Scenarios.send 0 (Scenarios.MiB 10);
      Planner.failedAlert ]
  /\ Planner.partFetches (fst run) = [1; 1; 1]
  /\ snd run = Planner.UploadFailed.
Proof. split; [reflexivity|]. split; reflexivity. Qed.

(** The same for every answer the loop means to throw on: after a first
    answer that is neither ok nor retryable, a second fetch is made. *)
Lemma terminal_status_second_fetch (w : Planner.World) (send : Planner.Event)
    (n : Z) (r : Planner.Response) :
  Planner.uploadPart w n 0 = Planner.Resolves r ->
  400 <= Planner.status r < 500 ->
  Planner.status r <> 408 -> Planner.status r <> 429 ->
  exists t, fst (Planner.retryLoop w send n 3 0 None)
            = send :: Planner.EvSleep 2000 :: send :: t.
Proof.
  intros Hres Hrange H408 H429.
  pose proof (retryLoop_shape w send n) as Hshape. cbn zeta in Hshape.
  assert (Hne : fst (Planner.retryLoop w send n 3 0 None) <> [send]).
  { cbn [Planner.retryLoop]. rewrite Hres.
    assert (Hok : Planner.ok r = false).
    { unfold Planner.ok, JS.statusOk. destruct (Z.leb_spec (Planner.status r) 299); [lia|].
      apply andb_false_r. }
    rewrite Hok. change (Z.of_nat 2 =? 0) with false. cbn iota.
    destruct (Planner.status r =? 413);
      [rewrite fst_let; discriminate|].
    destruct (negb (Planner.status r =? 408) && negb (Planner.status r =? 429)
              && (Planner.status r <? 500)); rewrite fst_let; discriminate. }
  destruct Hshape as [H|[H|H]]; [contradiction| |]; rewrite H; eauto.
Qed.

(** C3, evaluated: create is answered 500 with an error body, and the
    Planner goes on to fetch part 1 three times under the session id
    [undefined]. *)
Theorem failed_create_still_uploads_parts :
  let run := Planner.uploadFileMultipart Scenarios.createFails
               (Scenarios.jobOf (Scenarios.MiB 5)) 1 0 in
  Planner.failedAttempt (Planner.create Scenarios.createFails) = true
  /\ filter (fun e => bool_decide (Planner.isCreate e = true)) (fst run)
     = [Planner.EvCreate "video.mp4" "video/mp4"]
  /\ Planner.partFetches (fst run) = [1; 1; 1]
  /\ Planner.partFetchIds (fst run) = ["undefined"; "undefined"; "undefined"]
  /\ snd run = Planner.UploadFailed.
Proof. repeat split; reflexivity. Qed.

(* ===================================================================== *)
(** ** Hand-overs between the simple and the multipart path *)
(* ===================================================================== *)

Section Dispatch.
Import Planner.

Let w := Scenarios.calmWorld.
Let job := Scenarios.jobOf (Scenarios.MiB 3).

Lemma three_MiB_below_chunk : (Scenarios.MiB 3 <? CHUNK_SIZE) = true.
Proof. reflexivity. Qed.

Lemma three_MiB_above_threshold : (Scenarios.MiB 3 >? FILE_SIZE_THRESHOLD) = true.
Proof. reflexivity. Qed.

Lemma dispatch_3MiB_idle (fuel : nat) :
  forall round,
    idle (uploadFileMultipart w job fuel round)
    /\ idle (uploadFileSimple w job fuel round).
Proof.
  induction fuel as [|fuel IH]; intros round.
  - split; split; (reflexivity || constructor).
  - destruct (IH (S round)) as [IHm IHs]. split.
    + cbn [uploadFileMultipart uploadFileSimple].
      change (file job) with (Some (Scenarios.video (Scenarios.MiB 3))). cbn iota.
      change (checkExisting w job round) with ([EvCheckAsset "video.mp4"], true).
      cbn iota beta. cbn [negb].
      change (size (Scenarios.video (Scenarios.MiB 3))) with (Scenarios.MiB 3).
      rewrite three_MiB_below_chunk.
      destruct (uploadFileSimple w job fuel (S round)) as [t o].
      destruct IHs as [Ho Ht]. cbn [fst snd] in *. split; [exact Ho|].
      constructor; [reflexivity|exact Ht].
    + cbn [uploadFileMultipart uploadFileSimple].
      change (file job) with (Some (Scenarios.video (Scenarios.MiB 3))). cbn iota.
      change (size (Scenarios.video (Scenarios.MiB 3))) with (Scenarios.MiB 3).
      rewrite three_MiB_above_threshold. exact IHm.
Qed.

End Dispatch.

(** C7, evaluated: for a 3 MiB file whose key is free (each round awaits
    check-asset), the multipart path hands over to the simple path,
    which hands back to the multipart path, and so on: whatever the
    number of hand-overs allowed, the run has not ended, and all it has
    done is ask check-asset; neither a session nor a single-shot upload
    is ever requested. *)
Theorem three_MiB_file_is_never_uploaded :
  forall fuel round,
    let run := Planner.uploadFileMultipart Scenarios.calmWorld
                 (Scenarios.jobOf (Scenarios.MiB 3)) fuel round in
    snd run = Planner.OutOfFuel
    /\ Forall (fun e => Planner.isCheckAsset e = true) (fst run)
    /\ filter (fun e => bool_decide (Planner.isUpload e = true)) (fst run) = []
    /\ filter (fun e => bool_decide (Planner.isCreate e = true)) (fst run) = [].
Proof.
  intros fuel round run. subst run.
  destruct (dispatch_3MiB_idle fuel round) as [[Ho Ht] _].
  split; [exact Ho|]. split; [exact Ht|].
  induction Ht as [|e t He _ IH]; [split; reflexivity|].
  destruct e; try discriminate He. cbn. exact IH.
Qed.

(** Files of at most 1 MiB do leave the multipart path for one
    single-shot upload, and files of 5 MiB or more are not handed over. *)
Example half_MiB_goes_single_shot :
  Planner.uploadFileMultipart Scenarios.calmWorld (Scenarios.jobOf 524288) 2 0
  = ([Planner.EvCheckAsset "video.mp4"; Planner.EvCheckAsset "video.mp4";
      Planner.EvUpload "video.mp4"; Planner.successAlert],
     Planner.Uploaded).
Proof. reflexivity. Qed.

Lemma small_file_goes_single_shot (w : Planner.World) (job : Planner.Job)
    (f : Planner.File) (fuel round : nat) :
  Planner.file job = Some f ->
  Planner.size f <= Planner.FILE_SIZE_THRESHOLD ->
  snd (Planner.checkExisting w job round) = true ->
  snd (Planner.checkExisting w job (S round)) = true ->
  (exists r, Planner.upload w (S round) = Planner.Resolves r /\ Planner.ok r = true) ->
  Planner.uploadFileMultipart w job (S (S fuel)) round
  = (fst (Planner.checkExisting w job round)
       ++ fst (Planner.checkExisting w job (S round))
       ++ [Planner.EvUpload (Planner.finalKey job); Planner.successAlert],
     Planner.Uploaded).
Proof.
  intros Hfile Hsize Hgo Hgo' (r & Hup & Hok).
  cbn [Planner.uploadFileMultipart Planner.uploadFileSimple]. rewrite Hfile.
  destruct (Planner.checkExisting w job round) as [t0 go0].
  destruct (Planner.checkExisting w job (S round)) as [t1 go1].
  cbn [fst snd] in *. subst go0 go1. cbn [negb].
  assert (Hc : Planner.FILE_SIZE_THRESHOLD < Planner.CHUNK_SIZE) by reflexivity.
  destruct (Z.ltb_spec (Planner.size f) Planner.CHUNK_SIZE); [|lia].
  destruct (Z.gtb_spec (Planner.size f) Planner.FILE_SIZE_THRESHOLD); [lia|].
  rewrite Hup.
  assert (H413 : (Planner.status r =? 413) = false).
  { unfold Planner.ok, JS.statusOk in Hok. apply Z.eqb_neq. lia. }
  rewrite H413, Hok. reflexivity.
Qed.

(* ===================================================================== *)
(** ** Coordinator: authentication *)
(* ===================================================================== *)

Section Authentication.
Import Coordinator.

(** [POST] answers 401 to an anonymous caller without touching the
    bucket; this covers create, complete and upload-part by [POST]. *)
Lemma POST_requires_authentication env req :
  String.eqb (method req) "OPTIONS" = false ->
  authenticated req = false ->
  POST env req = (error "Authentication required" 401, []).
Proof. intros Hm Ha. unfold POST. rewrite Hm, Ha. reflexivity. Qed.

(** So does [PUT], the upload-part operation. *)
Lemma PUT_requires_authentication env req :
  String.eqb (method req) "OPTIONS" = false ->
  authenticated req = false ->
  PUT env req = (error "Authentication required" 401, []).
Proof. intros Hm Ha. unfold PUT, handleUploadPart. rewrite Hm, Ha. reflexivity. Qed.

(** [DELETE] never answers 401. *)
Lemma DELETE_never_401 env req : status (fst (DELETE env req)) <> 401.
Proof.
  unfold DELETE.
  destruct (String.eqb (method req) "OPTIONS"); [discriminate|].
  destruct (CLOUD_FILES env) as [bucket|]; [|discriminate].
  destruct (negb (bool_decide (action req = Some "abort"))); [discriminate|].
  destruct (JS.get "uploadId" (searchParams req)) as [[|c u]|]; try discriminate.
  destruct (JS.get "key" (searchParams req)) as [[|c' k]|]; try discriminate.
  destruct (abort bucket (String c' k) (String c u)); discriminate.
Qed.

End Authentication.

(** C1, evaluated: an anonymous [DELETE ?action=abort] is not answered
    401; it reaches the bucket's abort primitive and is answered 200,
    while the same caller is answered 401 by [POST] and [PUT]. *)
Theorem abort_skips_authentication :
  Coordinator.authenticated Scenarios.anonymousAbort = false
  /\ Coordinator.DELETE Scenarios.boundEnv Scenarios.anonymousAbort
     = (Coordinator.success (Coordinator.Aborted "Multipart upload aborted successfully"),
        [Coordinator.CallResume "video.mp4" "session-1";
         Coordinator.CallAbort "video.mp4" "session-1"])
  /\ (forall env req, Coordinator.status (fst (Coordinator.DELETE env req)) <> 401)
  /\ Coordinator.POST Scenarios.boundEnv Scenarios.anonymousCreate
     = (Coordinator.error "Authentication required" 401, []).
Proof.
  split; [reflexivity|]. split; [reflexivity|].
  split; [exact DELETE_never_401|reflexivity].
Qed.

(* ===================================================================== *)
(** ** Coordinator: the parameters of upload-part *)
(* ===================================================================== *)

Section UploadPartParameters.
Import Coordinator.

(** Only part numbers that [parseInt] reads as a number of at least 1
    reach the bucket's [uploadPart]. *)
Lemma uploadPart_call_has_parsed_number env req key uploadId n data :
  In (CallUploadPart key uploadId n data) (snd (handleUploadPart env req)) ->
  JS.lessThanOne n = false /\ exists s, JS.parseInt s = Some n.
Proof.
  unfold handleUploadPart.
  destruct (String.eqb (method req) "OPTIONS"); [intros []|].
  destruct (negb (authenticated req)); [intros []|].
  destruct (CLOUD_FILES env) as [bucket|]; [|intros []].
  destruct (negb (bool_decide (action req = Some "upload-part"))); [intros []|].
  destruct (uploadPartParams req) as [[[u p] k] used].
  destruct u as [u|]; [|intros []].
  destruct p as [p|]; [|intros []].
  destruct k as [k|]; [|intros []].
  destruct (negb (JS.nonEmpty u) || negb (JS.nonEmpty p) || negb (JS.nonEmpty k));
    [intros []|].
  destruct (JS.parseInt p) as [m|] eqn:Hparse; [|intros []].
  destruct (JS.lessThanOne m) eqn:Hge; [intros []|].
  destruct (body req) as [buf|]; [|intros []].
  destruct used; [cbn; intros [H|[]]; discriminate H|].
  destruct (uploadPart bucket k u m buf); cbn;
    (intros [H|[H|[]]]; [discriminate H|]); inversion H; subst; eauto.
Qed.

Lemma invalid_part_numbers_rejected :
  forall s, In s ["abc"; "0"; "-1"; ".5"; " "] ->
    PUT Scenarios.boundEnv (Scenarios.putPart s) = (error "Invalid part number" 400, []).
Proof.
  intros s Hs. cbn in Hs.
  destruct Hs as [<-|[<-|[<-|[<-|[<-|[]]]]]]; reflexivity.
Qed.

End UploadPartParameters.

(** C5, evaluated: the part number [2.5] is not rejected; [parseInt]
    reads it as 2 and the chunk is stored as part 2. *)
Theorem fractional_part_number_reaches_bucket :
  JS.parseInt "2.5" = Some (JS.Finite 2)
  /\ Coordinator.PUT Scenarios.boundEnv (Scenarios.putPart "2.5")
     = (Coordinator.success (Coordinator.PartStored 2 "etag"),
        [Coordinator.CallResume "video.mp4" "session-1";
         Coordinator.CallUploadPart "video.mp4" "session-1" 2 Scenarios.chunk])
  /\ Coordinator.PUT Scenarios.boundEnv (Scenarios.putPart "3abc")
     = (Coordinator.success (Coordinator.PartStored 3 "etag"),
        [Coordinator.CallResume "video.mp4" "session-1";
         Coordinator.CallUploadPart "video.mp4" "session-1" 3 Scenarios.chunk]).
Proof. split; [reflexivity|]. split; reflexivity. Qed.

(** C4 as written fails: with session, key and part number in both the
    URL and the body, the URL values are used and the body is not read;
    with the key missing from the URL, only the key comes from the body. *)
Lemma url_values_win_over_body_values :
  JS.get "uploadId" (Coordinator.searchParams Scenarios.bothEncodings) = Some "url-session"
  /\ (Coordinator.formData Scenarios.bothEncodings ≫= JS.get "uploadId") = Some "body-session"
  /\ Coordinator.uploadPartParams Scenarios.bothEncodings
     = (Some "url-session", Some "1", Some "url-key", false)
  /\ Coordinator.handleUploadPart Scenarios.boundEnv Scenarios.bothEncodings
     = (Coordinator.success (Coordinator.PartStored 1 "etag"),
        [Coordinator.CallResume "url-key" "url-session";
         Coordinator.CallUploadPart "url-key" "url-session" 1 Scenarios.chunk])
  /\ Coordinator.uploadPartParams Scenarios.keyInBodyOnly
     = (Some "url-session", Some "1", Some "body-key", true).
Proof. repeat split; reflexivity. Qed.

(** C4, as the code has it.  Session id, part number and key are taken
    from the URL; whenever one of them is present there, the URL value
    is used, whatever the body says.  The body is read exactly when
    some parameter is missing from the URL and the content type names
    [multipart/form-data] and not [application/json]; it is not read
    when all three are in the URL, nor for any other content type, and
    then the three values are those of the URL.  When the body is read
    it supplies only the missing ones, and none when it cannot be
    parsed. *)
Theorem upload_part_parameters_prefer_url (req : Coordinator.Request) :
  let q name := JS.get name (Coordinator.searchParams req) in
  let contentType := default "" (Coordinator.contentType req) in
  let '(uploadId, partNumberStr, key, bodyRead) := Coordinator.uploadPartParams req in
  (JS.truthy (q "uploadId") = true -> uploadId = q "uploadId")
  /\ (JS.truthy (q "partNumber") = true -> partNumberStr = q "partNumber")
  /\ (JS.truthy (q "key") = true -> key = q "key")
  /\ (JS.truthy (q "uploadId") && JS.truthy (q "partNumber") && JS.truthy (q "key") = true ->
      bodyRead = false)
  /\ (bodyRead = true <->
      JS.truthy (q "uploadId") && JS.truthy (q "partNumber") && JS.truthy (q "key") = false
      /\ JS.includes contentType "application/json" = false
      /\ JS.includes contentType "multipart/form-data" = true)
  /\ (bodyRead = false ->
      uploadId = q "uploadId" /\ partNumberStr = q "partNumber" /\ key = q "key")
  /\ (bodyRead = true ->
      Coordinator.formData req = None ->
      uploadId = q "uploadId" /\ partNumberStr = q "partNumber" /\ key = q "key")
  /\ (forall form,
        bodyRead = true ->
        Coordinator.formData req = Some form ->
        uploadId = JS.orElse (q "uploadId") (JS.get "uploadId" form)
        /\ partNumberStr = JS.orElse (q "partNumber") (JS.get "partNumber" form)
        /\ key = JS.orElse (q "key") (JS.get "key" form)).
Proof.
  intros q contentType. unfold Coordinator.uploadPartParams.
  fold (q "uploadId") (q "partNumber") (q "key"). fold contentType.
  destruct (JS.truthy (q "uploadId")) eqn:Hu, (JS.truthy (q "partNumber")) eqn:Hp,
    (JS.truthy (q "key")) eqn:Hk; cbn [negb orb andb];
    try (destruct (JS.includes contentType "application/json"));
    try (destruct (JS.includes contentType "multipart/form-data"));
    try (destruct (Coordinator.formData req) as [form0|]);
    repeat split; intros; unfold JS.orElse; rewrite ?Hu, ?Hp, ?Hk;
    repeat match goal with
           | H : _ /\ _ |- _ => destruct H
           end;
    congruence.
Qed.

Lemma upload_part_parameters_prefer_url_witness :
  Coordinator.uploadPartParams Scenarios.keyInBodyOnly
  = (Some "url-session", Some "1", Some "body-key", true)
  /\ JS.includes (default "" (Coordinator.contentType Scenarios.keyInBodyOnly))
                 "multipart/form-data" = true
  /\ Some "url-session"
     = JS.orElse (Some "url-session") (Some "body-session").
Proof.
  split; [reflexivity|].
  pose proof (upload_part_parameters_prefer_url Scenarios.keyInBodyOnly) as H.
  cbn zeta in H.
  change (Coordinator.uploadPartParams Scenarios.keyInBodyOnly)
    with (Some "url-session", Some "1", Some "body-key", true) in H.
  cbn iota beta in H.
  destruct H as (Hu & _ & _ & _ & Hread & _ & _ & Hform).
  destruct (proj1 Hread eq_refl) as (_ & _ & Hmultipart).
  split; [exact Hmultipart|].
  destruct (Hform [("uploadId", "body-session"); ("key", "body-key"); ("partNumber", "2")]
              eq_refl eq_refl) as (Hid & _ & _).
  exact Hid.
Defined.

(** A request that has to take a parameter from its form body has had
    its body read by [formData()]; [arrayBuffer()] then throws and the
    part is not stored. *)
Example form_body_request_is_answered_400 :
  Coordinator.handleUploadPart Scenarios.boundEnv Scenarios.keyInBodyOnly
  = (Coordinator.error Coordinator.bodyUsedMessage 400,
     [Coordinator.CallResume "body-key" "url-session"]).
Proof. reflexivity. Qed.

(* ===================================================================== *)
(** ** Single-shot upload: overwriting *)
(* ===================================================================== *)

Section Overwrite.
Import Upload.

(** A well-formed upload by a logged-in caller: one [put] on the
    computed key, and the answer that follows from its outcome. *)
Lemma POST_well_formed bucket req form file customKey folder :
  String.eqb (method req) "OPTIONS" = false ->
  authenticated req = true ->
  formData req = Some form ->
  JS.get "file" form = Some (Blob file) ->
  stringField form "key" = Some customKey ->
  stringField form "folder" = Some folder ->
  let key := filename file customKey (default "" (JS.orElse folder (Some ""))) in
  let outcome := put bucket (objects bucket) key file (type file) in
  POST {| CLOUD_FILES := Some bucket |} req
  = (answer key file (fst outcome), Some (snd outcome), [CallPut key file (type file)]).
Proof.
  intros Hm Ha Hform Hfile Hkey Hfolder key outcome.
  unfold POST. cbn [CLOUD_FILES]. rewrite Hm, Ha, Hform, Hfile, Hkey, Hfolder.
  cbn [negb]. fold key. fold outcome. destruct outcome as [object after]. reflexivity.
Qed.

(** The route has no conflict answer of its own. *)
Lemma POST_never_conflict env req : status (fst (fst (POST env req))) <> 409.
Proof.
  unfold POST.
  destruct (String.eqb (method req) "OPTIONS"); [discriminate|].
  destruct (negb (authenticated req)); [discriminate|].
  destruct (CLOUD_FILES env) as [bucket|]; [|discriminate].
  destruct (formData req) as [form|]; [|discriminate].
  destruct (JS.get "file" form) as [[s|file]|]; try discriminate.
  destruct (stringField form "key") as [customKey|]; [|discriminate].
  destruct (stringField form "folder") as [folder|]; [|discriminate].
  destruct (put bucket (objects bucket) _ file (type file)) as [[[object|]|message] after];
    discriminate.
Qed.

(** Every request is answered after no call on the bucket and with
    another status than 200, or after one [put]. *)
Lemma POST_cases bucket req :
  (status (fst (fst (POST {| CLOUD_FILES := Some bucket |} req))) <> 200
   /\ snd (fst (POST {| CLOUD_FILES := Some bucket |} req)) = Some (objects bucket)
   /\ snd (POST {| CLOUD_FILES := Some bucket |} req) = [])
  \/ exists key file,
       POST {| CLOUD_FILES := Some bucket |} req
       = (answer key file (fst (put bucket (objects bucket) key file (type file))),
          Some (snd (put bucket (objects bucket) key file (type file))),
          [CallPut key file (type file)]).
Proof.
  unfold POST. cbn [CLOUD_FILES fmap option_fmap option_map].
  destruct (String.eqb (method req) "OPTIONS");
    [left; split; [discriminate|split; reflexivity]|].
  destruct (negb (authenticated req));
    [left; split; [discriminate|split; reflexivity]|].
  destruct (formData req) as [form|];
    [|left; split; [discriminate|split; reflexivity]].
  destruct (JS.get "file" form) as [[s|file]|];
    try (left; split; [discriminate|split; reflexivity]).
  destruct (stringField form "key") as [customKey|];
    [|left; split; [discriminate|split; reflexivity]].
  destruct (stringField form "folder") as [folder|];
    [|left; split; [discriminate|split; reflexivity]].
  right. exists (filename file customKey (default "" (JS.orElse folder (Some "")))), file.
  destruct (put bucket (objects bucket) _ file (type file)) as [object after].
  reflexivity.
Qed.

End Overwrite.

Section Advisory.
Import Planner.

(** The existence check of the browser: when check-asset reports the
    key as taken, the dialog decides whether [/api/upload] is called. *)
Lemma declined_replace_sends_nothing w job f fuel round r j :
  file job = Some f ->
  size f <= FILE_SIZE_THRESHOLD ->
  JS.nonEmpty (finalKey job) = true -> replacingKey job = false ->
  checkAsset w round = Resolves r -> ok r = true ->
  json r = Some j -> exists_ j = true ->
  confirm w round = false ->
  uploadFileSimple w job (S fuel) round
  = ([EvCheckAsset (finalKey job); EvConfirm], Cancelled).
Proof.
  intros Hfile Hsize Hkey Hrep Hcheck Hok Hjson Hex Hconf.
  cbn [uploadFileSimple]. rewrite Hfile.
  destruct (Z.gtb_spec (size f) FILE_SIZE_THRESHOLD); [lia|].
  unfold checkExisting. rewrite Hkey, Hrep, Hcheck, Hok, Hjson, Hex, Hconf.
  reflexivity.
Qed.

End Advisory.

(** C10. The single-shot upload route writes the file under the computed
    key without looking at what is stored there.  For a well-formed
    upload by a logged-in caller the only call on the bucket is one
    [put] of the file on the computed key, with the content type as its
    only option and no condition, whatever the bucket holds; the answer
    is 200 when the [put] resolves to an object, 500 when it resolves
    to [null] or throws, and no request is answered 409.  On a bucket
    whose [put] writes through, the key holds the new file afterwards,
    whatever it held before, and all other keys are unchanged.  The
    only guard
    against replacing is in the browser: when check-asset reports the
    key as taken and the user declines, no upload request is sent. *)
Theorem simple_upload_overwrites
    (bucket : Upload.Bucket) (req : Upload.Request)
    (form : list (string * Upload.FormValue)) (file : Upload.File)
    (customKey folder : option string) :
  String.eqb (Upload.method req) "OPTIONS" = false ->
  Upload.authenticated req = true ->
  Upload.formData req = Some form ->
  JS.get "file" form = Some (Upload.Blob file) ->
  Upload.stringField form "key" = Some customKey ->
  Upload.stringField form "folder" = Some folder ->
  let key := Upload.filename file customKey (default "" (JS.orElse folder (Some ""))) in
  let outcome := Upload.put bucket (Upload.objects bucket) key file (Upload.type file) in
  let result := Upload.POST {| Upload.CLOUD_FILES := Some bucket |} req in
  result = (Upload.answer key file (fst outcome), Some (snd outcome),
            [Upload.CallPut key file (Upload.type file)])
  /\ (forall other : Upload.Bucket,
        snd (Upload.POST {| Upload.CLOUD_FILES := Some other |} req)
        = [Upload.CallPut key file (Upload.type file)])
  /\ (forall env' req', Upload.status (fst (fst (Upload.POST env' req'))) <> 409)
  /\ (Upload.writesThrough bucket ->
      forall object after,
        outcome = (Coordinator.Returns (Some object), after) ->
        fst (fst result)
        = Upload.success (Upload.Stored key (Upload.obj_key object)
                            (Upload.size file) (Upload.type file))
        /\ snd (fst result) = Some after
        /\ after !! key
           = Some {| Upload.body := Upload.content file;
                     Upload.contentType := Upload.type file |}
        /\ forall k, k <> key -> after !! k = Upload.objects bucket !! k)
  /\ (forall w job f fuel round,
        Planner.file job = Some f ->
        Planner.size f <= Planner.FILE_SIZE_THRESHOLD ->
        JS.nonEmpty (Planner.finalKey job) = true ->
        Planner.replacingKey job = false ->
        Planner.checkAsset w round = Scenarios.takenAnswer ->
        Planner.confirm w round = false ->
        Planner.uploadFileSimple w job (S fuel) round
        = ([Planner.EvCheckAsset (Planner.finalKey job); Planner.EvConfirm],
           Planner.Cancelled)).
Proof.
  intros Hm Ha Hform Hfile Hkey Hfolder key outcome result.
  assert (Hpost : forall b,
    Upload.POST {| Upload.CLOUD_FILES := Some b |} req
    = (Upload.answer key file
         (fst (Upload.put b (Upload.objects b) key file (Upload.type file))),
       Some (snd (Upload.put b (Upload.objects b) key file (Upload.type file))),
       [Upload.CallPut key file (Upload.type file)])).
  { intros b. exact (POST_well_formed b req form file customKey folder
                       Hm Ha Hform Hfile Hkey Hfolder). }
  split; [apply Hpost|].
  split; [intros other; rewrite Hpost; reflexivity|].
  split; [apply POST_never_conflict|].
  split.
  { intros Hlaw object after Hout.
    destruct (Hlaw _ _ _ _ _ _ Hout) as [Hnew Hrest].
    subst result. rewrite Hpost. fold outcome. rewrite Hout. cbn [fst snd Upload.answer].
    split; [reflexivity|]. split; [reflexivity|]. split; [exact Hnew|exact Hrest]. }
  intros w job f fuel round Hf Hsize Hk Hrep Hcheck Hconf.
  eapply declined_replace_sends_nothing; eauto; reflexivity.
Qed.

Lemma simple_upload_overwrites_witness :
  Upload.objects Scenarios.shelf !! "docs/report.pdf"
  = Some {| Upload.body := Scenarios.oldText; Upload.contentType := "application/pdf" |}
  /\ exists after,
       Upload.POST {| Upload.CLOUD_FILES := Some Scenarios.shelf |} Scenarios.postReport
       = (Upload.success (Upload.Stored "docs/report.pdf" "docs/report.pdf" 4 "application/pdf"),
          Some after,
          [Upload.CallPut "docs/report.pdf" (Scenarios.report Scenarios.newText)
             "application/pdf"])
       /\ after !! "docs/report.pdf"
          = Some {| Upload.body := Scenarios.newText; Upload.contentType := "application/pdf" |}.
Proof.
  split; [reflexivity|].
  assert (Hlaw : Upload.writesThrough Scenarios.shelf).
  { intros objects key file contentType object after Hput. cbn in Hput.
    inversion Hput; subst. split; [apply lookup_insert_eq|].
    intros k Hk. apply lookup_insert_ne. congruence. }
  destruct (simple_upload_overwrites Scenarios.shelf Scenarios.postReport
              [("file", Upload.Blob (Scenarios.report Scenarios.newText));
               ("folder", Upload.Text "/docs/")]
              (Scenarios.report Scenarios.newText) None (Some "/docs/")
              eq_refl eq_refl eq_refl eq_refl eq_refl eq_refl)
    as (Hpost & _ & _ & Hwrite & _).
  destruct (Hwrite Hlaw _ _ eq_refl) as (_ & _ & Hnew & _).
  eexists. split; [exact Hpost|exact Hnew].
Defined.

(** The same upload on a bucket whose [put] throws: the answer is 500,
    after the call on the bucket. *)
Example failed_put_is_answered_500 :
  Upload.POST {| Upload.CLOUD_FILES := Some (Scenarios.failing ∅) |} Scenarios.postReport
  = (Upload.error "Upload failed" 500, Some ∅,
     [Upload.CallPut "docs/report.pdf" (Scenarios.report Scenarios.newText)
        "application/pdf"]).
Proof. reflexivity. Qed.

(* ===================================================================== *)
(** ** Worked runs *)
(* ===================================================================== *)

(** The end-to-end scenario of the specification: 12 MiB in three parts,
    create, three upload-part requests over the planned byte ranges,
    complete. *)
Example run_calm_12MiB :
  Planner.uploadFileMultipart Scenarios.calmWorld (Scenarios.jobOf (Scenarios.MiB 12)) 1 0
  = ([ Planner.EvCheckAsset "video.mp4";
       Planner.EvCreate "video.mp4" "video/mp4";
       Planner.EvUploadPart "session-1" "video.mp4" 1 0 (Scenarios.MiB 5);
       Planner.EvProgress 1 3;
       Planner.EvUploadPart "session-1" "video.mp4" 2 (Scenarios.MiB 5) (Scenarios.MiB 10);
       Planner.EvProgress 2 3;
       Planner.EvUploadPart "session-1" "video.mp4" 3 (Scenarios.MiB 10) (Scenarios.MiB 12);
       Planner.EvProgress 3 3;
       Planner.EvComplete (Some "session-1") "video.mp4"
         [(1, Some "etag-1"); (2, Some "etag-2"); (3, Some "etag-3")];
       Planner.successAlert ],
     Planner.Uploaded).
Proof. reflexivity. Qed.

(** The dialog of the browser decides about replacing a taken key. *)
Example run_taken_key :
  Planner.uploadFileSimple (Scenarios.takenWorld false) (Scenarios.jobOf 524288) 1 0
  = ([Planner.EvCheckAsset "video.mp4"; Planner.EvConfirm], Planner.Cancelled)
  /\ Planner.uploadFileSimple (Scenarios.takenWorld true) (Scenarios.jobOf 524288) 1 0
     = ([Planner.EvCheckAsset "video.mp4"; Planner.EvConfirm;
         Planner.EvUpload "video.mp4"; Planner.successAlert],
        Planner.Uploaded).
Proof. split; reflexivity. Qed.

(** The key computed by the upload route. *)
Example filename_examples :
  Upload.filename (Scenarios.report []) None "/docs/" = "docs/report.pdf"
  /\ Upload.filename (Scenarios.report []) (Some " summary ") "a//b/" = "a/b/summary.pdf"
  /\ Upload.filename (Scenarios.report []) (Some "x/y.txt") "docs" = "x/y.txt"
  /\ Upload.filename (Scenarios.report []) (Some "notes.txt") "" = "notes.txt".
Proof. repeat split; reflexivity. Qed.

(* ===================================================================== *)
(** ** Coordinator: what every handler does on the bucket *)
(* ===================================================================== *)

Section CoordinatorCalls.
Import Coordinator.

Lemma handleUploadPart_protocol env req :
  Observe.protocol (snd (handleUploadPart env req)).
Proof.
  unfold handleUploadPart.
  destruct (String.eqb (method req) "OPTIONS"); [left; reflexivity|].
  destruct (negb (authenticated req)); [left; reflexivity|].
  destruct (CLOUD_FILES env) as [bucket|]; [|left; reflexivity].
  destruct (negb (bool_decide (action req = Some "upload-part"))); [left; reflexivity|].
  destruct (uploadPartParams req) as [[[u p] k] used].
  destruct u as [u|]; [|left; reflexivity].
  destruct p as [p|]; [|left; reflexivity].
  destruct k as [k|]; [|left; reflexivity].
  destruct u as [|cu u]; [left; reflexivity|].
  destruct p as [|cp p]; [left; reflexivity|].
  destruct k as [|ck k]; [left; reflexivity|].
  cbn [JS.nonEmpty negb orb].
  destruct (JS.parseInt (String cp p)) as [m|]; [|left; reflexivity].
  destruct (JS.lessThanOne m) eqn:Hge; [left; reflexivity|].
  destruct (body req) as [buf|]; [|left; reflexivity].
  right; right. exists (String ck k), (String cu u).
  split; [discriminate|]. split; [discriminate|].
  destruct used; [left; reflexivity|].
  right. exists (CallUploadPart (String ck k) (String cu u) m buf).
  split; [cbn; auto|].
  destruct (uploadPart bucket (String ck k) (String cu u) m buf); reflexivity.
Qed.

Lemma POST_protocol env req : Observe.protocol (snd (POST env req)).
Proof.
  unfold POST.
  destruct (String.eqb (method req) "OPTIONS"); [left; reflexivity|].
  destruct (negb (authenticated req)); [left; reflexivity|].
  destruct (CLOUD_FILES env) as [bucket|] eqn:Hb; [|left; reflexivity].
  destruct (negb (JS.truthy (action req))); [left; reflexivity|].
  destruct (bool_decide (action req = Some "create")).
  { destruct (parseRequestData req) as [d|m]; [|left; reflexivity].
    destruct (j_key d) as [[|c k]|]; try (left; reflexivity).
    right; left. exists (String c k).
    eexists. split; [discriminate|].
    destruct (createMultipartUpload bucket (String c k) _) as [[k' u']|m]; reflexivity. }
  destruct (bool_decide (action req = Some "get-upload-url")).
  { destruct (parseRequestData req) as [d|m]; [|left; reflexivity].
    destruct (j_uploadId d) as [[|cu u]|]; try (left; reflexivity).
    destruct (j_key d) as [[|ck k]|]; try (left; reflexivity).
    destruct (negb (truthyNumber (j_partNumber d))); [left; reflexivity|].
    right; right. exists (String ck k), (String cu u).
    split; [discriminate|]. split; [discriminate|]. left; reflexivity. }
  destruct (bool_decide (action req = Some "upload-part")).
  { apply handleUploadPart_protocol. }
  destruct (bool_decide (action req = Some "complete")); [|left; reflexivity].
  destruct (parseRequestData req) as [d|m]; [|left; reflexivity].
  destruct (j_uploadId d) as [[|cu u]|]; try (left; reflexivity).
  destruct (j_key d) as [[|ck k]|]; try (left; reflexivity).
  destruct (j_parts d) as [parts|]; [|left; reflexivity].
  right; right. exists (String ck k), (String cu u).
  split; [discriminate|]. split; [discriminate|].
  right. exists (CallComplete (String ck k) (String cu u) parts).
  split; [cbn; auto|].
  destruct (complete bucket (String ck k) (String cu u) parts); reflexivity.
Qed.

Lemma DELETE_protocol env req : Observe.protocol (snd (DELETE env req)).
Proof.
  unfold DELETE.
  destruct (String.eqb (method req) "OPTIONS"); [left; reflexivity|].
  destruct (CLOUD_FILES env) as [bucket|]; [|left; reflexivity].
  destruct (negb (bool_decide (action req = Some "abort"))); [left; reflexivity|].
  destruct (JS.get "uploadId" (searchParams req)) as [[|cu u]|]; try (left; reflexivity).
  destruct (JS.get "key" (searchParams req)) as [[|ck k]|]; try (left; reflexivity).
  right; right. exists (String ck k), (String cu u).
  split; [discriminate|]. split; [discriminate|].
  right. exists (CallAbort (String ck k) (String cu u)).
  split; [cbn; auto|].
  destruct (abort bucket (String ck k) (String cu u)); reflexivity.
Qed.

End CoordinatorCalls.

(** X1. Whatever the request, a handler of the multipart route makes no
    call on the bucket, or one create for a non-empty key, or one resume
    for a non-empty key and session id followed by at most one primitive
    (upload-part with a part number of at least 1, complete, abort) of
    that same key and session. *)
Theorem multipart_route_call_protocol :
  forall env req,
    Observe.protocol (snd (Coordinator.POST env req))
    /\ Observe.protocol (snd (Coordinator.PUT env req))
    /\ Observe.protocol (snd (Coordinator.DELETE env req)).
Proof.
  intros env req. split; [apply POST_protocol|].
  split; [apply handleUploadPart_protocol|apply DELETE_protocol].
Qed.

(** X2. [POST] and [PUT] touch the bucket only for a logged-in caller
    with the bucket bound: every other request gets its answer without
    any call on the bucket. *)
Theorem post_and_put_calls_need_login :
  forall env req,
    (snd (Coordinator.POST env req) = []
     \/ (Coordinator.authenticated req = true
         /\ is_Some (Coordinator.CLOUD_FILES env)))
    /\ (snd (Coordinator.PUT env req) = []
        \/ (Coordinator.authenticated req = true
            /\ is_Some (Coordinator.CLOUD_FILES env))).
Proof.
  intros env req. unfold Coordinator.PUT, Coordinator.POST, Coordinator.handleUploadPart.
  destruct (String.eqb (Coordinator.method req) "OPTIONS"); [split; left; reflexivity|].
  destruct (Coordinator.authenticated req); [|split; left; reflexivity].
  destruct (Coordinator.CLOUD_FILES env) as [bucket|]; [|split; left; reflexivity].
  split; right; split; eauto.
Qed.

(** X3. Upload-part by [POST] is upload-part by [PUT]: for a request
    whose action is upload-part both methods give the same answer and
    make the same calls. *)
Theorem post_upload_part_is_put (env : Coordinator.Env) (req : Coordinator.Request) :
  Coordinator.action req = Some "upload-part" ->
  Coordinator.POST env req = Coordinator.PUT env req.
Proof.
  intros Hact. unfold Coordinator.POST, Coordinator.PUT.
  destruct (String.eqb (Coordinator.method req) "OPTIONS") eqn:Hm;
    [unfold Coordinator.handleUploadPart; rewrite Hm; reflexivity|].
  destruct (negb (Coordinator.authenticated req)) eqn:Ha;
    [unfold Coordinator.handleUploadPart; rewrite Hm, Ha; reflexivity|].
  destruct (Coordinator.CLOUD_FILES env) as [bucket|] eqn:Hb;
    [|unfold Coordinator.handleUploadPart; rewrite Hm, Ha, Hb; reflexivity].
  rewrite Hact. reflexivity.
Qed.

Lemma post_upload_part_is_put_witness :
  Coordinator.POST Scenarios.boundEnv Scenarios.bothEncodings
  = Coordinator.PUT Scenarios.boundEnv Scenarios.bothEncodings.
Proof. apply post_upload_part_is_put. reflexivity. Defined.

(* ===================================================================== *)
(** ** Coordinator: answers after a bucket primitive *)
(* ===================================================================== *)

Section CoordinatorRelay.
Import Coordinator.

Variable env : Env.
Variable req : Request.
Variable bucket : Bucket.
Hypothesis bound : CLOUD_FILES env = Some bucket.

Lemma handleUploadPart_relays key uploadId n data :
  snd (handleUploadPart env req)
    = [CallResume key uploadId; CallUploadPart key uploadId n data] ->
  fst (handleUploadPart env req)
    = match uploadPart bucket key uploadId n data with
      | Returns part => success (PartStored (partNumber part) (etag part))
      | Throws message => error (messageOr message "Failed to upload part") 400
      end.
Proof.
  unfold handleUploadPart. rewrite bound.
  destruct (String.eqb (method req) "OPTIONS"); [discriminate|].
  destruct (negb (authenticated req)); [discriminate|].
  destruct (negb (bool_decide (action req = Some "upload-part"))); [discriminate|].
  destruct (uploadPartParams req) as [[[u p] k] used].
  destruct u as [u|]; [|discriminate].
  destruct p as [p|]; [|discriminate].
  destruct k as [k|]; [|discriminate].
  destruct (negb (JS.nonEmpty u) || negb (JS.nonEmpty p) || negb (JS.nonEmpty k));
    [discriminate|].
  destruct (JS.parseInt p) as [m|]; [|discriminate].
  destruct (JS.lessThanOne m); [discriminate|].
  destruct (body req) as [buf|]; [|discriminate].
  destruct used; [discriminate|].
  destruct (uploadPart bucket k u m buf) eqn:Hup; cbn [fst snd];
    intros H; inversion H; subst; rewrite Hup; reflexivity.
Qed.

Lemma POST_complete_relays key uploadId parts :
  snd (POST env req)
    = [CallResume key uploadId; CallComplete key uploadId parts] ->
  fst (POST env req)
    = match complete bucket key uploadId parts with
      | Returns object =>
          success (Completed (obj_key object) (httpEtag object) (size object))
      | Throws message =>
          error (messageOr message "Failed to complete multipart upload") 400
      end.
Proof.
  intros Hcalls.
  assert (Hnot : snd (handleUploadPart env req)
                 <> [CallResume key uploadId; CallComplete key uploadId parts]).
  { intros Hup. pose proof (handleUploadPart_protocol env req) as Hp.
    rewrite Hup in Hp. clear Hcalls.
    unfold handleUploadPart in Hup. rewrite bound in Hup.
    destruct (String.eqb (method req) "OPTIONS"); [discriminate|].
    destruct (negb (authenticated req)); [discriminate|].
    destruct (negb (bool_decide (action req = Some "upload-part"))); [discriminate|].
    destruct (uploadPartParams req) as [[[u p] k] used].
    destruct u as [u|]; [|discriminate].
    destruct p as [p|]; [|discriminate].
    destruct k as [k|]; [|discriminate].
    destruct (negb (JS.nonEmpty u) || negb (JS.nonEmpty p) || negb (JS.nonEmpty k));
      [discriminate|].
    destruct (JS.parseInt p) as [m|]; [|discriminate].
    destruct (JS.lessThanOne m); [discriminate|].
    destruct (body req) as [buf|]; [|discriminate].
    destruct used; [discriminate|].
    destruct (uploadPart bucket k u m buf); discriminate. }
  revert Hcalls. unfold POST. rewrite bound.
  destruct (String.eqb (method req) "OPTIONS"); [discriminate|].
  destruct (negb (authenticated req)); [discriminate|].
  destruct (negb (JS.truthy (action req))); [discriminate|].
  destruct (bool_decide (action req = Some "create")).
  { destruct (parseRequestData req) as [d|m]; [|discriminate].
    destruct (j_key d) as [[|c k]|]; try discriminate.
    destruct (createMultipartUpload bucket (String c k) _) as [[k' u']|m]; discriminate. }
  destruct (bool_decide (action req = Some "get-upload-url")).
  { destruct (parseRequestData req) as [d|m]; [|discriminate].
    destruct (j_uploadId d) as [[|cu u]|]; try discriminate.
    destruct (j_key d) as [[|ck k]|]; try discriminate.
    destruct (negb (truthyNumber (j_partNumber d))); discriminate. }
  destruct (bool_decide (action req = Some "upload-part")); [intros H; contradiction|].
  destruct (bool_decide (action req = Some "complete")); [|discriminate].
  destruct (parseRequestData req) as [d|m]; [|discriminate].
  destruct (j_uploadId d) as [[|cu u]|]; try discriminate.
  destruct (j_key d) as [[|ck k]|]; try discriminate.
  destruct (j_parts d) as [ps|]; [|discriminate].
  destruct (complete bucket (String ck k) (String cu u) ps) eqn:Hc; cbn [fst snd];
    intros H; inversion H; subst; rewrite Hc; reflexivity.
Qed.

Lemma POST_create_relays key contentType :
  snd (POST env req) = [CallCreate key contentType] ->
  fst (POST env req)
    = match createMultipartUpload bucket key contentType with
      | Returns (k, uploadId) => success (Created k uploadId)
      | Throws _ => error "Failed to create multipart upload" 500
      end.
Proof.
  intros Hcalls.
  assert (Hnot : snd (handleUploadPart env req) <> [CallCreate key contentType]).
  { intros Hup. pose proof (handleUploadPart_protocol env req) as Hp.
    rewrite Hup in Hp.
    destruct Hp as [Hp|[Hp|Hp]]; [discriminate| |].
    - clear Hcalls. unfold handleUploadPart in Hup. rewrite bound in Hup.
      destruct (String.eqb (method req) "OPTIONS"); [discriminate|].
      destruct (negb (authenticated req)); [discriminate|].
      destruct (negb (bool_decide (action req = Some "upload-part"))); [discriminate|].
      destruct (uploadPartParams req) as [[[u p] k] used].
      destruct u as [u|]; [|discriminate].
      destruct p as [p|]; [|discriminate].
      destruct k as [k|]; [|discriminate].
      destruct (negb (JS.nonEmpty u) || negb (JS.nonEmpty p) || negb (JS.nonEmpty k));
        [discriminate|].
      destruct (JS.parseInt p) as [m|]; [|discriminate].
      destruct (JS.lessThanOne m); [discriminate|].
      destruct (body req) as [buf|]; [|discriminate].
      destruct used; [discriminate|].
      destruct (uploadPart bucket k u m buf); discriminate.
    - destruct Hp as (k & u & _ & _ & [Hp|(c & _ & Hp)]); discriminate. }
  revert Hcalls. unfold POST. rewrite bound.
  destruct (String.eqb (method req) "OPTIONS"); [discriminate|].
  destruct (negb (authenticated req)); [discriminate|].
  destruct (negb (JS.truthy (action req))); [discriminate|].
  destruct (bool_decide (action req = Some "create")).
  { destruct (parseRequestData req) as [d|m]; [|discriminate].
    destruct (j_key d) as [[|c k]|]; try discriminate.
    destruct (createMultipartUpload bucket (String c k) _) as [[k' u']|m] eqn:Hc;
      cbn [fst snd]; intros H; inversion H; subst; rewrite Hc; reflexivity. }
  destruct (bool_decide (action req = Some "get-upload-url")).
  { destruct (parseRequestData req) as [d|m]; [|discriminate].
    destruct (j_uploadId d) as [[|cu u]|]; try discriminate.
    destruct (j_key d) as [[|ck k]|]; try discriminate.
    destruct (negb (truthyNumber (j_partNumber d))); discriminate. }
  destruct (bool_decide (action req = Some "upload-part")); [intros H; contradiction|].
  destruct (bool_decide (action req = Some "complete")); [|discriminate].
  destruct (parseRequestData req) as [d|m]; [|discriminate].
  destruct (j_uploadId d) as [[|cu u]|]; try discriminate.
  destruct (j_key d) as [[|ck k]|]; try discriminate.
  destruct (j_parts d) as [ps|]; [|discriminate].
  destruct (complete bucket (String ck k) (String cu u) ps); discriminate.
Qed.

Lemma DELETE_relays key uploadId :
  snd (DELETE env req) = [CallResume key uploadId; CallAbort key uploadId] ->
  fst (DELETE env req)
    = match abort bucket key uploadId with
      | Returns _ => success (Aborted "Multipart upload aborted successfully")
      | Throws message =>
          error (messageOr message "Failed to abort multipart upload") 400
      end.
Proof.
  unfold DELETE. rewrite bound.
  destruct (String.eqb (method req) "OPTIONS"); [discriminate|].
  destruct (negb (bool_decide (action req = Some "abort"))); [discriminate|].
  destruct (JS.get "uploadId" (searchParams req)) as [[|cu u]|]; try discriminate.
  destruct (JS.get "key" (searchParams req)) as [[|ck k]|]; try discriminate.
  destruct (abort bucket (String ck k) (String cu u)) eqn:Ha; cbn [fst snd];
    intros H; inversion H; subst; rewrite Ha; reflexivity.
Qed.

End CoordinatorRelay.

(** X4. Once a handler has called a primitive of the bucket, its answer
    is that primitive's outcome: the values it returned, with status
    200, or, when it threw, status 400 with the bucket's own message
    (the handler's fallback text when the message is empty) for
    upload-part, complete and abort, and status 500 with a fixed text
    for create. *)
Theorem primitive_outcome_is_relayed
    (env : Coordinator.Env) (req : Coordinator.Request) (bucket : Coordinator.Bucket) :
  Coordinator.CLOUD_FILES env = Some bucket ->
  (forall key contentType,
      snd (Coordinator.POST env req) = [Coordinator.CallCreate key contentType] ->
      fst (Coordinator.POST env req)
      = match Coordinator.createMultipartUpload bucket key contentType with
        | Coordinator.Returns (k, uploadId) =>
            Coordinator.success (Coordinator.Created k uploadId)
        | Coordinator.Throws _ =>
            Coordinator.error "Failed to create multipart upload" 500
        end)
  /\ (forall key uploadId n data,
        snd (Coordinator.PUT env req)
        = [Coordinator.CallResume key uploadId;
           Coordinator.CallUploadPart key uploadId n data] ->
        fst (Coordinator.PUT env req)
        = match Coordinator.uploadPart bucket key uploadId n data with
          | Coordinator.Returns part =>
              Coordinator.success
                (Coordinator.PartStored (Coordinator.partNumber part) (Coordinator.etag part))
          | Coordinator.Throws message =>
              Coordinator.error (Coordinator.messageOr message "Failed to upload part") 400
          end)
  /\ (forall key uploadId parts,
        snd (Coordinator.POST env req)
        = [Coordinator.CallResume key uploadId;
           Coordinator.CallComplete key uploadId parts] ->
        fst (Coordinator.POST env req)
        = match Coordinator.complete bucket key uploadId parts with
          | Coordinator.Returns object =>
              Coordinator.success
                (Coordinator.Completed (Coordinator.obj_key object)
                   (Coordinator.httpEtag object) (Coordinator.size object))
          | Coordinator.Throws message =>
              Coordinator.error
                (Coordinator.messageOr message "Failed to complete multipart upload") 400
          end)
  /\ (forall key uploadId,
        snd (Coordinator.DELETE env req)
        = [Coordinator.CallResume key uploadId; Coordinator.CallAbort key uploadId] ->
        fst (Coordinator.DELETE env req)
        = match Coordinator.abort bucket key uploadId with
          | Coordinator.Returns _ =>
              Coordinator.success
                (Coordinator.Aborted "Multipart upload aborted successfully")
          | Coordinator.Throws message =>
              Coordinator.error
                (Coordinator.messageOr message "Failed to abort multipart upload") 400
          end).
Proof.
  intros Hb. split; [intros; apply POST_create_relays; assumption|].
  split; [intros; apply handleUploadPart_relays; assumption|].
  split; [intros; apply POST_complete_relays; assumption|].
  intros; apply DELETE_relays; assumption.
Qed.

(* ===================================================================== *)
(** ** Planner: progress, order of the fetches, acknowledgements *)
(* ===================================================================== *)

Section PlannerRuns.
Import Planner.

Lemma progresses_app t1 t2 :
  Observe.progresses (t1 ++ t2) = Observe.progresses t1 ++ Observe.progresses t2.
Proof. apply omap_app. Qed.

Lemma loop_no_progress send t :
  Observe.progresses [send] = [] ->
  Forall (loopEvent send) t -> Observe.progresses t = [].
Proof.
  intros Hsend. induction 1 as [|e t He _ IH]; [reflexivity|].
  change (e :: t) with ([e] ++ t). rewrite progresses_app, IH, app_nil_r.
  destruct He as [->|[ms ->]]; [exact Hsend|reflexivity].
Qed.


Variable w : World.
Variable job : Job.
Variable f : File.

Lemma uploadPartAt_no_progress uploadId i :
  Observe.progresses (fst (uploadPartAt w job f uploadId i)) = [].
Proof.
  apply (loop_no_progress (sendEvent job f uploadId i)); [reflexivity|].
  apply sendPart_events.
Qed.


Lemma uploadParts_progress uploadId :
  forall (n : nat) (i : Z) (partsData : list Part),
    exists m : nat,
      (m <= n)%nat
      /\ Observe.progresses (fst (uploadParts w job f uploadId n i partsData))
         = (fun k => (k, totalParts f)) <$> seqZ (i + 1) (Z.of_nat m)
      /\ (forall pd, snd (uploadParts w job f uploadId n i partsData) = inr pd -> m = n).
Proof.
  induction n as [|n IH]; intros i partsData.
  - exists 0%nat. split; [lia|]. split; [reflexivity|]. intros; reflexivity.
  - cbn [uploadParts].
    pose proof (uploadPartAt_no_progress uploadId i) as Hnp.
    destruct (uploadPartAt w job f uploadId i) as [t r]. cbn [fst] in Hnp.
    destruct r as [eTag|err].
    + destruct (IH (i + 1) (partsData ++ [(i + 1, eTag)])) as (m & Hm & Hp & Hdone).
      destruct (uploadParts w job f uploadId n (i + 1) (partsData ++ [(i + 1, eTag)]))
        as [t' r']. cbn [fst snd] in *.
      exists (S m). split; [lia|]. split.
      * rewrite progresses_app, Hnp.
        change (Observe.progresses (EvProgress (i + 1) (totalParts f) :: t'))
          with ((i + 1, totalParts f) :: Observe.progresses t').
        rewrite Hp. rewrite (seqZ_cons (i + 1) (Z.of_nat (S m))) by lia.
        replace (Z.succ (i + 1)) with (i + 1 + 1) by lia.
        replace (Z.pred (Z.of_nat (S m))) with (Z.of_nat m) by lia.
        reflexivity.
      * intros pd Hpd. f_equal. eapply Hdone. exact Hpd.
    + exists 0%nat. cbn [fst snd]. split; [lia|]. split; [rewrite Hnp; reflexivity|].
      intros pd Hpd. discriminate Hpd.
Qed.


End PlannerRuns.

(** X5. The progress reports of a multipart upload count the parts up:
    they are 1 of N, 2 of N, ... without gap, and an upload that is
    reported as done has reported N of N. *)
Theorem progress_counts_parts_up
    (w : Planner.World) (job : Planner.Job) (f : Planner.File) (fuel round : nat) :
  Planner.file job = Some f ->
  Planner.CHUNK_SIZE <= Planner.size f ->
  let run := Planner.uploadFileMultipart w job (S fuel) round in
  exists m : Z,
    0 <= m <= Planner.totalParts f
    /\ Observe.progresses (fst run)
       = (fun k => (k, Planner.totalParts f)) <$> seqZ 1 m
    /\ (snd run = Planner.Uploaded -> m = Planner.totalParts f).
Proof.
  intros Hfile Hsize run. subst run.
  pose proof (totalParts_pos f Hsize) as Hpos.
  destruct (uploadFileMultipart_cases w job f fuel round Hfile Hsize) as [Hrun|Hrun];
    rewrite Hrun; cbn [fst snd].
  - exists 0. split; [lia|]. split; [|discriminate].
    unfold Planner.checkExisting.
    destruct (JS.nonEmpty (Planner.finalKey job) && negb (Planner.replacingKey job));
      [|reflexivity].
    destruct (Planner.checkAsset w round) as [msg|r]; [reflexivity|].
    destruct (Planner.ok r); [|reflexivity].
    destruct (Planner.json r) as [j|]; [|reflexivity].
    destruct (Planner.exists_ j); reflexivity.
  - assert (Hcheck : Observe.progresses (fst (Planner.checkExisting w job round)) = []).
    { unfold Planner.checkExisting.
      destruct (JS.nonEmpty (Planner.finalKey job) && negb (Planner.replacingKey job));
        [|reflexivity].
      destruct (Planner.checkAsset w round) as [msg|r]; [reflexivity|].
      destruct (Planner.ok r); [|reflexivity].
      destruct (Planner.json r) as [j|]; [|reflexivity].
      destruct (Planner.exists_ j); reflexivity. }
    rewrite progresses_app, Hcheck. cbn [app].
    unfold Planner.multipartSession.
    destruct (Planner.create w) as [msg|cr]; [exists 0; cbn; split; [lia|split; [reflexivity|discriminate]]|].
    destruct (Planner.json cr) as [cj|]; [|exists 0; cbn; split; [lia|split; [reflexivity|discriminate]]].
    destruct (uploadParts_progress w job f (Planner.uploadId cj)
                (Z.to_nat (Planner.totalParts f)) 0 []) as (m & Hm & Hp & Hdone).
    destruct (Planner.uploadParts w job f (Planner.uploadId cj)
                (Z.to_nat (Planner.totalParts f)) 0 []) as [t res].
    cbn [fst snd] in Hp, Hdone.
    exists (Z.of_nat m). split; [lia|].
    assert (Hshape : forall tail,
               Observe.progresses tail = [] ->
               Observe.progresses (Planner.EvCreate (Planner.key job) (Planner.type f)
                                     :: t ++ tail)
               = (fun k => (k, Planner.totalParts f)) <$> seqZ 1 (Z.of_nat m)).
    { intros tail Htail.
      change (Planner.EvCreate (Planner.key job) (Planner.type f) :: t ++ tail)
        with ([Planner.EvCreate (Planner.key job) (Planner.type f)] ++ t ++ tail).
      rewrite !progresses_app, Hp, Htail, app_nil_r. reflexivity. }
    destruct res as [err|pd].
    + cbn [fst snd]. split; [apply Hshape; reflexivity|discriminate].
    + assert (Hm' : m = Z.to_nat (Planner.totalParts f)) by (eapply Hdone; reflexivity).
      destruct (Planner.completeUpload w) as [msg|r]; cbn [fst snd];
        [split; [apply Hshape; reflexivity|discriminate]|].
      destruct (negb (Planner.ok r)); cbn [fst snd];
        [split; [apply Hshape; reflexivity|discriminate]|].
      destruct (Planner.json r); cbn [fst snd];
        (split; [apply Hshape; reflexivity|intros _; lia]).
Qed.

Lemma progress_counts_parts_up_witness :
  Observe.progresses
    (fst (Planner.uploadFileMultipart Scenarios.outageWorld
            (Scenarios.jobOf (Scenarios.MiB 12)) 1 0))
  = [(1, 3)]
  /\ exists m : Z,
       0 <= m <= 3
       /\ Observe.progresses
            (fst (Planner.uploadFileMultipart Scenarios.outageWorld
                    (Scenarios.jobOf (Scenarios.MiB 12)) 1 0))
          = (fun k => (k, 3)) <$> seqZ 1 m.
Proof.
  split; [reflexivity|].
  destruct (progress_counts_parts_up Scenarios.outageWorld
              (Scenarios.jobOf (Scenarios.MiB 12))
              (Scenarios.video (Scenarios.MiB 12)) 0 0 eq_refl
              ltac:(vm_compute; discriminate)) as (m & Hm & Hp & _).
  exists m. split; [exact Hm|exact Hp].
Defined.



Section Acknowledged.
Import Planner.

Variable w : World.
Variable job : Job.
Variable f : File.

(** An answer the retry loop leaves with is the one it started with or
    the answer of one of its fetches. *)
Lemma retryLoop_answer send pn (r : Response) :
  forall (retries attempt : nat) last,
    snd (retryLoop w send pn retries attempt last) = Exited (Some r) ->
    last = Some r
    \/ exists a : nat, (a < retries)%nat /\ uploadPart w pn (attempt + a) = Resolves r.
Proof.
  induction retries as [|n IH]; intros attempt last; cbn [retryLoop].
  - cbn. intros H. left. congruence.
  - assert (Hrec : forall resp,
              snd (retryLoop w send pn n (S attempt) resp) = Exited (Some r) ->
              resp = Some r
              \/ exists a : nat, (a < S n)%nat /\ uploadPart w pn (attempt + a) = Resolves r).
    { intros resp H. destruct (IH (S attempt) resp H) as [Hl|(a & Ha & Hres)];
        [left; exact Hl|].
      right. exists (S a). split; [lia|].
      replace (attempt + S a)%nat with (S attempt + a)%nat by lia. exact Hres. }
    assert (Hhere : forall response,
              uploadPart w pn attempt = Resolves response ->
              Some response = Some r ->
              exists a : nat, (a < S n)%nat /\ uploadPart w pn (attempt + a) = Resolves r).
    { intros response Hres Heq. exists 0%nat. split; [lia|].
      rewrite Nat.add_0_r. congruence. }
    destruct (uploadPart w pn attempt) as [msg|response] eqn:Hres.
    + destruct (Z.of_nat n =? 0); [discriminate|]. rewrite snd_let. apply Hrec.
    + destruct (ok response).
      { cbn. intros H. right. apply (Hhere response eq_refl). congruence. }
      destruct (status response =? 413).
      { destruct (Z.of_nat n =? 0); [discriminate|]. rewrite snd_let.
        intros H. destruct (Hrec _ H) as [Hl|Hr]; [right; eauto|right; exact Hr]. }
      destruct (negb (status response =? 408) && negb (status response =? 429)
                && (status response <? 500)).
      { destruct (Z.of_nat n =? 0); [discriminate|]. rewrite snd_let.
        intros H. destruct (Hrec _ H) as [Hl|Hr]; [right; eauto|right; exact Hr]. }
      rewrite snd_let.
      intros H. destruct (Hrec _ H) as [Hl|Hr]; [right; eauto|right; exact Hr].
Qed.

Lemma sendPart_pushed send pn isLast blob eTag :
  snd (sendPart w send pn isLast blob) = Pushed eTag ->
  exists (a : nat) (r : Response) (j : Json),
    (a < 3)%nat /\ uploadPart w pn a = Resolves r /\ ok r = true
    /\ json r = Some j /\ etag j = eTag.
Proof.
  unfold sendPart.
  destruct (partTooSmall isLast blob); [discriminate|].
  destruct (urlLength w pn >? 15000); [discriminate|].
  pose proof (retryLoop_answer send pn) as Hans.
  destruct (retryLoop w send pn 3 0 None) as [t x] eqn:Hloop.
  destruct x as [[r|]|err]; [|discriminate|discriminate].
  destruct (ok r) eqn:Hok; [|discriminate]. cbn [negb].
  destruct (json r) as [j|] eqn:Hj; [|discriminate].
  cbn. intros H. inversion H; subst.
  destruct (Hans r 3%nat 0%nat None) as [Hl|(a & Ha & Hres)];
    [rewrite Hloop; reflexivity|discriminate|].
  exists a, r, j. repeat split; assumption.
Qed.

Lemma uploadParts_pushed uploadId :
  forall (n : nat) (i : Z) (partsData pd : list Part),
    snd (uploadParts w job f uploadId n i partsData) = inr pd ->
    forall k, i < k <= i + Z.of_nat n ->
      exists (a : nat) (r : Response),
        (a < 3)%nat /\ uploadPart w k a = Resolves r /\ ok r = true.
Proof.
  induction n as [|n IH]; intros i partsData pd Hpd k Hk; [lia|].
  cbn [uploadParts] in Hpd.
  pose proof (sendPart_pushed (sendEvent job f uploadId i) (i + 1)
                (i =? totalParts f - 1) (partSize f i)) as Hpush.
  fold (uploadPartAt w job f uploadId i) in Hpush.
  destruct (uploadPartAt w job f uploadId i) as [t r].
  destruct r as [eTag|err]; [|discriminate].
  destruct (uploadParts w job f uploadId n (i + 1) (partsData ++ [(i + 1, eTag)]))
    as [t' r'] eqn:Hrest.
  cbn [snd] in Hpd. subst r'.
  destruct (Z.eq_dec k (i + 1)) as [->|Hne].
  - destruct (Hpush eTag eq_refl) as (a & r & j & Ha & Hres & Hok & _).
    exists a, r. repeat split; assumption.
  - apply (IH (i + 1) (partsData ++ [(i + 1, eTag)]) pd); [rewrite Hrest; reflexivity|lia].
Qed.

End Acknowledged.

(** X7. A multipart upload is reported as done only if create was
    answered with JSON, every part from 1 to N was answered ok at one of
    its three attempts, and complete was answered ok. *)
Theorem done_only_when_acknowledged
    (w : Planner.World) (job : Planner.Job) (f : Planner.File) (fuel round : nat) :
  Planner.file job = Some f ->
  Planner.CHUNK_SIZE <= Planner.size f ->
  snd (Planner.uploadFileMultipart w job (S fuel) round) = Planner.Uploaded ->
  (exists r j, Planner.create w = Planner.Resolves r /\ Planner.json r = Some j)
  /\ (forall k, 1 <= k <= Planner.totalParts f ->
        exists (a : nat) (r : Planner.Response),
          (a < 3)%nat /\ Planner.uploadPart w k a = Planner.Resolves r
          /\ Planner.ok r = true)
  /\ (exists r, Planner.completeUpload w = Planner.Resolves r /\ Planner.ok r = true).
Proof.
  intros Hfile Hsize.
  pose proof (totalParts_pos f Hsize) as Hpos.
  destruct (uploadFileMultipart_cases w job f fuel round Hfile Hsize) as [Hrun|Hrun];
    rewrite Hrun; cbn [snd]; [discriminate|].
  unfold Planner.multipartSession.
  destruct (Planner.create w) as [msg|cr]; [discriminate|].
  destruct (Planner.json cr) as [cj|] eqn:Hcj; [|discriminate].
  pose proof (uploadParts_pushed w job f (Planner.uploadId cj)
                (Z.to_nat (Planner.totalParts f)) 0 []) as Hparts.
  destruct (Planner.uploadParts w job f (Planner.uploadId cj)
              (Z.to_nat (Planner.totalParts f)) 0 []) as [t res].
  destruct res as [err|pd]; [discriminate|].
  destruct (Planner.completeUpload w) as [msg|r]; [discriminate|].
  destruct (Planner.ok r) eqn:Hok; [|discriminate]. cbn [negb].
  destruct (Planner.json r); [|discriminate].
  intros _. split; [eauto|]. split; [|eauto].
  intros k Hk. apply (Hparts pd eq_refl). lia.
Qed.

Lemma done_only_when_acknowledged_witness :
  exists (a : nat) (r : Planner.Response),
    (a < 3)%nat /\ Planner.uploadPart Scenarios.flakyWorld 2 a = Planner.Resolves r
    /\ Planner.ok r = true.
Proof.
  destruct (done_only_when_acknowledged Scenarios.flakyWorld
              (Scenarios.jobOf (Scenarios.MiB 12))
              (Scenarios.video (Scenarios.MiB 12)) 0 0 eq_refl
              ltac:(vm_compute; discriminate) eq_refl) as (_ & Hparts & _).
  apply (Hparts 2). vm_compute. split; discriminate.
Defined.

(** X8. A file of at least 5 MiB given to the simple upload is handed to
    the multipart upload at once, without a request of its own; the
    multipart upload then runs to its end without another hand-over, so
    its result does not depend on the number of hand-overs allowed. *)
Theorem large_file_is_handed_over_once
    (w : Planner.World) (job : Planner.Job) (f : Planner.File) (fuel round : nat) :
  Planner.file job = Some f ->
  Planner.CHUNK_SIZE <= Planner.size f ->
  Planner.uploadFileSimple w job (S (S fuel)) round
  = Planner.uploadFileMultipart w job 1 (S round)
  /\ Planner.uploadFileMultipart w job (S fuel) round
     = Planner.uploadFileMultipart w job 1 round
  /\ snd (Planner.uploadFileMultipart w job 1 round) <> Planner.OutOfFuel.
Proof.
  intros Hfile Hsize.
  assert (Hind : forall n r, Planner.uploadFileMultipart w job (S n) r
                             = Planner.uploadFileMultipart w job 1 r).
  { intros n r.
    destruct (snd (Planner.checkExisting w job r)) eqn:Hgo.
    - rewrite !(uploadFileMultipart_session w job f _ r Hfile Hsize Hgo). reflexivity.
    - cbn [Planner.uploadFileMultipart]. rewrite Hfile.
      destruct (Planner.checkExisting w job r) as [t0 go]. cbn [snd] in Hgo. subst go.
      reflexivity. }
  split; [|split; [apply Hind|]].
  - rewrite <- (Hind fuel (S round)).
    cbn [Planner.uploadFileSimple]. rewrite Hfile.
    assert (Hc : Planner.FILE_SIZE_THRESHOLD < Planner.CHUNK_SIZE) by reflexivity.
    destruct (Z.gtb_spec (Planner.size f) Planner.FILE_SIZE_THRESHOLD); [reflexivity|lia].
  - destruct (uploadFileMultipart_cases w job f 0 round Hfile Hsize) as [Hrun|Hrun];
      rewrite Hrun; cbn [snd]; [discriminate|].
    unfold Planner.multipartSession.
    destruct (Planner.create w) as [msg|cr]; [discriminate|].
    destruct (Planner.json cr) as [cj|]; [|discriminate].
    destruct (Planner.uploadParts w job f (Planner.uploadId cj)
                (Z.to_nat (Planner.totalParts f)) 0 []) as [t res].
    destruct res as [err|pd]; [discriminate|].
    destruct (Planner.completeUpload w) as [msg|r]; [discriminate|].
    destruct (negb (Planner.ok r)); [discriminate|].
    destruct (Planner.json r); discriminate.
Qed.

Lemma large_file_is_handed_over_once_witness :
  Planner.uploadFileSimple Scenarios.calmWorld (Scenarios.jobOf (Scenarios.MiB 12)) 2 0
  = Planner.uploadFileMultipart Scenarios.calmWorld (Scenarios.jobOf (Scenarios.MiB 12)) 1 1.
Proof.
  apply (large_file_is_handed_over_once Scenarios.calmWorld
           (Scenarios.jobOf (Scenarios.MiB 12))
           (Scenarios.video (Scenarios.MiB 12)) 0 0 eq_refl).
  vm_compute; discriminate.
Defined.

(* ===================================================================== *)
(** ** Renaming *)
(* ===================================================================== *)

Section Renaming.

(** A bucket kept in memory honours the contract and never throws. *)
Lemma keeping_keyValue objects : Rename.keyValue (Cases.keeping objects).
Proof.
  constructor; cbn.
  - intros held key found H. inversion H. reflexivity.
  - intros object content H. inversion H. reflexivity.
  - intros held key args outcome after H k Hk. inversion H; subst.
    apply lookup_insert_ne. congruence.
  - intros held key args outcome after H. inversion H; subst.
    left. apply lookup_insert_eq.
  - intros held key outcome after H k Hk. inversion H; subst.
    apply lookup_delete_ne. congruence.
  - intros held key outcome after H. inversion H; subst.
    left. apply lookup_delete_eq.
Qed.

Lemma keeping_reliable objects : Rename.reliable (Cases.keeping objects).
Proof. repeat split; cbn; eauto. Qed.

(** So does one whose [delete] throws without removing anything. *)
Lemma sticky_keyValue objects : Rename.keyValue (Cases.sticky objects).
Proof.
  constructor; cbn.
  - intros held key found H. inversion H. reflexivity.
  - intros object content H. inversion H. reflexivity.
  - intros held key args outcome after H k Hk. inversion H; subst.
    apply lookup_insert_ne. congruence.
  - intros held key args outcome after H. inversion H; subst.
    left. apply lookup_insert_eq.
  - intros held key outcome after H k Hk. inversion H; subst. reflexivity.
  - intros held key outcome after H. inversion H; subst.
    right. split; [eauto|reflexivity].
Qed.

Variable bucket : Rename.Bucket.
Hypothesis contract : Rename.keyValue bucket.

Lemma holding_keyValue held : Rename.keyValue (Rename.holding bucket held).
Proof. destruct contract. constructor; cbn; assumption. Qed.

Lemma holding_reliable held :
  Rename.reliable bucket -> Rename.reliable (Rename.holding bucket held).
Proof. intros H. exact H. Qed.

(** A [put] that returns has written, a [delete] that returns has
    removed. *)
Lemma put_returned held key args after :
  Rename.put bucket held key args = (Coordinator.Returns tt, after) ->
  after = <[key := Rename.written args]> held.
Proof.
  intros Hput. apply map_eq. intros k.
  destruct (decide (k = key)) as [->|Hk].
  - rewrite lookup_insert_eq.
    destruct (Rename.put_writes bucket contract _ _ _ _ _ Hput) as [H|[[m Hm] _]];
      [exact H|discriminate Hm].
  - rewrite lookup_insert_ne by congruence.
    exact (Rename.put_frame bucket contract _ _ _ _ _ Hput k Hk).
Qed.

Lemma delete_returned held key after :
  Rename.delete bucket held key = (Coordinator.Returns tt, after) ->
  after = base.delete key held.
Proof.
  intros Hdel. apply map_eq. intros k.
  destruct (decide (k = key)) as [->|Hk].
  - rewrite lookup_delete_eq.
    destruct (Rename.delete_removes bucket contract _ _ _ _ Hdel) as [H|[[m Hm] _]];
      [exact H|discriminate Hm].
  - rewrite lookup_delete_ne by congruence.
    exact (Rename.delete_frame bucket contract _ _ _ _ Hdel k Hk).
Qed.

(** What the bucket holds once [old], holding [o], has been moved to a
    free [new]. *)
Lemma moved_lookup (held : gmap string Rename.Object) old new (o : Rename.Object) k :
  old <> new ->
  base.delete old (<[new := o]> held) !! k
  = if decide (k = old) then None
    else if decide (k = new) then Some o else held !! k.
Proof.
  intros Hne. destruct (decide (k = old)) as [->|Hk].
  - apply lookup_delete_eq.
  - rewrite lookup_delete_ne by congruence.
    destruct (decide (k = new)) as [->|Hk'].
    + apply lookup_insert_eq.
    + apply lookup_insert_ne. congruence.
Qed.

End Renaming.

(** The answer and the calls of a rename all of whose bucket calls
    return. *)
Lemma rename_answer
    (bucket : Rename.Bucket) (req : Rename.Request)
    (old new : string) (o : Rename.Object) (content : Rename.bytes)
    (held1 held2 : gmap string Rename.Object) :
  String.eqb (Rename.method req) "OPTIONS" = false ->
  Rename.authenticated req = true ->
  Rename.json req = Some {| Rename.oldKey := Some old; Rename.newKey := Some new |} ->
  old <> "" -> new <> "" -> old <> new ->
  Rename.get bucket (Rename.objects bucket) old = Coordinator.Returns (Some o) ->
  Rename.get bucket (Rename.objects bucket) new = Coordinator.Returns None ->
  Rename.arrayBuffer bucket o = Coordinator.Returns content ->
  Rename.put bucket (Rename.objects bucket) new (Rename.copyOf o content)
  = (Coordinator.Returns tt, held1) ->
  Rename.delete bucket held1 old = (Coordinator.Returns tt, held2) ->
  Rename.POST {| Rename.CLOUD_FILES := Some bucket |} req
  = (Rename.success (Rename.Renamed old new), Some held2,
     [Rename.CallGet old; Rename.CallGet new;
      Rename.CallPut new (Rename.copyOf o content); Rename.CallDelete old]).
Proof.
  intros Hm Ha Hj Hold Hnew Hne Hgo Hgn Hbuf Hput Hdel.
  unfold Rename.POST. cbn [Rename.CLOUD_FILES]. rewrite Hm, Ha, Hj.
  cbn [negb Rename.oldKey Rename.newKey].
  destruct old as [|co old]; [congruence|].
  destruct new as [|cn new]; [congruence|].
  destruct (String.eqb_spec (String co old) (String cn new)); [congruence|].
  rewrite Hgo, Hgn, Hbuf, Hput, Hdel. reflexivity.
Qed.

(** X9. A rename of [old] to a free key [new], on a bucket that honours
    the key-value contract and whose calls all return, moves the
    object: the answer is 200, [new] then holds the bytes of [old] with
    its content type (or the empty one) and its custom metadata, [old]
    is gone, every other key is untouched and the number of objects is
    the same.  The new key is written before the old one is deleted. *)
Theorem rename_moves_the_object
    (bucket : Rename.Bucket) (req : Rename.Request)
    (old new : string) (o : Rename.Object) (content : Rename.bytes)
    (held1 held2 : gmap string Rename.Object) :
  String.eqb (Rename.method req) "OPTIONS" = false ->
  Rename.authenticated req = true ->
  Rename.json req = Some {| Rename.oldKey := Some old; Rename.newKey := Some new |} ->
  old <> "" -> new <> "" -> old <> new ->
  Rename.keyValue bucket ->
  Rename.get bucket (Rename.objects bucket) old = Coordinator.Returns (Some o) ->
  Rename.get bucket (Rename.objects bucket) new = Coordinator.Returns None ->
  Rename.arrayBuffer bucket o = Coordinator.Returns content ->
  Rename.put bucket (Rename.objects bucket) new (Rename.copyOf o content)
  = (Coordinator.Returns tt, held1) ->
  Rename.delete bucket held1 old = (Coordinator.Returns tt, held2) ->
  Rename.POST {| Rename.CLOUD_FILES := Some bucket |} req
  = (Rename.success (Rename.Renamed old new), Some held2,
     [Rename.CallGet old; Rename.CallGet new;
      Rename.CallPut new (Rename.copyOf o content); Rename.CallDelete old])
  /\ Rename.objects bucket !! old = Some o
  /\ Rename.objects bucket !! new = None
  /\ held2 !! new = Some (Rename.written (Rename.copyOf o (Rename.data o)))
  /\ held2 !! old = None
  /\ (forall k, k <> old -> k <> new -> held2 !! k = Rename.objects bucket !! k)
  /\ size held2 = size (Rename.objects bucket).
Proof.
  intros Hm Ha Hj Hold Hnew Hne Hlaw Hgo Hgn Hbuf Hput Hdel.
  split; [eapply rename_answer; eassumption|].
  pose proof (Rename.get_reads bucket Hlaw _ _ _ Hgo) as Ho. symmetry in Ho.
  pose proof (Rename.get_reads bucket Hlaw _ _ _ Hgn) as Hn. symmetry in Hn.
  pose proof (Rename.arrayBuffer_reads bucket Hlaw _ _ Hbuf) as Hc. subst content.
  pose proof (put_returned bucket Hlaw _ _ _ _ Hput) as H1. subst held1.
  pose proof (delete_returned bucket Hlaw _ _ _ Hdel) as H2. subst held2.
  split; [exact Ho|]. split; [exact Hn|].
  split; [rewrite (moved_lookup _ old new _ new Hne);
          destruct (decide (new = old)); [congruence|];
          destruct (decide (new = new)); [reflexivity|congruence]|].
  split; [apply lookup_delete_eq|].
  split.
  { intros k Hk Hk'. rewrite (moved_lookup _ old new _ k Hne).
    destruct (decide (k = old)); [congruence|].
    destruct (decide (k = new)); [congruence|reflexivity]. }
  rewrite map_size_delete_Some
    by (rewrite lookup_insert_ne by congruence; rewrite Ho; eauto).
  rewrite map_size_insert_None by exact Hn. reflexivity.
Qed.

(** X10. On a bucket that honours the key-value contract, throwing or
    not, a rename never replaces or alters an object that is in the
    bucket: after any request every object is where and what it was,
    except that the object under the old key may be gone, and then the
    route has called [delete] on it.  When only lookups were made the
    bucket is as before and the answer is not 200; when the answer is
    200 the four calls were made, the old key is free and the new key
    holds what was put. *)
Theorem rename_never_overwrites
    (bucket : Rename.Bucket) (req : Rename.Request) :
  Rename.keyValue bucket ->
  let '(response, after, calls) :=
    Rename.POST {| Rename.CLOUD_FILES := Some bucket |} req in
  exists held,
    after = Some held
    /\ (forall k o, Rename.objects bucket !! k = Some o ->
          held !! k = Some o
          \/ (held !! k = None
              /\ Rename.json req ≫= Rename.oldKey = Some k
              /\ In (Rename.CallDelete k) calls))
    /\ (Forall (fun c => exists k, c = Rename.CallGet k) calls ->
        held = Rename.objects bucket /\ Rename.status response <> 200)
    /\ (Rename.status response = 200 ->
        exists old new args,
          calls = [Rename.CallGet old; Rename.CallGet new;
                   Rename.CallPut new args; Rename.CallDelete old]
          /\ held !! old = None
          /\ held !! new = Some (Rename.written args)).
Proof.
  intros Hlaw. unfold Rename.POST. cbn [Rename.CLOUD_FILES fmap option_fmap option_map].
  assert (Hsame : forall response calls,
            Rename.status response <> 200 ->
            Forall (fun c => exists k, c = Rename.CallGet k) calls ->
            exists held,
              Some (Rename.objects bucket) = Some held
              /\ (forall k o, Rename.objects bucket !! k = Some o ->
                    held !! k = Some o
                    \/ (held !! k = None
                        /\ Rename.json req ≫= Rename.oldKey = Some k
                        /\ In (Rename.CallDelete k) calls))
              /\ (Forall (fun c => exists k, c = Rename.CallGet k) calls ->
                  held = Rename.objects bucket /\ Rename.status response <> 200)
              /\ (Rename.status response = 200 ->
                  exists old new args,
                    calls = [Rename.CallGet old; Rename.CallGet new;
                             Rename.CallPut new args; Rename.CallDelete old]
                    /\ held !! old = None
                    /\ held !! new = Some (Rename.written args))).
  { intros response calls Hst Hcalls. exists (Rename.objects bucket).
    split; [reflexivity|]. split; [intros k o Hk; left; exact Hk|].
    split; [intros _; split; [reflexivity|exact Hst]|intros H; contradiction]. }
  destruct (String.eqb (Rename.method req) "OPTIONS");
    [apply Hsame; [discriminate|constructor]|].
  destruct (negb (Rename.authenticated req));
    [apply Hsame; [discriminate|constructor]|].
  destruct (Rename.json req) as [body|] eqn:Hj;
    [|apply Hsame; [discriminate|constructor]].
  destruct (Rename.oldKey body) as [[|co old]|] eqn:Hold;
    try (apply Hsame; [discriminate|constructor]).
  destruct (Rename.newKey body) as [[|cn new]|] eqn:Hnew;
    try (apply Hsame; [discriminate|constructor]).
  destruct (String.eqb_spec (String co old) (String cn new)) as [Heq|Hne];
    [apply Hsame; [discriminate|constructor]|].
  set (oldKey := String co old) in *. set (newKey := String cn new) in *.
  destruct (Rename.get bucket (Rename.objects bucket) oldKey) as [[o|]|m] eqn:Hgo;
    try (apply Hsame; [discriminate|repeat constructor; eauto]).
  destruct (Rename.get bucket (Rename.objects bucket) newKey) as [[o'|]|m] eqn:Hgn;
    try (apply Hsame; [discriminate|repeat constructor; eauto]).
  destruct (Rename.arrayBuffer bucket o) as [content|m] eqn:Hbuf;
    [|apply Hsame; [discriminate|repeat constructor; eauto]].
  pose proof (Rename.get_reads bucket Hlaw _ _ _ Hgn) as Hn. symmetry in Hn.
  destruct (Rename.put bucket (Rename.objects bucket) newKey (Rename.copyOf o content))
    as [written held1] eqn:Hput.
  assert (Hkept : forall k x, Rename.objects bucket !! k = Some x -> held1 !! k = Some x).
  { intros k x Hk. rewrite <- Hk.
    apply (Rename.put_frame bucket Hlaw _ _ _ _ _ Hput). congruence. }
  assert (Hnotget : forall calls : list Rename.BucketCall,
            Forall (fun c => exists k, c = Rename.CallGet k)
                   (Rename.CallGet oldKey :: Rename.CallGet newKey
                      :: Rename.CallPut newKey (Rename.copyOf o content) :: calls) ->
            False).
  { intros calls H. inversion H as [|? ? _ H1]; subst.
    inversion H1 as [|? ? _ H2]; subst. inversion H2 as [|? ? [k Hk] _]; subst.
    discriminate Hk. }
  destruct written as [[]|m].
  - destruct (Rename.delete bucket held1 oldKey) as [deleted held2] eqn:Hdel.
    assert (Hmoved : forall k x, Rename.objects bucket !! k = Some x ->
              held2 !! k = Some x
              \/ (held2 !! k = None /\ Some body ≫= Rename.oldKey = Some k
                  /\ In (Rename.CallDelete k)
                        [Rename.CallGet oldKey; Rename.CallGet newKey;
                         Rename.CallPut newKey (Rename.copyOf o content);
                         Rename.CallDelete oldKey])).
    { intros k x Hk. destruct (decide (k = oldKey)) as [->|Hko].
      - destruct (Rename.delete_removes bucket Hlaw _ _ _ _ Hdel) as [Hgone|[_ Hstay]].
        + right. split; [exact Hgone|]. split; [exact Hold|]. cbn. auto.
        + left. rewrite Hstay. apply Hkept. exact Hk.
      - left. rewrite (Rename.delete_frame bucket Hlaw _ _ _ _ Hdel k Hko).
        apply Hkept. exact Hk. }
    destruct deleted as [[]|m].
    + exists held2. split; [reflexivity|]. split; [exact Hmoved|].
      split; [intros H; exfalso; eapply Hnotget; exact H|].
      intros _. exists oldKey, newKey, (Rename.copyOf o content).
      split; [reflexivity|].
      rewrite (delete_returned bucket Hlaw _ _ _ Hdel).
      rewrite (put_returned bucket Hlaw _ _ _ _ Hput).
      split; [apply lookup_delete_eq|].
      rewrite lookup_delete_ne by congruence. apply lookup_insert_eq.
    + exists held2. split; [reflexivity|]. split; [exact Hmoved|].
      split; [intros H; exfalso; eapply Hnotget; exact H|discriminate].
  - exists held1. split; [reflexivity|].
    split; [intros k x Hk; left; apply Hkept; exact Hk|].
    split; [intros H; exfalso; eapply Hnotget; exact H|discriminate].
Qed.

(** X11. Renaming there and back, on a bucket that honours the
    key-value contract and never throws, restores the bucket: after
    [old] is renamed to a free [new] and [new] back to [old], both
    answered 200, every other key holds what it held, [new] is free
    again and [old] holds the bytes, the content type (or the empty
    one) and the custom metadata of its object, that is, the object
    itself when it had no other metadata. *)
Theorem rename_there_and_back
    (bucket : Rename.Bucket) (there back : Rename.Request)
    (old new : string) (o : Rename.Object) :
  String.eqb (Rename.method there) "OPTIONS" = false ->
  String.eqb (Rename.method back) "OPTIONS" = false ->
  Rename.authenticated there = true ->
  Rename.authenticated back = true ->
  Rename.json there = Some {| Rename.oldKey := Some old; Rename.newKey := Some new |} ->
  Rename.json back = Some {| Rename.oldKey := Some new; Rename.newKey := Some old |} ->
  old <> "" -> new <> "" -> old <> new ->
  Rename.keyValue bucket ->
  Rename.reliable bucket ->
  Rename.objects bucket !! old = Some o ->
  Rename.objects bucket !! new = None ->
  exists middle final,
    Rename.POST {| Rename.CLOUD_FILES := Some bucket |} there
    = (Rename.success (Rename.Renamed old new), Some middle,
       [Rename.CallGet old; Rename.CallGet new;
        Rename.CallPut new (Rename.copyOf o (Rename.data o)); Rename.CallDelete old])
    /\ fst (Rename.POST {| Rename.CLOUD_FILES := Some (Rename.holding bucket middle) |} back)
       = (Rename.success (Rename.Renamed new old), Some final)
    /\ final = <[old := Rename.written (Rename.copyOf o (Rename.data o))]>
                 (Rename.objects bucket)
    /\ (Rename.written (Rename.copyOf o (Rename.data o)) = o ->
        final = Rename.objects bucket).
Proof.
  intros Hm1 Hm2 Ha1 Ha2 Hj1 Hj2 Hold Hnew Hne Hlaw Hrel Ho Hn.
  assert (Hne' : new <> old) by congruence.
  assert (Hstep : forall (b : Rename.Bucket) req k1 k2 x,
            Rename.keyValue b -> Rename.reliable b ->
            String.eqb (Rename.method req) "OPTIONS" = false ->
            Rename.authenticated req = true ->
            Rename.json req = Some {| Rename.oldKey := Some k1; Rename.newKey := Some k2 |} ->
            k1 <> "" -> k2 <> "" -> k1 <> k2 ->
            Rename.objects b !! k1 = Some x ->
            Rename.objects b !! k2 = None ->
            Rename.POST {| Rename.CLOUD_FILES := Some b |} req
            = (Rename.success (Rename.Renamed k1 k2),
               Some (base.delete k1
                       (<[k2 := Rename.written (Rename.copyOf x (Rename.data x))]>
                          (Rename.objects b))),
               [Rename.CallGet k1; Rename.CallGet k2;
                Rename.CallPut k2 (Rename.copyOf x (Rename.data x)); Rename.CallDelete k1])).
  { intros b req k1 k2 x Hb (Hget & Hbuf & Hput & Hdel) Hm Ha Hj H1 H2 H12 Hx Hfree.
    destruct (Hget (Rename.objects b) k1) as [f1 Hf1].
    destruct (Hget (Rename.objects b) k2) as [f2 Hf2].
    pose proof (Rename.get_reads b Hb _ _ _ Hf1) as E1. rewrite Hx in E1. subst f1.
    pose proof (Rename.get_reads b Hb _ _ _ Hf2) as E2. rewrite Hfree in E2. subst f2.
    destruct (Hbuf x) as [content Hcontent].
    pose proof (Rename.arrayBuffer_reads b Hb _ _ Hcontent) as Ec. subst content.
    destruct (Rename.put b (Rename.objects b) k2 (Rename.copyOf x (Rename.data x)))
      as [w1 h1] eqn:Hp.
    pose proof (Hput (Rename.objects b) k2 (Rename.copyOf x (Rename.data x))) as Hw.
    rewrite Hp in Hw. cbn [fst] in Hw. subst w1.
    destruct (Rename.delete b h1 k1) as [w2 h2] eqn:Hd.
    pose proof (Hdel h1 k1) as Hw. rewrite Hd in Hw. cbn [fst] in Hw. subst w2.
    rewrite (rename_answer b req k1 k2 x (Rename.data x) h1 h2
               Hm Ha Hj H1 H2 H12 Hf1 Hf2 Hcontent Hp Hd).
    rewrite (delete_returned b Hb _ _ _ Hd), (put_returned b Hb _ _ _ _ Hp).
    reflexivity. }
  set (copy := Rename.written (Rename.copyOf o (Rename.data o))).
  set (middle := base.delete old (<[new := copy]> (Rename.objects bucket))).
  assert (Hmiddle : forall k,
             middle !! k = if decide (k = old) then None
                           else if decide (k = new) then Some copy
                                else Rename.objects bucket !! k)
    by (intros k; apply moved_lookup; exact Hne).
  assert (Hmn : middle !! new = Some copy).
  { rewrite Hmiddle. destruct (decide (new = old)); [congruence|].
    destruct (decide (new = new)); [reflexivity|congruence]. }
  assert (Hmo : middle !! old = None).
  { rewrite Hmiddle. destruct (decide (old = old)); [reflexivity|congruence]. }
  exists middle, (base.delete new (<[old := copy]> middle)).
  split; [apply (Hstep bucket there old new o); assumption|].
  split.
  { rewrite (Hstep (Rename.holding bucket middle) back new old copy
               (holding_keyValue bucket Hlaw middle) Hrel Hm2 Ha2 Hj2 Hnew Hold Hne'
               Hmn Hmo).
    reflexivity. }
  assert (Hfinal : base.delete new (<[old := copy]> middle)
                   = <[old := copy]> (Rename.objects bucket)).
  { apply map_eq. intros k.
    rewrite (moved_lookup middle new old copy k Hne').
    destruct (decide (k = new)) as [->|Hk2].
    - rewrite lookup_insert_ne by congruence. rewrite Hn. reflexivity.
    - destruct (decide (k = old)) as [->|Hk1].
      + rewrite lookup_insert_eq. reflexivity.
      + rewrite lookup_insert_ne by congruence. rewrite Hmiddle.
        destruct (decide (k = old)); [congruence|].
        destruct (decide (k = new)); [congruence|reflexivity]. }
  split; [exact Hfinal|].
  intros Hcopy. rewrite Hfinal. subst copy. rewrite Hcopy. apply insert_id. exact Ho.
Qed.

(** X12. The browser's [renameFile] sends a request only for a new name
    that is not blank and differs from the old key, and sends it
    trimmed; such a request, for a non-empty old key, is never answered
    400 by the route. *)
Theorem rename_request_passes_validation
    (bucket : Rename.Bucket) (req : Rename.Request)
    (old new : string) (body : Rename.JsonBody) :
  Rename.renameFile old new = Some body ->
  Rename.json req = Some body ->
  old <> "" ->
  body = {| Rename.oldKey := Some old; Rename.newKey := Some (JS.trim new) |}
  /\ JS.trim new <> "" /\ old <> JS.trim new
  /\ Rename.status (fst (fst (Rename.POST {| Rename.CLOUD_FILES := Some bucket |} req)))
     <> 400.
Proof.
  intros Hsend Hj Hold. unfold Rename.renameFile in Hsend.
  destruct (JS.trim new) as [|cn tn] eqn:Htrim; [discriminate|]. cbn [JS.nonEmpty negb] in Hsend.
  destruct (String.eqb_spec old (String cn tn)) as [Heq|Hne]; [discriminate|].
  inversion Hsend; subst body. clear Hsend.
  split; [reflexivity|]. split; [discriminate|]. split; [exact Hne|].
  unfold Rename.POST. cbn [Rename.CLOUD_FILES].
  destruct (String.eqb (Rename.method req) "OPTIONS"); [discriminate|].
  destruct (negb (Rename.authenticated req)); [discriminate|].
  rewrite Hj. cbn [Rename.oldKey Rename.newKey].
  destruct old as [|co old]; [congruence|].
  destruct (String.eqb_spec (String co old) (String cn tn)); [congruence|].
  destruct (Rename.get bucket (Rename.objects bucket) (String co old)) as [[o|]|m];
    try discriminate.
  destruct (Rename.get bucket (Rename.objects bucket) (String cn tn)) as [[o'|]|m];
    try discriminate.
  destruct (Rename.arrayBuffer bucket o) as [content|m]; [|discriminate].
  destruct (Rename.put bucket (Rename.objects bucket) (String cn tn)
              (Rename.copyOf o content)) as [[[]|m] held1]; [|discriminate].
  destruct (Rename.delete bucket held1 (String co old)) as [[[]|m] held2]; discriminate.
Qed.

(** X24. A rename is not atomic: when the [put] under the new key has
    returned and the [delete] of the old key throws without removing
    anything, the answer is 500 and the bucket holds the object under
    both keys. *)
Theorem failed_delete_leaves_both_keys
    (bucket : Rename.Bucket) (req : Rename.Request)
    (old new message : string) (o : Rename.Object) (content : Rename.bytes)
    (held1 : gmap string Rename.Object) :
  String.eqb (Rename.method req) "OPTIONS" = false ->
  Rename.authenticated req = true ->
  Rename.json req = Some {| Rename.oldKey := Some old; Rename.newKey := Some new |} ->
  old <> "" -> new <> "" -> old <> new ->
  Rename.keyValue bucket ->
  Rename.get bucket (Rename.objects bucket) old = Coordinator.Returns (Some o) ->
  Rename.get bucket (Rename.objects bucket) new = Coordinator.Returns None ->
  Rename.arrayBuffer bucket o = Coordinator.Returns content ->
  Rename.put bucket (Rename.objects bucket) new (Rename.copyOf o content)
  = (Coordinator.Returns tt, held1) ->
  Rename.delete bucket held1 old = (Coordinator.Throws message, held1) ->
  Rename.POST {| Rename.CLOUD_FILES := Some bucket |} req
  = (Rename.error "Failed to rename file" 500, Some held1,
     [Rename.CallGet old; Rename.CallGet new;
      Rename.CallPut new (Rename.copyOf o content); Rename.CallDelete old])
  /\ held1 !! old = Some o
  /\ held1 !! new = Some (Rename.written (Rename.copyOf o (Rename.data o))).
Proof.
  intros Hm Ha Hj Hold Hnew Hne Hlaw Hgo Hgn Hbuf Hput Hdel.
  split.
  { unfold Rename.POST. cbn [Rename.CLOUD_FILES]. rewrite Hm, Ha, Hj.
    cbn [negb Rename.oldKey Rename.newKey].
    destruct old as [|co old]; [congruence|].
    destruct new as [|cn new]; [congruence|].
    destruct (String.eqb_spec (String co old) (String cn new)); [congruence|].
    rewrite Hgo, Hgn, Hbuf, Hput, Hdel. reflexivity. }
  pose proof (Rename.get_reads bucket Hlaw _ _ _ Hgo) as Ho. symmetry in Ho.
  pose proof (Rename.arrayBuffer_reads bucket Hlaw _ _ Hbuf) as Hc. subst content.
  rewrite (put_returned bucket Hlaw _ _ _ _ Hput).
  split; [rewrite lookup_insert_ne by congruence; exact Ho|apply lookup_insert_eq].
Qed.

(* ===================================================================== *)
(** ** Listing *)
(* ===================================================================== *)

Section Listing.
Import ListAssets.

Lemma paging_all (listNext : option string -> Coordinator.Outcome Page) showFolders :
  forall (pages : list Page) (fuel : nat) objs folders cursor,
    answers listNext cursor pages ->
    (length pages <= fuel)%nat ->
    paging listNext showFolders fuel objs folders true cursor
    = Some (Coordinator.Returns
              (objs ++ concat (objects <$> pages),
               folders ++ (if showFolders
                           then concat (delimitedPrefixes <$> pages) else []))).
Proof.
  induction pages as [|page rest IH]; intros fuel objs folders cursor Hans Hfuel;
    [destruct Hans|].
  destruct fuel as [|fuel]; [cbn in Hfuel; lia|].
  destruct Hans as [Hpage Hrest]. cbn [paging negb]. rewrite Hpage.
  destruct rest as [|page' rest'].
  - rewrite Hrest. destruct fuel; cbn [paging negb fmap list_fmap concat];
      rewrite !app_nil_r; destruct showFolders; rewrite ?app_nil_r; reflexivity.
  - destruct Hrest as [Htr Hans']. rewrite Htr.
    rewrite (IH fuel _ _ _ Hans') by (cbn in *; lia).
    change (objects <$> page :: page' :: rest')
      with (objects page :: (objects <$> page' :: rest')).
    change (delimitedPrefixes <$> page :: page' :: rest')
      with (delimitedPrefixes page :: (delimitedPrefixes <$> page' :: rest')).
    cbn [concat]. rewrite <- !app_assoc.
    destruct showFolders; rewrite <- ?app_assoc; reflexivity.
Qed.

End Listing.

(** X13. When the bucket answers a listing in pages, each but the last
    marked as truncated, the route asks for every page with the cursor
    of the one before and returns the objects of all pages in order;
    the folders are those of all pages when folders are asked for, and
    those of the first page otherwise. *)
Theorem listing_returns_every_page
    (bucket : ListAssets.Bucket) (req : ListAssets.Request)
    (first : ListAssets.Page) (more : list ListAssets.Page) (fuel : nat) :
  String.eqb (ListAssets.method req) "OPTIONS" = false ->
  ListAssets.authenticated req = true ->
  let folderPath :=
    default "" (JS.orElse (JS.get "folder" (ListAssets.searchParams req)) (Some "")) in
  let showFolders :=
    bool_decide (JS.get "showFolders" (ListAssets.searchParams req) = Some "true") in
  let options :=
    {| ListAssets.limit := 1000;
       ListAssets.prefix := if JS.nonEmpty (ListAssets.prefixOf folderPath)
                            then Some (ListAssets.prefixOf folderPath) else None;
       ListAssets.delimiter := if showFolders then Some "/" else None |} in
  ListAssets.answers (bucket options) None (first :: more) ->
  (length more <= fuel)%nat ->
  ListAssets.GET {| ListAssets.CLOUD_FILES := Some bucket |} req fuel
  = Some (ListAssets.success
            (ListAssets.Listed
               (concat (ListAssets.objects <$> first :: more))
               (if showFolders
                then concat (ListAssets.delimitedPrefixes <$> first :: more)
                else ListAssets.delimitedPrefixes first)
               (ListAssets.normalizedFolder folderPath))).
Proof.
  intros Hm Ha folderPath showFolders options [Hfirst Hmore] Hfuel.
  unfold ListAssets.GET. cbn [ListAssets.CLOUD_FILES]. rewrite Hm, Ha. cbn [negb].
  fold folderPath. fold showFolders. fold options. rewrite Hfirst.
  destruct more as [|page rest].
  - rewrite Hmore. destruct fuel; cbn; rewrite ?app_nil_r;
      destruct showFolders; rewrite ?app_nil_r; reflexivity.
  - destruct Hmore as [Htr Hans]. rewrite Htr.
    rewrite (paging_all (bucket options) showFolders (page :: rest) fuel _ _ _ Hans Hfuel).
    change (ListAssets.objects <$> first :: page :: rest)
      with (ListAssets.objects first :: (ListAssets.objects <$> page :: rest)).
    change (ListAssets.delimitedPrefixes <$> first :: page :: rest)
      with (ListAssets.delimitedPrefixes first
              :: (ListAssets.delimitedPrefixes <$> page :: rest)).
    cbn [concat]. destruct showFolders; rewrite ?app_nil_r; reflexivity.
Qed.

(* ===================================================================== *)
(** ** The file list of the gallery *)
(* ===================================================================== *)

Section UniqueFiles.
Import Gallery.

Lemma findIndex_Some {A : Type} (p : A -> bool) (l : list A) (i : nat) :
  findIndex p l = Some i ->
  exists x, l !! i = Some x /\ p x = true
            /\ forall j y, (j < i)%nat -> l !! j = Some y -> p y = false.
Proof.
  revert i. induction l as [|x l IH]; intros i; cbn [findIndex]; [discriminate|].
  destruct (p x) eqn:Hp.
  - intros H. inversion H; subst. exists x. split; [reflexivity|].
    split; [exact Hp|]. intros j y Hj. lia.
  - destruct (findIndex p l) as [i'|]; [|discriminate].
    cbn. intros H. inversion H; subst.
    destruct (IH i' eq_refl) as (z & Hz & Hpz & Hbefore).
    exists z. split; [exact Hz|]. split; [exact Hpz|].
    intros [|j] y Hj Hy; cbn in Hy; [congruence|].
    apply (Hbefore j y); [lia|exact Hy].
Qed.

Lemma findIndex_first {A : Type} (p : A -> bool) (l : list A) (i : nat) (x : A) :
  l !! i = Some x -> p x = true ->
  (forall j y, (j < i)%nat -> l !! j = Some y -> p y = false) ->
  findIndex p l = Some i.
Proof.
  revert i. induction l as [|z l IH]; intros i Hx Hp Hbefore; [discriminate|].
  cbn [findIndex]. destruct i as [|i].
  - cbn in Hx. inversion Hx; subst. rewrite Hp. reflexivity.
  - rewrite (Hbefore 0%nat z ltac:(lia) eq_refl).
    rewrite (IH i Hx Hp); [reflexivity|].
    intros j y Hj Hy. apply (Hbefore (S j) y); [lia|exact Hy].
Qed.

Lemma filterFrom_elem {A : Type} (p : nat -> A -> bool) (l : list A) :
  forall index x,
    x ∈ filterFrom p index l <->
    exists j, l !! j = Some x /\ p (index + j)%nat x = true.
Proof.
  induction l as [|z l IH]; intros index x; cbn [filterFrom].
  - split; [intros H; inversion H|intros (j & Hj & _); discriminate].
  - split.
    + intros H.
      assert (Hcases : (x = z /\ p index z = true) \/ x ∈ filterFrom p (S index) l).
      { destruct (p index z) eqn:Hp; [|right; exact H].
        apply elem_of_cons in H. destruct H as [->|H]; [left; auto|right; exact H]. }
      destruct Hcases as [[-> Hp]|Hin].
      * exists 0%nat. rewrite Nat.add_0_r. auto.
      * apply IH in Hin. destruct Hin as (j & Hj & Hp).
        exists (S j). split; [exact Hj|].
        replace (index + S j)%nat with (S index + j)%nat by lia. exact Hp.
    + intros (j & Hj & Hp). destruct j as [|j].
      * cbn in Hj. inversion Hj; subst. rewrite Nat.add_0_r in Hp. rewrite Hp.
        apply list_elem_of_here.
      * assert (Hin : x ∈ filterFrom p (S index) l).
        { apply IH. exists j. split; [exact Hj|].
          replace (S index + j)%nat with (index + S j)%nat by lia. exact Hp. }
        destruct (p index z); [apply list_elem_of_further|]; exact Hin.
Qed.

Lemma filterFrom_sublist {A : Type} (p : nat -> A -> bool) (l : list A) :
  forall index, filterFrom p index l `sublist_of` l.
Proof.
  induction l as [|z l IH]; intros index; cbn [filterFrom]; [constructor|].
  destruct (p index z); [apply sublist_skip|apply sublist_cons]; apply IH.
Qed.

Lemma isFirst_spec (self : list FileData) (index : nat) (file : FileData) :
  isFirst self index file = true ->
  JS.truthy (fileKey file) = true
  /\ forall j y, (j < index)%nat -> self !! j = Some y -> fileKey y <> fileKey file.
Proof.
  unfold isFirst. intros H. apply andb_true_iff in H. destruct H as [Ht Hf].
  split; [exact Ht|]. apply bool_decide_eq_true in Hf.
  destruct (findIndex_Some _ _ _ Hf) as (x & _ & _ & Hbefore).
  intros j y Hj Hy Heq. specialize (Hbefore j y Hj Hy).
  apply bool_decide_eq_false in Hbefore. contradiction.
Qed.

Lemma uniqueFiles_keys_from (self : list FileData) :
  forall (l : list FileData) (index : nat),
    (forall j x, l !! j = Some x -> self !! (index + j)%nat = Some x) ->
    NoDup (fileKey <$> filterFrom (isFirst self) index l).
Proof.
  induction l as [|x l IH]; intros index Hpart; cbn [filterFrom]; [constructor|].
  assert (Hrest : NoDup (fileKey <$> filterFrom (isFirst self) (S index) l)).
  { apply IH. intros j y Hy.
    replace (S index + j)%nat with (index + S j)%nat by lia. apply Hpart. exact Hy. }
  destruct (isFirst self index x) eqn:Hx; [|exact Hrest].
  change (fileKey <$> x :: ?r) with (fileKey x :: (fileKey <$> r)).
  apply NoDup_cons. split; [|exact Hrest].
  intros Hin. apply list_elem_of_fmap in Hin. destruct Hin as (y & Heq & Hy).
  apply filterFrom_elem in Hy. destruct Hy as (j & Hj & Hfirst).
  apply isFirst_spec in Hfirst. destruct Hfirst as [_ Hbefore].
  apply (Hbefore index x); [lia| |exact Heq].
  specialize (Hpart 0%nat x eq_refl). rewrite Nat.add_0_r in Hpart. exact Hpart.
Qed.

End UniqueFiles.

(** X14. The file list the gallery shows after loading has one entry per
    key: the entries are taken from the listing in their order, entries
    without key and name are dropped, no two entries have the same key,
    and of the entries with one key the first of the listing is the one
    kept, so that every key of the listing is shown. *)
Theorem gallery_shows_each_key_once :
  forall objects : list Gallery.FileData,
    Gallery.uniqueFiles objects `sublist_of` objects
    /\ Forall (fun file => JS.truthy (Gallery.fileKey file) = true)
              (Gallery.uniqueFiles objects)
    /\ NoDup (Gallery.fileKey <$> Gallery.uniqueFiles objects)
    /\ (forall i file,
          objects !! i = Some file ->
          JS.truthy (Gallery.fileKey file) = true ->
          (forall j other, (j < i)%nat -> objects !! j = Some other ->
                           Gallery.fileKey other <> Gallery.fileKey file) ->
          file ∈ Gallery.uniqueFiles objects)
    /\ (forall file,
          file ∈ objects ->
          JS.truthy (Gallery.fileKey file) = true ->
          Gallery.fileKey file ∈ (Gallery.fileKey <$> Gallery.uniqueFiles objects)).
Proof.
  intros objects. unfold Gallery.uniqueFiles.
  assert (Hfirst : forall i file,
            objects !! i = Some file ->
            JS.truthy (Gallery.fileKey file) = true ->
            (forall j other, (j < i)%nat -> objects !! j = Some other ->
                             Gallery.fileKey other <> Gallery.fileKey file) ->
            file ∈ Gallery.filterFrom (Gallery.isFirst objects) 0 objects).
  { intros i file Hi Ht Hbefore. apply filterFrom_elem. exists i.
    split; [exact Hi|]. cbn [Nat.add]. unfold Gallery.isFirst. rewrite Ht. cbn [andb].
    apply bool_decide_eq_true.
    apply (findIndex_first _ objects i file Hi).
    - apply bool_decide_eq_true. reflexivity.
    - intros j y Hj Hy. apply bool_decide_eq_false. apply (Hbefore j y Hj Hy). }
  split; [apply filterFrom_sublist|].
  split.
  { apply Forall_forall. intros file Hin. apply filterFrom_elem in Hin.
    destruct Hin as (j & _ & Hf). apply isFirst_spec in Hf. apply Hf. }
  split; [apply uniqueFiles_keys_from; intros j x Hx; exact Hx|].
  split; [exact Hfirst|].
  intros file Hin Ht. apply list_elem_of_lookup in Hin. destruct Hin as [i Hi].
  (* the first entry of the listing with this key *)
  destruct (Gallery.findIndex
              (fun f => bool_decide (Gallery.fileKey f = Gallery.fileKey file)) objects)
    as [i0|] eqn:Hfind.
  - destruct (findIndex_Some _ _ _ Hfind) as (x & Hx & Hpx & Hbefore).
    apply bool_decide_eq_true in Hpx.
    apply list_elem_of_fmap. exists x. split; [congruence|].
    apply (Hfirst i0 x Hx); [rewrite Hpx; exact Ht|].
    intros j y Hj Hy Heq. specialize (Hbefore j y Hj Hy).
    apply bool_decide_eq_false in Hbefore. apply Hbefore. congruence.
  - exfalso. clear Hfirst. revert i Hi Hfind.
    induction objects as [|z l IH]; intros i Hi Hfind; [discriminate|].
    cbn [Gallery.findIndex] in Hfind.
    destruct (bool_decide (Gallery.fileKey z = Gallery.fileKey file)) eqn:Hz;
      [discriminate|].
    destruct i as [|i].
    + cbn in Hi. inversion Hi; subst. apply bool_decide_eq_false in Hz. congruence.
    + destruct (Gallery.findIndex _ l) eqn:Hl; [discriminate|].
      apply (IH i Hi eq_refl).
Qed.

(* ===================================================================== *)
(** ** Strings *)
(* ===================================================================== *)

Section Strings.

Lemma append_cons c (a b : string) : String c a +:+ b = String c (a +:+ b).
Proof. reflexivity. Qed.

Lemma append_empty_l (b : string) : "" +:+ b = b.
Proof. reflexivity. Qed.

Lemma append_empty_r (s : string) : s +:+ "" = s.
Proof.
  induction s as [|c s IH]; [reflexivity|]. rewrite append_cons, IH. reflexivity.
Qed.

Lemma append_assoc (a b c : string) : (a +:+ b) +:+ c = a +:+ (b +:+ c).
Proof.
  induction a as [|x a IH]; [reflexivity|]. rewrite !append_cons, IH. reflexivity.
Qed.

Lemma length_append (a b : string) :
  String.length (a +:+ b) = (String.length a + String.length b)%nat.
Proof.
  induction a as [|x a IH]; [reflexivity|]. rewrite append_cons. cbn.
  rewrite IH. reflexivity.
Qed.

Lemma rev_append_twice (s acc t : string) :
  JS.rev_append (JS.rev_append s acc) t = JS.rev_append acc (s +:+ t).
Proof.
  revert acc t. induction s as [|c s IH]; intros acc t; cbn [JS.rev_append];
    [reflexivity|].
  rewrite IH. cbn [JS.rev_append]. rewrite append_cons. reflexivity.
Qed.

Lemma rev_involutive (s : string) : JS.rev (JS.rev s) = s.
Proof.
  unfold JS.rev. rewrite rev_append_twice. cbn [JS.rev_append]. apply append_empty_r.
Qed.


Lemma occurs_rev_append c (s acc : string) :
  Keys.occurs c (JS.rev_append s acc) = Keys.occurs c s || Keys.occurs c acc.
Proof.
  revert acc. induction s as [|x s IH]; intros acc; cbn; [reflexivity|].
  rewrite IH. cbn. destruct (Ascii.eqb c x), (Keys.occurs c s), (Keys.occurs c acc);
    reflexivity.
Qed.

Lemma occurs_rev c (s : string) : Keys.occurs c (JS.rev s) = Keys.occurs c s.
Proof. unfold JS.rev. rewrite occurs_rev_append. cbn. apply orb_false_r. Qed.



Lemma includes_char (s : string) c :
  JS.includes s (String c "") = Keys.occurs c s.
Proof.
  induction s as [|x s IH]; cbn; [reflexivity|].
  rewrite IH. destruct (Ascii.eqb c x); reflexivity.
Qed.


(** The text after the last separator. *)
Lemma lastSegment_no_sep sep (s cur : string) :
  Keys.occurs sep s = false ->
  JS.lastSegmentFrom sep cur s = JS.rev (JS.rev_append s cur).
Proof.
  revert cur. induction s as [|c s IH]; intros cur; cbn; [reflexivity|].
  intros H. apply orb_false_iff in H. destruct H as [Hc Hs].
  rewrite Ascii.eqb_sym, Hc. apply IH, Hs.
Qed.

Lemma splitPop_no_sep sep (s : string) :
  Keys.occurs sep s = false -> JS.splitPop sep s = s.
Proof.
  intros H. unfold JS.splitPop. rewrite (lastSegment_no_sep sep s "" H).
  apply rev_involutive.
Qed.

Lemma lastSegment_after_sep sep (a e cur : string) :
  JS.lastSegmentFrom sep cur (a +:+ String sep e) = JS.lastSegmentFrom sep "" e.
Proof.
  revert cur. induction a as [|c a IH]; intros cur.
  - rewrite append_empty_l. cbn [JS.lastSegmentFrom].
    rewrite Ascii.eqb_refl. reflexivity.
  - rewrite append_cons. cbn [JS.lastSegmentFrom].
    destruct (Ascii.eqb c sep); apply IH.
Qed.

Lemma splitPop_after_sep sep (a e : string) :
  Keys.occurs sep e = false ->
  JS.splitPop sep (a +:+ String sep e) = e.
Proof.
  intros H. unfold JS.splitPop. rewrite lastSegment_after_sep.
  apply (splitPop_no_sep sep e H).
Qed.

Lemma lastSegment_has_no_sep sep (s cur : string) :
  Keys.occurs sep cur = false ->
  Keys.occurs sep (JS.lastSegmentFrom sep cur s) = false.
Proof.
  revert cur. induction s as [|c s IH]; intros cur Hcur; cbn.
  - rewrite occurs_rev. exact Hcur.
  - destruct (Ascii.eqb_spec c sep) as [->|Hne]; [apply IH; reflexivity|].
    apply IH. cbn. rewrite Hcur.
    destruct (Ascii.eqb_spec sep c); [congruence|reflexivity].
Qed.

Lemma splitPop_has_no_sep sep (s : string) :
  Keys.occurs sep (JS.splitPop sep s) = false.
Proof. apply lastSegment_has_no_sep. reflexivity. Qed.

End Strings.

(** X15. A generated random file name ends in a dot and the extension of
    the original name, and that is again its extension, whatever the
    time stamp and the random characters are; for an original name
    without a dot the whole name is taken as the extension. *)
Theorem random_name_keeps_extension (originalName timestamp random : string) :
  JS.nonEmpty (JS.splitPop JS.dot originalName) = true ->
  Keys.generateRandomFilename originalName timestamp random
  = timestamp +:+ "-" +:+ random +:+ "." +:+ JS.splitPop JS.dot originalName
  /\ JS.splitPop JS.dot (Keys.generateRandomFilename originalName timestamp random)
     = JS.splitPop JS.dot originalName
  /\ (Keys.occurs JS.dot originalName = false ->
      JS.splitPop JS.dot originalName = originalName).
Proof.
  intros Hext. unfold Keys.generateRandomFilename. rewrite Hext.
  split; [reflexivity|]. split; [|apply splitPop_no_sep].
  replace (timestamp +:+ "-" +:+ random +:+ "." +:+ JS.splitPop JS.dot originalName)
    with ((timestamp +:+ "-" +:+ random)
            +:+ String JS.dot (JS.splitPop JS.dot originalName))
    by (rewrite !append_assoc; reflexivity).
  apply splitPop_after_sep, splitPop_has_no_sep.
Qed.

Lemma random_name_keeps_extension_witness :
  JS.splitPop JS.dot (Keys.generateRandomFilename "holiday.photo.jpg" "1700000000000" "k3x9qa")
  = "jpg".
Proof.
  apply (random_name_keeps_extension "holiday.photo.jpg" "1700000000000" "k3x9qa").
  reflexivity.
Defined.

(* ===================================================================== *)
(** ** Keys: what is checked and what is written *)
(* ===================================================================== *)

Section KeyAgreement.

Lemma prefixed_differs (a b : string) : a +:+ "/" +:+ b <> b.
Proof.
  intros H. apply (f_equal String.length) in H.
  rewrite !length_append in H. cbn in H. lia.
Qed.

Lemma keyToUse_is_finalKey ui : Keys.keyToUse ui = Keys.finalKey ui.
Proof. reflexivity. Qed.



End KeyAgreement.

(** X16. The key [uploadFileMultipart] asks check-asset about is the key
    it opens the session for, except in two cases: a custom key that
    itself contains a slash while a target folder is set (the session
    key is the custom key, the checked key has the folder put in front,
    and the two differ), and no custom key with a folder path typed in
    (the session key ends in a generated random name, the checked key in
    the file's name). *)
Theorem checked_key_and_session_key (ui : Keys.Form) (randomName : string) :
  Keys.multipartKey ui randomName = Keys.finalKey ui
  \/ (JS.truthy (Keys.replacingKey ui) = false
      /\ JS.nonEmpty (JS.trim (Keys.customKey ui)) = true
      /\ JS.nonEmpty (Keys.targetFolder ui) = true
      /\ JS.includes (Keys.keyWithExt ui) "/" = true
      /\ Keys.multipartKey ui randomName = Keys.keyWithExt ui
      /\ Keys.finalKey ui = Keys.targetFolder ui +:+ "/" +:+ Keys.keyWithExt ui
      /\ Keys.multipartKey ui randomName <> Keys.finalKey ui)
  \/ (JS.truthy (Keys.replacingKey ui) = false
      /\ JS.nonEmpty (JS.trim (Keys.customKey ui)) = false
      /\ JS.nonEmpty (JS.trim (Keys.folderPath ui)) = true
      /\ Keys.multipartKey ui randomName = JS.trim (Keys.folderPath ui) +:+ "/" +:+ randomName
      /\ Keys.finalKey ui = JS.trim (Keys.folderPath ui) +:+ "/" +:+ Keys.fileName ui).
Proof.
  unfold Keys.multipartKey, Keys.finalKey.
  destruct (JS.truthy (Keys.replacingKey ui)) eqn:Hrep; [left; reflexivity|].
  destruct (JS.nonEmpty (JS.trim (Keys.customKey ui))) eqn:Hcustom.
  - destruct (JS.nonEmpty (Keys.targetFolder ui)) eqn:Hfolder; [|left; reflexivity].
    destruct (JS.includes (Keys.keyWithExt ui) "/") eqn:Hslash; [|left; reflexivity].
    right; left. cbn [negb andb]. repeat split.
    intros H. symmetry in H. apply prefixed_differs in H. exact H.
  - destruct (JS.nonEmpty (JS.trim (Keys.folderPath ui))) eqn:Hpath.
    + right; right.
      assert (Htf : Keys.targetFolder ui = JS.trim (Keys.folderPath ui))
        by (unfold Keys.targetFolder; rewrite Hpath; reflexivity).
      rewrite Htf, Hpath. repeat split.
    + left. reflexivity.
Qed.


(** X18. A file whose name has no dot, uploaded by the simple path with
    no custom key and no folder, is not put under its name: the browser
    asks check-asset about the name and sends it as the key, and the
    upload route appends a dot and the name once more, so that its one
    call on the bucket is the [put] under the doubled name; when that
    [put] resolves to an object the answer is 200. *)
Theorem dotless_name_is_stored_doubled
    (ui : Keys.Form) (file : Upload.File)
    (bucket : Upload.Bucket) (req : Upload.Request) :
  String.eqb (Upload.method req) "OPTIONS" = false ->
  Upload.authenticated req = true ->
  Upload.formData req = Some (Keys.simpleForm ui file) ->
  Keys.replacingKey ui = None ->
  JS.trim (Keys.customKey ui) = "" ->
  JS.trim (Keys.folderPath ui) = "" ->
  Keys.currentFolder ui = "" ->
  Keys.fileName ui = Upload.name file ->
  JS.nonEmpty (Upload.name file) = true ->
  JS.trim (Upload.name file) = Upload.name file ->
  Keys.occurs JS.dot (Upload.name file) = false ->
  Keys.occurs JS.slash (Upload.name file) = false ->
  let key := Upload.name file +:+ "." +:+ Upload.name file in
  let outcome := Upload.put bucket (Upload.objects bucket) key file (Upload.type file) in
  let result := Upload.POST {| Upload.CLOUD_FILES := Some bucket |} req in
  Keys.finalKey ui = Upload.name file
  /\ result = (Upload.answer key file (fst outcome), Some (snd outcome),
               [Upload.CallPut key file (Upload.type file)])
  /\ (forall object,
        fst outcome = Coordinator.Returns (Some object) ->
        fst (fst result)
        = Upload.success (Upload.Stored key (Upload.obj_key object)
                            (Upload.size file) (Upload.type file)))
  /\ key <> Keys.finalKey ui.
Proof.
  intros Hm Ha Hform Hrep Hcustom Hpath Hcur Hname Hne Htrim Hdot Hslash key outcome result.
  assert (Hfinal : Keys.finalKey ui = Upload.name file).
  { unfold Keys.finalKey, Keys.targetFolder.
    rewrite Hrep, Hcustom, Hpath, Hcur, Hname. reflexivity. }
  assert (Hfolder : Keys.targetFolder ui = "").
  { unfold Keys.targetFolder. rewrite Hpath, Hcur. reflexivity. }
  assert (Hresult : result = (Upload.answer key file (fst outcome), Some (snd outcome),
                              [Upload.CallPut key file (Upload.type file)])).
  { subst result outcome key.
    assert (Hsent : Keys.simpleForm ui file
                    = [("file", Upload.Blob file); ("key", Upload.Text (Upload.name file))]).
    { unfold Keys.simpleForm. rewrite keyToUse_is_finalKey, Hfinal, Hne, Hfolder.
      reflexivity. }
    assert (Hfile : Upload.filename file (Some (Upload.name file))
                      (default "" (JS.orElse None (Some "")))
                    = Upload.name file +:+ "." +:+ Upload.name file).
    { unfold Upload.filename.
      assert (Htruthy : JS.truthy (Some (Upload.name file)) = true).
      { destruct (Upload.name file); [discriminate|reflexivity]. }
      rewrite Htruthy. cbn [from_option id]. rewrite Htrim, Hne. cbn [andb].
      change "/"%string with (String JS.slash "").
      rewrite includes_char, Hslash.
      unfold Upload.hasExtension.
      change "."%string with (String JS.dot "").
      rewrite includes_char, Hdot. cbn [andb negb].
      rewrite (splitPop_no_sep JS.dot _ Hdot), Hne. reflexivity. }
    pose proof (POST_well_formed bucket req (Keys.simpleForm ui file) file
                  (Some (Upload.name file)) None Hm Ha Hform) as Hpost.
    rewrite Hsent in Hpost. specialize (Hpost eq_refl eq_refl eq_refl).
    cbn zeta in Hpost. rewrite Hfile in Hpost. exact Hpost. }
  split; [exact Hfinal|]. split; [exact Hresult|]. split.
  - intros object Hobject. rewrite Hresult. cbn [fst]. rewrite Hobject. reflexivity.
  - subst key. rewrite Hfinal. intros H. apply (f_equal String.length) in H.
    rewrite !length_append in H. cbn in H. lia.
Qed.

(* ===================================================================== *)
(** ** Part numbers on the wire *)
(* ===================================================================== *)

Section PartNumbers.

Lemma digit_cases (d : Z) :
  0 <= d <= 9 ->
  d = 0 \/ d = 1 \/ d = 2 \/ d = 3 \/ d = 4 \/ d = 5 \/ d = 6 \/ d = 7 \/ d = 8 \/ d = 9.
Proof. lia. Qed.

Ltac each_digit H :=
  destruct H as [->|[->|[->|[->|[->|[->|[->|[->|[->| ->]]]]]]]]].

Lemma radixDigit_digitChar (d : Z) :
  0 <= d <= 9 -> JS.radixDigit 10 (Digits.digitChar d) = Some d.
Proof. intros H. apply digit_cases in H. each_digit H; reflexivity. Qed.

Lemma parseDigits_digit (a : option Z) (d : Z) (rest : string) :
  0 <= d <= 9 ->
  JS.parseDigits 10 a (String (Digits.digitChar d) rest)
  = JS.parseDigits 10 (Some (default 0 a * 10 + d)) rest.
Proof.
  intros Hd. cbn [JS.parseDigits]. rewrite (radixDigit_digitChar d Hd).
  destruct a as [a|]; cbn [from_option id]; [reflexivity|].
  replace (0 * 10 + d) with d by lia. reflexivity.
Qed.

Lemma mod10_digit (n : Z) : 0 <= n mod 10 <= 9.
Proof. pose proof (Z.mod_pos_bound n 10 ltac:(lia)). lia. Qed.

Lemma parseDigits_digitsFrom :
  forall (fuel : nat) (n : Z) (acc : string) (a : option Z),
    JS.parseDigits 10 a (Digits.digitsFrom (S fuel) n acc)
    = JS.parseDigits 10 (Some (Digits.valueAfter (S fuel) n (default 0 a))) acc.
Proof.
  assert (HdS : forall fuel n acc,
            Digits.digitsFrom (S fuel) n acc
            = if n / 10 =? 0 then String (Digits.digitChar (n mod 10)) acc
              else Digits.digitsFrom fuel (n / 10) (String (Digits.digitChar (n mod 10)) acc))
    by reflexivity.
  assert (HvS : forall fuel n a,
            Digits.valueAfter (S fuel) n a
            = if n / 10 =? 0 then a * 10 + n mod 10
              else Digits.valueAfter fuel (n / 10) a * 10 + n mod 10)
    by reflexivity.
  induction fuel as [|fuel IH]; intros n acc a.
  - rewrite (HdS 0%nat), (HvS 0%nat). cbn [Digits.digitsFrom Digits.valueAfter].
    destruct (n / 10 =? 0); apply parseDigits_digit, mod10_digit.
  - rewrite (HdS (S fuel)), (HvS (S fuel)).
    destruct (n / 10 =? 0); [apply parseDigits_digit, mod10_digit|].
    rewrite (IH (n / 10) (String (Digits.digitChar (n mod 10)) acc) a).
    rewrite (parseDigits_digit _ (n mod 10) acc (mod10_digit n)). reflexivity.
Qed.

Lemma valueAfter_value :
  forall (fuel : nat) (n : Z),
    0 <= n < Z.of_nat fuel -> Digits.valueAfter fuel n 0 = n.
Proof.
  induction fuel as [|fuel IH]; intros n Hn; [lia|].
  cbn [Digits.valueAfter].
  pose proof (Z.div_mod n 10 ltac:(lia)) as Hdm.
  pose proof (mod10_digit n) as Hmod.
  destruct (Z.eqb_spec (n / 10) 0) as [Hz|Hnz]; [lia|].
  assert (Hq : 0 <= n / 10 < Z.of_nat fuel).
  { assert (0 <= n / 10) by (apply Z.div_pos; lia). lia. }
  rewrite (IH (n / 10) Hq). lia.
Qed.

Lemma digitsFrom_digits :
  forall (fuel : nat) (n : Z) (acc : string),
    Digits.isDigits acc = true ->
    Digits.isDigits (Digits.digitsFrom fuel n acc) = true.
Proof.
  assert (Hchar : forall d, 0 <= d <= 9 ->
            (48 <=? JS.code (Digits.digitChar d)) && (JS.code (Digits.digitChar d) <=? 57)
            = true).
  { intros d H. apply digit_cases in H. each_digit H; reflexivity. }
  induction fuel as [|fuel IH]; intros n acc Hacc; cbn [Digits.digitsFrom]; [exact Hacc|].
  assert (Hnext : Digits.isDigits (String (Digits.digitChar (n mod 10)) acc) = true).
  { cbn [Digits.isDigits]. rewrite (Hchar _ (mod10_digit n)), Hacc. reflexivity. }
  destruct (n / 10 =? 0); [exact Hnext|apply IH, Hnext].
Qed.

Lemma digitsFrom_nonEmpty (fuel : nat) (n : Z) (acc : string) :
  JS.nonEmpty (Digits.digitsFrom (S fuel) n acc) = true.
Proof.
  revert n acc. induction fuel as [|fuel IH]; intros n acc; cbn [Digits.digitsFrom];
    destruct (n / 10 =? 0); try reflexivity.
  apply IH.
Qed.

Lemma code_cases (c : ascii) :
  (48 <=? JS.code c) && (JS.code c <=? 57) = true ->
  exists d, 0 <= d <= 9 /\ c = Digits.digitChar d.
Proof.
  intros H. apply andb_true_iff in H. destruct H as [Hlo Hhi].
  apply Z.leb_le in Hlo. apply Z.leb_le in Hhi.
  exists (JS.code c - 48). split; [lia|].
  unfold Digits.digitChar, JS.code in *.
  replace (48 + (Z.of_nat (nat_of_ascii c) - 48)) with (Z.of_nat (nat_of_ascii c)) by lia.
  rewrite Nat2Z.id. symmetry. apply ascii_nat_embedding.
Qed.

(** On a non-empty string of digits [parseInt] reads the whole string in
    base ten. *)
Lemma parseInt_digits (s : string) :
  JS.nonEmpty s = true -> Digits.isDigits s = true ->
  JS.parseInt s = match JS.parseDigits 10 None s with
                  | Some m => Some (JS.toDouble (1 * m))
                  | None => None
                  end.
Proof.
  destruct s as [|c r]; [discriminate|]. intros _ Hd. cbn [Digits.isDigits] in Hd.
  apply andb_true_iff in Hd. destruct Hd as [Hc Hr].
  destruct (code_cases c Hc) as (d & Hdr & ->).
  assert (Hsecond : forall c2 r2, r = String c2 r2 ->
            c2 <> "x"%char /\ c2 <> "X"%char).
  { intros c2 r2 ->. cbn [Digits.isDigits] in Hr.
    apply andb_true_iff in Hr. destruct Hr as [Hc2 _].
    destruct (code_cases c2 Hc2) as (d2 & Hd2 & ->).
    apply digit_cases in Hd2. each_digit Hd2; split; discriminate. }
  apply digit_cases in Hdr. each_digit Hdr; try reflexivity.
  (* the first digit is 0: no hexadecimal prefix follows *)
  destruct r as [|c2 r2]; [reflexivity|].
  destruct (Hsecond c2 r2 eq_refl) as [Hx HX].
  unfold JS.parseInt.
  change (JS.trimStart (String (Digits.digitChar 0) (String c2 r2)))
    with (String "0"%char (String c2 r2)).
  cbn iota beta.
  destruct c2 as [[] [] [] [] [] [] [] []]; try reflexivity; congruence.
Qed.

(** Below 2^53 the rounding to a double changes nothing. *)
Lemma toDouble_safe (m : Z) :
  Z.abs m < 9007199254740992 -> JS.toDouble m = JS.Finite m.
Proof.
  intros Hm. unfold JS.toDouble.
  destruct (Z.ltb_spec (Z.abs m) 9007199254740992); [reflexivity|lia].
Qed.

End PartNumbers.

(** X19. The part number survives the wire: for a part number below
    2^53, as every part number of a file is, the decimal text the
    Planner writes into the URL is read back by the Coordinator's
    [parseInt] as the same number, and an upload-part request carrying
    it, from a logged-in caller with session id, key and body, reaches
    the bucket's upload-part primitive with exactly that part number. *)
Theorem part_number_round_trip
    (env : Coordinator.Env) (req : Coordinator.Request) (bucket : Coordinator.Bucket)
    (n : Z) (uploadId key : string) (data : Coordinator.bytes) :
  1 <= n < 9007199254740992 ->
  String.eqb (Coordinator.method req) "OPTIONS" = false ->
  Coordinator.authenticated req = true ->
  Coordinator.CLOUD_FILES env = Some bucket ->
  Coordinator.action req = Some "upload-part" ->
  JS.get "uploadId" (Coordinator.searchParams req) = Some uploadId ->
  JS.get "key" (Coordinator.searchParams req) = Some key ->
  JS.get "partNumber" (Coordinator.searchParams req) = Digits.toString n ->
  JS.nonEmpty uploadId = true -> JS.nonEmpty key = true ->
  Coordinator.body req = Some data ->
  (exists text,
      Digits.toString n = Some text /\ JS.parseInt text = Some (JS.Finite n))
  /\ snd (Coordinator.PUT env req)
     = [Coordinator.CallResume key uploadId;
        Coordinator.CallUploadPart key uploadId n data].
Proof.
  intros Hn Hm Ha Hb Hact Hu Hk Hp Hune Hkne Hbody.
  set (text := Digits.digitsFrom (S (Z.to_nat n)) n "").
  assert (Hstr : Digits.toString n = Some text).
  { unfold Digits.toString.
    destruct (Z.leb_spec 9007199254740992 (Z.abs n)); [lia|].
    destruct (Z.ltb_spec n 0); [lia|reflexivity]. }
  assert (Hparse : JS.parseInt text = Some (JS.Finite n)).
  { unfold text. rewrite parseInt_digits;
      [|apply digitsFrom_nonEmpty|apply digitsFrom_digits; reflexivity].
    rewrite parseDigits_digitsFrom. cbn [JS.parseDigits from_option id].
    rewrite valueAfter_value by lia. f_equal.
    replace (1 * n) with n by lia. apply toDouble_safe. lia. }
  split; [exists text; split; assumption|].
  assert (Hpne : JS.nonEmpty text = true) by apply digitsFrom_nonEmpty.
  rewrite Hstr in Hp.
  unfold Coordinator.PUT, Coordinator.handleUploadPart.
  rewrite Hm, Ha, Hb, Hact. cbn [negb].
  change (bool_decide (Some "upload-part" = Some "upload-part")) with true. cbn [negb].
  unfold Coordinator.uploadPartParams. rewrite Hu, Hk, Hp.
  assert (Ht : forall s, JS.nonEmpty s = true -> JS.truthy (Some s) = true).
  { intros [|c s]; [discriminate|reflexivity]. }
  rewrite (Ht _ Hune), (Ht _ Hkne), (Ht _ Hpne). cbn [negb orb].
  rewrite Hune, Hkne, Hpne. cbn [negb orb]. rewrite Hparse.
  cbn [JS.lessThanOne]. destruct (Z.ltb_spec n 1); [lia|]. rewrite Hbody.
  destruct (Coordinator.uploadPart bucket key uploadId n data); reflexivity.
Qed.

(** Above 2^53 the text of a part number is not read back exactly: the
    route hands the nearest double to the bucket. *)
Example part_number_is_rounded_above_2_53 :
  JS.parseInt "9007199254740993" = Some (JS.Finite 9007199254740992)
  /\ snd (Coordinator.PUT Scenarios.boundEnv (Scenarios.putPart "9007199254740993"))
     = [Coordinator.CallResume "video.mp4" "session-1";
        Coordinator.CallUploadPart "video.mp4" "session-1" 9007199254740992
          Scenarios.chunk].
Proof. split; reflexivity. Qed.

(* ===================================================================== *)
(** ** Folder paths *)
(* ===================================================================== *)

Section FolderPaths.

Lemma dropLeading_first ch (s : string) :
  Keys.firstChar (JS.dropLeading ch s) <> Some ch.
Proof.
  induction s as [|c s IH]; cbn [JS.dropLeading]; [discriminate|].
  destruct (Ascii.eqb_spec c ch) as [->|Hne]; [exact IH|].
  cbn. congruence.
Qed.

Lemma lastChar_nonEmpty (s : string) :
  s <> "" -> exists d, Keys.lastChar s = Some d.
Proof.
  destruct s as [|c r]; [congruence|]. intros _. cbn [Keys.lastChar].
  destruct (Keys.lastChar r); eauto.
Qed.

Lemma dropLeading_last ch (s : string) :
  JS.dropLeading ch s <> "" ->
  Keys.lastChar (JS.dropLeading ch s) = Keys.lastChar s.
Proof.
  induction s as [|c s IH]; cbn [JS.dropLeading]; [reflexivity|].
  destruct (Ascii.eqb c ch); [|reflexivity].
  intros Hne. rewrite (IH Hne). cbn [Keys.lastChar].
  destruct (lastChar_nonEmpty _ Hne) as [d Hd]. rewrite (IH Hne) in Hd.
  rewrite Hd. reflexivity.
Qed.

Lemma firstChar_rev_append (s acc : string) :
  Keys.firstChar (JS.rev_append s acc)
  = match Keys.lastChar s with
    | Some d => Some d
    | None => Keys.firstChar acc
    end.
Proof.
  revert acc. induction s as [|c s IH]; intros acc; cbn [JS.rev_append Keys.lastChar];
    [reflexivity|].
  rewrite IH. destruct (Keys.lastChar s); reflexivity.
Qed.

Lemma lastChar_rev_append (s acc : string) :
  Keys.lastChar (JS.rev_append s acc)
  = match Keys.lastChar acc with
    | Some d => Some d
    | None => Keys.firstChar s
    end.
Proof.
  revert acc. induction s as [|c s IH]; intros acc; cbn [JS.rev_append].
  - destruct (Keys.lastChar acc); reflexivity.
  - rewrite IH. cbn [Keys.lastChar Keys.firstChar].
    destruct (Keys.lastChar acc); reflexivity.
Qed.

Lemma firstChar_rev (s : string) : Keys.firstChar (JS.rev s) = Keys.lastChar s.
Proof.
  unfold JS.rev. rewrite firstChar_rev_append. destruct (Keys.lastChar s); reflexivity.
Qed.

Lemma lastChar_rev (s : string) : Keys.lastChar (JS.rev s) = Keys.firstChar s.
Proof. unfold JS.rev. rewrite lastChar_rev_append. reflexivity. Qed.

Lemma stripSlashes_ends (s : string) :
  Keys.firstChar (JS.stripSlashes s) <> Some JS.slash
  /\ Keys.lastChar (JS.stripSlashes s) <> Some JS.slash.
Proof.
  unfold JS.stripSlashes. rewrite firstChar_rev, lastChar_rev.
  split; [|apply dropLeading_first].
  destruct (JS.dropLeading JS.slash (JS.rev (JS.dropLeading JS.slash s))) eqn:Hz;
    [discriminate|].
  rewrite <- Hz. rewrite dropLeading_last by (rewrite Hz; discriminate).
  rewrite lastChar_rev. apply dropLeading_first.
Qed.

Lemma collapse_true_first (s : string) :
  Keys.firstChar (JS.collapseFrom true s) <> Some JS.slash.
Proof.
  induction s as [|c s IH]; cbn [JS.collapseFrom]; [discriminate|].
  destruct (Ascii.eqb_spec c JS.slash) as [->|Hne]; [exact IH|].
  cbn. congruence.
Qed.

Lemma collapse_false_first (s : string) :
  Keys.firstChar (JS.collapseFrom false s) = Keys.firstChar s.
Proof.
  destruct s as [|c s]; cbn [JS.collapseFrom]; [reflexivity|].
  destruct (Ascii.eqb_spec c JS.slash) as [->|Hne]; reflexivity.
Qed.

Lemma collapse_last (s : string) :
  forall prev c,
    Keys.lastChar s = Some c -> c <> JS.slash ->
    Keys.lastChar (JS.collapseFrom prev s) = Some c.
Proof.
  induction s as [|x s IH]; intros prev c Hlast Hc; [discriminate|].
  cbn [Keys.lastChar] in Hlast. cbn [JS.collapseFrom].
  destruct (Keys.lastChar s) as [d|] eqn:Hs.
  - inversion Hlast; subst d.
    destruct (Ascii.eqb x JS.slash); [destruct prev|];
      cbn [Keys.lastChar]; rewrite ?(IH _ c eq_refl Hc); reflexivity.
  - inversion Hlast; subst x. destruct s as [|y s']; [|cbn in Hs; destruct (Keys.lastChar s'); discriminate].
    destruct (Ascii.eqb_spec c JS.slash); [congruence|]. reflexivity.
Qed.

Lemma collapse_no_double (s : string) :
  forall prev, JS.includes (JS.collapseFrom prev s) "//" = false.
Proof.
  induction s as [|x s IH]; intros prev; cbn [JS.collapseFrom]; [reflexivity|].
  destruct (Ascii.eqb_spec x JS.slash) as [->|Hne].
  - destruct prev; [apply IH|].
    cbn [JS.includes]. rewrite IH, orb_false_r.
    cbn [JS.startsWith]. change (Ascii.eqb "/" JS.slash) with true. cbn iota.
    pose proof (collapse_true_first s) as Hfirst.
    destruct (JS.collapseFrom true s) as [|y r]; [reflexivity|].
    cbn [JS.startsWith]. destruct (Ascii.eqb_spec "/"%char y) as [<-|_]; [|reflexivity].
    exfalso. apply Hfirst. reflexivity.
  - cbn [JS.includes]. rewrite IH, orb_false_r.
    cbn [JS.startsWith]. destruct (Ascii.eqb_spec "/"%char x) as [<-|_]; [|reflexivity].
    exfalso. apply Hne. reflexivity.
Qed.

End FolderPaths.

(** X20. The folder that the listing and the upload route work with,
    after normalisation of the path they are given, never starts with a
    slash, never ends with one and never has two slashes in a row; the
    key of a file uploaded into a folder without custom key is the
    prefix the listing uses for that folder followed by the file's
    name. *)
Theorem folder_prefix_is_normal :
  forall (folderPath : string) (file : Upload.File),
    Keys.firstChar (ListAssets.normalizedFolder folderPath) <> Some JS.slash
    /\ Keys.lastChar (ListAssets.normalizedFolder folderPath) <> Some JS.slash
    /\ JS.includes (ListAssets.normalizedFolder folderPath) "//" = false
    /\ Upload.filename file None folderPath
       = ListAssets.prefixOf folderPath +:+ Upload.name file.
Proof.
  intros folderPath file. unfold ListAssets.normalizedFolder, JS.collapseSlashes.
  destruct (stripSlashes_ends (JS.trim folderPath)) as [Hfirst Hlast].
  split; [rewrite collapse_false_first; exact Hfirst|].
  split.
  { destruct (Keys.lastChar (JS.stripSlashes (JS.trim folderPath))) as [c|] eqn:Hc.
    - rewrite (collapse_last _ false c Hc); congruence.
    - destruct (JS.stripSlashes (JS.trim folderPath)) as [|x r]; [discriminate|].
      cbn in Hc. destruct (Keys.lastChar r); discriminate. }
  split; [apply collapse_no_double|reflexivity].
Qed.

(* ===================================================================== *)
(** ** Worked cases *)
(* ===================================================================== *)

Lemma primitive_outcome_is_relayed_witness :
  fst (Coordinator.POST Cases.strictEnv Cases.completeRequest)
  = Coordinator.error "Part 2 is missing" 400.
Proof.
  destruct (primitive_outcome_is_relayed Cases.strictEnv Cases.completeRequest
              Cases.strictBucket eq_refl) as (_ & _ & Hcomplete & _).
  rewrite (Hcomplete "video.mp4" "session-1" Cases.onePart eq_refl). reflexivity.
Defined.

Lemma rename_moves_the_object_witness :
  exists after,
    Rename.POST {| Rename.CLOUD_FILES := Some Cases.drawer |}
      (Cases.renameRequest "a.txt" "b.txt")
    = (Rename.success (Rename.Renamed "a.txt" "b.txt"), Some after,
       [Rename.CallGet "a.txt"; Rename.CallGet "b.txt";
        Rename.CallPut "b.txt" (Rename.copyOf Cases.note (Rename.data Cases.note));
        Rename.CallDelete "a.txt"])
    /\ after !! "b.txt" = Some Cases.note
    /\ after !! "a.txt" = None.
Proof.
  destruct (rename_moves_the_object Cases.drawer (Cases.renameRequest "a.txt" "b.txt")
              "a.txt" "b.txt" Cases.note (Rename.data Cases.note) _ _
              eq_refl eq_refl eq_refl
              ltac:(discriminate) ltac:(discriminate) ltac:(discriminate)
              (keeping_keyValue _) eq_refl eq_refl eq_refl eq_refl eq_refl)
    as (Hpost & _ & _ & Hnew & Hold & _).
  eexists. split; [exact Hpost|]. split; [exact Hnew|exact Hold].
Defined.

Lemma rename_never_overwrites_witness :
  exists held,
    snd (fst (Rename.POST {| Rename.CLOUD_FILES := Some (Cases.sticky {[ "a.txt" := Cases.note ]}) |}
                (Cases.renameRequest "a.txt" "b.txt"))) = Some held
    /\ forall k o,
         ({[ "a.txt" := Cases.note ]} : gmap string Rename.Object) !! k = Some o ->
         held !! k = Some o
         \/ (held !! k = None /\ Some "a.txt" = Some k).
Proof.
  pose proof (rename_never_overwrites (Cases.sticky {[ "a.txt" := Cases.note ]})
                (Cases.renameRequest "a.txt" "b.txt") (sticky_keyValue _)) as H.
  destruct (Rename.POST _ _) as [[response after] calls] eqn:Hpost in H.
  destruct H as (held & Hafter & Hkept & _).
  exists held. split; [rewrite Hpost; exact Hafter|].
  intros k o Hk. destruct (Hkept k o Hk) as [Hsame|(Hgone & Hold & _)];
    [left; exact Hsame|right; split; [exact Hgone|exact Hold]].
Defined.

Lemma rename_there_and_back_witness :
  exists middle final,
    snd (fst (Rename.POST {| Rename.CLOUD_FILES := Some Cases.drawer |}
                (Cases.renameRequest "a.txt" "b.txt"))) = Some middle
    /\ fst (Rename.POST {| Rename.CLOUD_FILES := Some (Rename.holding Cases.drawer middle) |}
              (Cases.renameRequest "b.txt" "a.txt"))
       = (Rename.success (Rename.Renamed "b.txt" "a.txt"), Some final)
    /\ final = Rename.objects Cases.drawer.
Proof.
  destruct (rename_there_and_back Cases.drawer
              (Cases.renameRequest "a.txt" "b.txt") (Cases.renameRequest "b.txt" "a.txt")
              "a.txt" "b.txt" Cases.note eq_refl eq_refl eq_refl eq_refl eq_refl eq_refl
              ltac:(discriminate) ltac:(discriminate) ltac:(discriminate)
              (keeping_keyValue _) (keeping_reliable _) eq_refl eq_refl)
    as (middle & final & H1 & H2 & _ & Hsame).
  exists middle, final. split; [rewrite H1; reflexivity|]. split; [exact H2|].
  apply Hsame. reflexivity.
Defined.

Lemma rename_request_passes_validation_witness :
  Rename.status
    (fst (fst (Rename.POST {| Rename.CLOUD_FILES := Some Cases.drawer |}
                 (Cases.renameRequest "a.txt" "b.txt")))) <> 400.
Proof.
  apply (rename_request_passes_validation Cases.drawer
           (Cases.renameRequest "a.txt" "b.txt") "a.txt" " b.txt "
           {| Rename.oldKey := Some "a.txt"; Rename.newKey := Some "b.txt" |}
           eq_refl eq_refl).
  discriminate.
Defined.

Lemma failed_delete_leaves_both_keys_witness :
  exists held,
    Rename.POST {| Rename.CLOUD_FILES := Some (Cases.sticky {[ "a.txt" := Cases.note ]}) |}
      (Cases.renameRequest "a.txt" "b.txt")
    = (Rename.error "Failed to rename file" 500, Some held,
       [Rename.CallGet "a.txt"; Rename.CallGet "b.txt";
        Rename.CallPut "b.txt" (Rename.copyOf Cases.note (Rename.data Cases.note));
        Rename.CallDelete "a.txt"])
    /\ held !! "a.txt" = Some Cases.note
    /\ held !! "b.txt" = Some Cases.note.
Proof.
  destruct (failed_delete_leaves_both_keys (Cases.sticky {[ "a.txt" := Cases.note ]})
              (Cases.renameRequest "a.txt" "b.txt")
              "a.txt" "b.txt" "Internal error" Cases.note (Rename.data Cases.note) _
              eq_refl eq_refl eq_refl
              ltac:(discriminate) ltac:(discriminate) ltac:(discriminate)
              (sticky_keyValue _) eq_refl eq_refl eq_refl eq_refl eq_refl)
    as (Hpost & Hold & Hnew).
  eexists. split; [exact Hpost|]. split; [exact Hold|exact Hnew].
Defined.

Lemma listing_returns_every_page_witness :
  ListAssets.GET {| ListAssets.CLOUD_FILES := Some Cases.pagedBucket |} Cases.listRequest 1
  = Some (ListAssets.success
            (ListAssets.Listed
               [{| ListAssets.key := "docs/a.txt"; ListAssets.uploaded := "2024-01-01" |};
                {| ListAssets.key := "docs/b.txt"; ListAssets.uploaded := "2024-01-02" |}]
               ["docs/old/"; "docs/new/"] "docs")).
Proof.
  apply (listing_returns_every_page Cases.pagedBucket Cases.listRequest
           Cases.pageOne [Cases.pageTwo] 1 eq_refl eq_refl).
  - repeat split.
  - cbn. lia.
Defined.


Lemma dotless_name_is_stored_doubled_witness :
  Keys.finalKey Cases.plainForm = "README"
  /\ fst (fst (Upload.POST {| Upload.CLOUD_FILES := Some Scenarios.shelf |}
                 (Cases.simpleRequest Cases.plainForm Cases.readme)))
     = Upload.success (Upload.Stored "README.README" "README.README" 3 "text/plain")
  /\ snd (Upload.POST {| Upload.CLOUD_FILES := Some Scenarios.shelf |}
            (Cases.simpleRequest Cases.plainForm Cases.readme))
     = [Upload.CallPut "README.README" Cases.readme "text/plain"].
Proof.
  destruct (dotless_name_is_stored_doubled Cases.plainForm Cases.readme Scenarios.shelf
              (Cases.simpleRequest Cases.plainForm Cases.readme)
              eq_refl eq_refl eq_refl eq_refl eq_refl eq_refl eq_refl eq_refl
              eq_refl eq_refl eq_refl eq_refl) as (Hkey & Hpost & _).
  split; [exact Hkey|]. rewrite Hpost. split; reflexivity.
Defined.

Lemma part_number_round_trip_witness :
  Digits.toString 12 = Some "12"
  /\ snd (Coordinator.PUT Scenarios.boundEnv (Scenarios.putPart "12"))
     = [Coordinator.CallResume "video.mp4" "session-1";
        Coordinator.CallUploadPart "video.mp4" "session-1" 12 Scenarios.chunk].
Proof.
  split; [reflexivity|].
  destruct (part_number_round_trip Scenarios.boundEnv
              (Scenarios.putPart "12") Scenarios.okBucket
              12 "session-1" "video.mp4" Scenarios.chunk
              ltac:(lia) eq_refl eq_refl eq_refl eq_refl eq_refl eq_refl eq_refl
              eq_refl eq_refl eq_refl) as [_ Hcalls].
  exact Hcalls.
Defined.

(* ===================================================================== *)
(** ** Phases of a multipart upload *)
(* ===================================================================== *)

Section Phases.
Import Planner.

Lemma phases_app t1 t2 :
  Observe.phases (t1 ++ t2) = Observe.phases t1 ++ Observe.phases t2.
Proof. apply fmap_app. Qed.

Lemma phases_constant (n : nat) (t : list Event) :
  Forall (fun e => Observe.phase e = n) t ->
  Observe.phases t = replicate (length t) n.
Proof.
  induction 1 as [|e t He _ IH]; [reflexivity|].
  cbn. rewrite He. f_equal. exact IH.
Qed.

Lemma checkExisting_phase w job round :
  exists a : nat, Observe.phases (fst (checkExisting w job round)) = replicate a 0%nat.
Proof.
  unfold checkExisting.
  destruct (JS.nonEmpty (finalKey job) && negb (replacingKey job));
    [|exists 0%nat; reflexivity].
  destruct (checkAsset w round) as [msg|r]; [exists 1%nat; reflexivity|].
  destruct (ok r); [|exists 1%nat; reflexivity].
  destruct (json r) as [j|]; [|exists 1%nat; reflexivity].
  destruct (exists_ j); [exists 2%nat|exists 1%nat]; reflexivity.
Qed.

Lemma uploadParts_phase w job f uploadId :
  forall (n : nat) (i : Z) (partsData : list Part),
    Forall (fun e => Observe.phase e = 2%nat)
           (fst (uploadParts w job f uploadId n i partsData)).
Proof.
  induction n as [|n IH]; intros i partsData; cbn [uploadParts]; [constructor|].
  assert (Hpart : Forall (fun e => Observe.phase e = 2%nat)
                         (fst (uploadPartAt w job f uploadId i))).
  { eapply Forall_impl; [apply sendPart_events|].
    intros e [->|[ms ->]]; reflexivity. }
  destruct (uploadPartAt w job f uploadId i) as [t r]. cbn [fst] in Hpart.
  destruct r as [eTag|err]; [|exact Hpart].
  specialize (IH (i + 1) (partsData ++ [(i + 1, eTag)])).
  destruct (uploadParts w job f uploadId n (i + 1) (partsData ++ [(i + 1, eTag)]))
    as [t' r']. cbn [fst] in *.
  apply Forall_app. split; [exact Hpart|]. constructor; [reflexivity|exact IH].
Qed.

End Phases.

(** X21. A multipart upload goes through its phases in order and never
    back: the existence check, then at most one create request, then the
    part loop (fetches, waits, progress reports), then at most one
    complete request, which is only sent after a create, then the final
    alert.  No part is fetched before create or after complete. *)
Theorem upload_goes_through_phases_in_order
    (w : Planner.World) (job : Planner.Job) (f : Planner.File) (fuel round : nat) :
  Planner.file job = Some f ->
  Planner.CHUNK_SIZE <= Planner.size f ->
  exists a b c d e : nat,
    (b <= 1)%nat /\ (d <= 1)%nat /\ (d = 1%nat -> b = 1%nat)
    /\ Observe.phases (fst (Planner.uploadFileMultipart w job (S fuel) round))
       = replicate a 0%nat ++ replicate b 1%nat ++ replicate c 2%nat
           ++ replicate d 3%nat ++ replicate e 4%nat.
Proof.
  intros Hfile Hsize.
  destruct (checkExisting_phase w job round) as [a Ha].
  destruct (uploadFileMultipart_cases w job f fuel round Hfile Hsize) as [Hrun|Hrun];
    rewrite Hrun; cbn [fst].
  - exists a, 0%nat, 0%nat, 0%nat, 0%nat. rewrite Ha. cbn. rewrite app_nil_r.
    repeat split; lia.
  - rewrite phases_app, Ha. unfold Planner.multipartSession.
    destruct (Planner.create w) as [msg|cr];
      [exists a, 1%nat, 0%nat, 0%nat, 1%nat; repeat split; lia|].
    destruct (Planner.json cr) as [cj|];
      [|exists a, 1%nat, 0%nat, 0%nat, 1%nat; repeat split; lia].
    pose proof (uploadParts_phase w job f (Planner.uploadId cj)
                  (Z.to_nat (Planner.totalParts f)) 0 []) as Hloop.
    destruct (Planner.uploadParts w job f (Planner.uploadId cj)
                (Z.to_nat (Planner.totalParts f)) 0 []) as [t res].
    cbn [fst] in Hloop. apply phases_constant in Hloop.
    assert (Hfail : Observe.phases
                      (Planner.EvCreate (Planner.key job) (Planner.type f)
                         :: t ++ [Planner.failedAlert])
                    = replicate 1 1%nat ++ replicate (length t) 2%nat
                        ++ replicate 0 3%nat ++ replicate 1 4%nat).
    { change (Planner.EvCreate (Planner.key job) (Planner.type f) :: t ++ [Planner.failedAlert])
        with ([Planner.EvCreate (Planner.key job) (Planner.type f)]
                ++ t ++ [Planner.failedAlert]).
      rewrite !phases_app, Hloop. reflexivity. }
    assert (Hdone : forall parts alert,
              Observe.phase alert = 4%nat ->
              Observe.phases
                (Planner.EvCreate (Planner.key job) (Planner.type f)
                   :: t ++ [Planner.EvComplete (Planner.uploadId cj) (Planner.key job) parts;
                            alert])
              = replicate 1 1%nat ++ replicate (length t) 2%nat
                  ++ replicate 1 3%nat ++ replicate 1 4%nat).
    { intros parts alert Halert.
      change (Planner.EvCreate (Planner.key job) (Planner.type f) :: ?l)
        with ([Planner.EvCreate (Planner.key job) (Planner.type f)] ++ l).
      rewrite !phases_app, Hloop. cbn. rewrite Halert. reflexivity. }
    destruct res as [err|pd].
    + exists a, 1%nat, (length t), 0%nat, 1%nat. cbn [fst]. rewrite Hfail.
      repeat split; lia.
    + exists a, 1%nat, (length t), 1%nat, 1%nat.
      split; [lia|]. split; [lia|]. split; [lia|].
      destruct (Planner.completeUpload w) as [msg|r]; cbn [fst];
        [rewrite Hdone by reflexivity; reflexivity|].
      destruct (negb (Planner.ok r)); cbn [fst];
        [rewrite Hdone by reflexivity; reflexivity|].
      destruct (Planner.json r); cbn [fst]; rewrite Hdone by reflexivity; reflexivity.
Qed.

Lemma upload_goes_through_phases_in_order_witness :
  Observe.phases
    (fst (Planner.uploadFileMultipart Scenarios.calmWorld
            (Scenarios.jobOf (Scenarios.MiB 12)) 1 0))
  = [0; 1; 2; 2; 2; 2; 2; 2; 3; 4]%nat
  /\ exists a b c d e : nat,
       Observe.phases
         (fst (Planner.uploadFileMultipart Scenarios.calmWorld
                 (Scenarios.jobOf (Scenarios.MiB 12)) 1 0))
       = replicate a 0%nat ++ replicate b 1%nat ++ replicate c 2%nat
           ++ replicate d 3%nat ++ replicate e 4%nat.
Proof.
  split; [reflexivity|].
  destruct (upload_goes_through_phases_in_order Scenarios.calmWorld
              (Scenarios.jobOf (Scenarios.MiB 12))
              (Scenarios.video (Scenarios.MiB 12)) 0 0 eq_refl
              ltac:(vm_compute; discriminate)) as (a & b & c & d & e & _ & _ & _ & H).
  exists a, b, c, d, e. exact H.
Defined.

(* ===================================================================== *)
(** ** Upload route: what a request does to the bucket *)
(* ===================================================================== *)

(** X22. A request to the upload route makes no call on the bucket or
    exactly one [put].  Without a call the bucket is left as it was and
    the answer is not 200; after the [put] the answer is 200 exactly
    when the [put] resolved to an object, and 500 otherwise. *)
Theorem upload_writes_one_key_or_nothing :
  forall (bucket : Upload.Bucket) (req : Upload.Request),
    let '(response, after, calls) :=
      Upload.POST {| Upload.CLOUD_FILES := Some bucket |} req in
    (calls = [] /\ after = Some (Upload.objects bucket) /\ Upload.status response <> 200)
    \/ (exists key file,
          let outcome :=
            Upload.put bucket (Upload.objects bucket) key file (Upload.type file) in
          calls = [Upload.CallPut key file (Upload.type file)]
          /\ after = Some (snd outcome)
          /\ (Upload.status response = 200 <->
              exists object, fst outcome = Coordinator.Returns (Some object))
          /\ (Upload.status response = 200 \/ Upload.status response = 500)).
Proof.
  intros bucket req.
  destruct (POST_cases bucket req) as [(Hst & Hafter & Hcalls)|(key & file & Hpost)].
  - destruct (Upload.POST {| Upload.CLOUD_FILES := Some bucket |} req)
      as [[response after] calls]. cbn [fst snd] in *. left. auto.
  - rewrite Hpost. right. exists key, file. cbn zeta.
    split; [reflexivity|]. split; [reflexivity|].
    destruct (Upload.put bucket (Upload.objects bucket) key file (Upload.type file))
      as [[[object|]|message] after]; cbn [fst snd Upload.answer].
    + split; [split; [eauto|reflexivity]|left; reflexivity].
    + split; [split; [discriminate|intros [object H]; discriminate H]|right; reflexivity].
    + split; [split; [discriminate|intros [object H]; discriminate H]|right; reflexivity].
Qed.

(** X23. Create, get-upload-url and complete read their parameters from
    a JSON body only: sent with any other content type, by a logged-in
    caller, they are answered 500 and nothing is asked of the bucket. *)
Theorem json_actions_need_json_content_type
    (env : Coordinator.Env) (req : Coordinator.Request) (bucket : Coordinator.Bucket) :
  String.eqb (Coordinator.method req) "OPTIONS" = false ->
  Coordinator.authenticated req = true ->
  Coordinator.CLOUD_FILES env = Some bucket ->
  Coordinator.action req = Some "create"
  \/ Coordinator.action req = Some "get-upload-url"
  \/ Coordinator.action req = Some "complete" ->
  JS.includes (default "" (Coordinator.contentType req)) "application/json" = false ->
  Coordinator.POST env req = (Coordinator.error "Multipart upload failed" 500, []).
Proof.
  intros Hm Ha Hb Hact Hct. unfold Coordinator.POST.
  rewrite Hm, Ha, Hb. cbn [negb].
  unfold Coordinator.parseRequestData. rewrite Hct.
  destruct Hact as [->|[->| ->]]; reflexivity.
Qed.

Lemma json_actions_need_json_content_type_witness :
  Coordinator.POST Scenarios.boundEnv
    {| Coordinator.method := "POST";
       Coordinator.authenticated := true;
       Coordinator.searchParams := [("action", "create")];
       Coordinator.contentType := Some "text/plain";
       Coordinator.jsonBody := None;
       Coordinator.formData := None;
       Coordinator.body := None |}
  = (Coordinator.error "Multipart upload failed" 500, []).
Proof.
  apply (json_actions_need_json_content_type Scenarios.boundEnv _ Scenarios.okBucket);
    try reflexivity.
  left. reflexivity.
Defined.
